(** * The mesh creators of [src/editor/curves/RegionManager.ts], lines 40-277

    A shallow embedding of the decorator stack

      ObjectCacheMeshCreator (FaceCacheMeshCreator (ParallelMeshCreator))

    together with the properties the specification states about it.

    The code is asynchronous JavaScript running on one thread.  A promise is
    modelled by the tick at which it settles and the way it settles; the body
    of an async function is a computation in a small monad [M] that carries
    the clock of the running function, the effects it performs (each stamped
    with the tick at which it happens) and a possible rejection.  The object
    cache, whose body never awaits, is modelled by explicit state passing.

    The same file holds the document of the editor ([PlasticityDocument],
    lines 283-439) and the small gizmos (lines 495-936).  Of these the
    development embeds what does not depend on the scene graph or on the DOM:
    the indices and the materials [serialize] writes and [load] reads back,
    the value state machines of the gizmos and the handlers of [AngleGizmo].
    Numbers are binary64 floating-point numbers. *)

From stdpp Require Import base option list gmap sorting strings.
From Stdlib Require Import ZArith Lia SpecFloat.

Local Open Scope Z_scope.
Local Open Scope nat_scope.

(** ** Promises *)

Module Promise.

(** The reason a promise is rejected with (an [Error] message). *)
Definition Reason := string.

Inductive outcome (A : Type) : Type :=
| Fulfilled (a : A)
| Rejected (reason : Reason).
Global Arguments Fulfilled {A} a.
Global Arguments Rejected {A} reason.

(** A promise: [at_tick] is the tick at which it settles. *)
Record t (A : Type) : Type := Settles { at_tick : nat; result : outcome A }.
Global Arguments Settles {A} at_tick result.
Global Arguments at_tick {A} _.
Global Arguments result {A} _.

(** [Promise.all]: fulfilled with all the values once the last promise is
    fulfilled; rejected, as soon as one promise is rejected, with the reason
    of the promise rejected first (of two rejected at the same tick, the one
    earlier in the array). *)
Fixpoint all {A} (ps : list (t A)) : t (list A) :=
  match ps with
  | [] => Settles 0 (Fulfilled [])
  | p :: ps' =>
      let r := all ps' in
      match result p, result r with
      | Fulfilled a, Fulfilled l => Settles (at_tick p `max` at_tick r) (Fulfilled (a :: l))
      | Fulfilled _, Rejected e => Settles (at_tick r) (Rejected e)
      | Rejected e, Fulfilled _ => Settles (at_tick p) (Rejected e)
      | Rejected e, Rejected e' =>
          if at_tick p <=? at_tick r then Settles (at_tick p) (Rejected e)
          else Settles (at_tick r) (Rejected e')
      end
  end.

End Promise.

Import Promise.

(** ** The geometry kernel (c3d) as the creators see it *)

(** [stepData.GetSag()], a JavaScript number used as a [Map] key.  The model
    carries the number by an integer code (its binary64 bit pattern); key
    equality of [Map] is equality of codes for every sag that is neither a
    zero nor NaN. *)
Definition Sag := Z.

Record StepData := { GetSag : Sag }.
Record FormNote := { Quad : bool; Fair : bool }.

(** A [c3d.CurveEdge] object; [seenEdges] compares edges by reference. *)
Record CurveEdge := EdgeRef { edge_ref : Z }.

Global Instance CurveEdge_eq_dec : EqDecision CurveEdge.
Proof. solve_decision. Defined.
Global Instance CurveEdge_countable : Countable CurveEdge.
Proof. apply (inj_countable' edge_ref EdgeRef). by intros []. Defined.

Module Face.
Record t := Make {
  Id : Z;
  GetOwnChanged : bool;
  GetNameHash : Z;
  GetStyle : Z;
  GetEdges : list CurveEdge;
}.
End Face.

Module Solid.
(** [GetFaces] is [solid.GetShell().GetFaces()]. *)
Record t := Make {
  Id : Z;
  GetFaces : list Face.t;
  GetEdges : list CurveEdge;
}.
End Solid.

(** The grid [calculateFace] allocates and fills before the kernel call. *)
Record Grid := {
  grid_item : Face.t;
  grid_primitiveName : Z;
  grid_stepData : StepData;
}.

(** What [grid.GetBuffers()] gives; the elements of the typed arrays are
    carried as raw words and never computed with. *)
Record GridBuffers := {
  gb_index : list N;
  gb_position : list Z;
  gb_normal : list Z;
}.

Record MeshBuffer := {
  mb_index : list N;
  mb_position : list Z;
  mb_normal : list Z;
  mb_grid : option Grid;
  mb_model : option Face.t;
  mb_style : Z;
  mb_simpleName : Z;
  mb_i : nat;
}.

Record EdgeBuffer := {
  eb_position : list Z;
  eb_i : nat;
  eb_model : option CurveEdge;
}.

(** A [c3d.Mesh] as far as it is read. *)
Module Mesh.
Record t := Make {
  GetBuffers : list MeshBuffer;
  GetEdges : bool → list EdgeBuffer;
}.
End Mesh.

Module Item.
Inductive t :=
| OfSolid (solid : Solid.t)
| Other (id : Z).

Definition Id (obj : t) : Z :=
  match obj with OfSolid s => Solid.Id s | Other id => id end.
End Item.

Record MeshLike := { faces : list MeshBuffer; edges : list EdgeBuffer }.

(** The asynchronous kernel entry points.  Each gives the promise the call
    returns: when the task settles and how. *)
Record Kernel := {
  CalculateGrid_async : Face.t → StepData → bool → bool → Promise.t GridBuffers;
  CalculateMesh_async : CurveEdge → StepData → FormNote → Promise.t Mesh.t;
  CreateMesh_async : Item.t → StepData → FormNote → Promise.t Mesh.t;
}.

(** ** Effects and the monad of async function bodies *)

Inductive effect :=
| EnterParallelRegion
| ExitParallelRegion
| CalculateGrid (face : Face.t) (stepData : StepData) (quad fair : bool)
| CalculateMesh (edge : CurveEdge) (stepData : StepData) (formNote : FormNote)
| CreateMesh (obj : Item.t) (stepData : StepData) (formNote : FormNote)
| FaceCacheSet (id : Z) (entry : MeshBuffer * list EdgeBuffer).

(** An effect with the tick at which it is performed. *)
Definition stamped := (nat * effect)%type.

Record Res (A : Type) := MkRes {
  effs : list stamped;
  clk : nat;
  out : outcome A;
}.
Arguments MkRes {A} effs clk out.
Arguments effs {A} _.
Arguments clk {A} _.
Arguments out {A} _.

(** The body of an async function, started at a given tick. *)
Record M (A : Type) := Async { run : nat → Res A }.
Arguments Async {A} run.
Arguments run {A} _ _.

Definition ret {A} (a : A) : M A :=
  Async (λ c, MkRes [] c (Fulfilled a)).

Definition bind {A B} (m : M A) (k : A → M B) : M B :=
  Async (λ c,
    let r := run m c in
    match out r with
    | Fulfilled a =>
        let r' := run (k a) (clk r) in
        MkRes (effs r ++ effs r') (clk r') (out r')
    | Rejected e => MkRes (effs r) (clk r) (Rejected e)
    end).

Global Instance M_ret : MRet M := @ret.
Global Instance M_bind : MBind M := λ A B k m, bind m k.

(** A synchronous side effect. *)
Definition perform (e : effect) : M unit :=
  Async (λ c, MkRes [(c, e)] c (Fulfilled ())).

(** [await p]: resume when [p] has settled; throw when it is rejected. *)
Definition await {A} (p : Promise.t A) : M A :=
  Async (λ c, MkRes [] (c `max` at_tick p) (result p)).

(** Calling an async function without awaiting it: the callee's effects
    happen at their own ticks, the caller goes on at once and holds the
    promise, which settles when the callee's body ends. *)
Definition promised {A} (m : M A) (c : nat) : Promise.t A :=
  Settles (clk (run m c)) (out (run m c)).

Definition call {A} (m : M A) : M (Promise.t A) :=
  Async (λ c, MkRes (effs (run m c)) c (Fulfilled (promised m c))).

(** [array.entries()]. *)
Definition entries {A} (l : list A) : list (nat * A) := imap pair l.

(** Dropping the [undefined] elements of an array. *)
Definition defined {A} (l : list (option A)) : list A := omap id l.

(** ** BasicMeshCreator *)

Module BasicMeshCreator.

Definition create (k : Kernel) (obj : Item.t) (stepData : StepData)
    (formNote : FormNote) (outlinesOnly : bool) : M MeshLike :=
  perform (CreateMesh obj stepData formNote) ;;
  mesh ← await (CreateMesh_async k obj stepData formNote) ;
  let grids := Mesh.GetBuffers mesh in
  let polygons := Mesh.GetEdges mesh outlinesOnly in
  mret {| faces := grids; edges := polygons |}.

End BasicMeshCreator.

(** ** ParallelMeshCreator *)

Module ParallelMeshCreator.

Definition calculateFace (k : Kernel) (face : Face.t) (stepData : StepData)
    (formNote : FormNote) (i : nat) : M MeshBuffer :=
  let simpleName := Face.GetNameHash face in
  let grid := {| grid_item := face; grid_primitiveName := simpleName;
                 grid_stepData := stepData |} in
  perform (CalculateGrid face stepData (Quad formNote) (Fair formNote)) ;;
  bufs ← await (CalculateGrid_async k face stepData (Quad formNote) (Fair formNote)) ;
  mret {| mb_index := gb_index bufs; mb_position := gb_position bufs;
          mb_normal := gb_normal bufs; mb_grid := Some grid;
          mb_model := Some face; mb_style := Face.GetStyle face;
          mb_simpleName := simpleName; mb_i := i |}.

Definition calculateEdge (k : Kernel) (edge : CurveEdge) (stepData : StepData)
    (formNote : FormNote) (outlinesOnly : bool) (i : nat) : M (option EdgeBuffer) :=
  perform (CalculateMesh edge stepData formNote) ;;
  mesh ← await (CalculateMesh_async k edge stepData formNote) ;
  let outlines := Mesh.GetEdges mesh outlinesOnly in
  match outlines with
  | [] => mret None
  | polygon :: _ =>
      mret (Some {| eb_position := eb_position polygon; eb_i := i;
                    eb_model := Some edge |})
  end.

Definition create (k : Kernel) (obj : Item.t) (stepData : StepData)
    (formNote : FormNote) (outlinesOnly : bool) : M MeshLike :=
  match obj with
  | Item.Other _ => BasicMeshCreator.create k obj stepData formNote outlinesOnly
  | Item.OfSolid solid =>
      perform EnterParallelRegion ;;
      facePromises ← mapM (λ '(i, face), call (calculateFace k face stepData formNote i))
                          (entries (Solid.GetFaces solid)) ;
      edgePromises ← mapM (λ '(i, edge), call (calculateEdge k edge stepData formNote outlinesOnly i))
                          (entries (Solid.GetEdges solid)) ;
      faceResult ← await (Promise.all facePromises) ;
      edgeResult_ ← await (Promise.all edgePromises) ;
      let edgeResult := defined edgeResult_ in
      perform ExitParallelRegion ;;
      mret {| faces := faceResult; edges := edgeResult |}
  end.

End ParallelMeshCreator.

(** ** FaceCacheMeshCreator *)

Module FaceCacheMeshCreator.

(** The fields of the object: [faceCache] and [copier.faces] (called
    [history] in [create]), which maps the id of a face to its lineage id.
    The wrapped [ParallelMeshCreator] has no state of its own. *)
Record t := Make {
  faceCache : gmap Z (MeshBuffer * list EdgeBuffer);
  history : gmap Z Z;
}.

(** The local variables [create] updates while it walks the faces. *)
Record Loop := MkLoop {
  facePromises : list (Promise.t MeshBuffer);
  edgePromises : list (Promise.t (option EdgeBuffer));
  cachedFaces : list MeshBuffer;
  cachedEdges : list EdgeBuffer;
  j : nat;
}.

Definition cacheFace (id : option Z) (isCacheable : bool)
    (facePromise : Promise.t MeshBuffer)
    (edgePromises : list (Promise.t (option EdgeBuffer))) : M unit :=
  if isCacheable then
    face ← await facePromise ;
    edges_ ← await (Promise.all edgePromises) ;
    let edges := defined edges_ in
    match id with
    | Some id => perform (FaceCacheSet id (face, edges))
    | None => mret ()  (* [id!]: never so when [isCacheable] *)
    end
  else mret ().

(** One turn of [for (const [i, face] of faces.entries())]. *)
Definition visit (this : t) (k : Kernel) (stepData : StepData) (formNote : FormNote)
    (outlinesOnly : bool) (seenEdges : gset CurveEdge)
    (st : Loop) (entry : nat * Face.t) : M Loop :=
  let '(i, face) := entry in
  let id := history this !! Face.Id face in
  let isCacheable := negb (Face.GetOwnChanged face) && bool_decide (id ≠ None) in
  let existingGrid := if isCacheable then id ≫= (faceCache this !!.) else None in
  match isCacheable, existingGrid with
  | true, Some (face, edges) =>
      mret (MkLoop (facePromises st) (edgePromises st)
                   (cachedFaces st ++ [face]) (cachedEdges st ++ edges) (j st))
  | _, _ =>
      facePromise ← call (ParallelMeshCreator.calculateFace k face stepData formNote i) ;
      let edges := filter (λ e, e ∉ seenEdges) (Face.GetEdges face) in
      faceEdgePromises ←
        mapM (λ '(n, e), call (ParallelMeshCreator.calculateEdge k e stepData formNote
                                 outlinesOnly (j st + n)))
             (entries edges) ;
      call (cacheFace id isCacheable facePromise faceEdgePromises) ;;
      mret (MkLoop (facePromises st ++ [facePromise]) (edgePromises st ++ faceEdgePromises)
                   (cachedFaces st) (cachedEdges st) (j st + length edges))
  end.

Fixpoint forEach {A S} (body : S → A → M S) (l : list A) (st : S) : M S :=
  match l with
  | [] => mret st
  | x :: l' => st' ← body st x ; forEach body l' st'
  end.

(** [cacheFace] writes to [faceCache] only after an await, so no write of a
    call happens before its loop has ended: the loop reads the table as it is
    when the call starts. *)
Definition create (this : t) (k : Kernel) (obj : Item.t) (stepData : StepData)
    (formNote : FormNote) (outlinesOnly : bool) : M MeshLike :=
  match obj with
  | Item.Other _ => BasicMeshCreator.create k obj stepData formNote outlinesOnly
  | Item.OfSolid solid =>
      perform EnterParallelRegion ;;
      let faces := Solid.GetFaces solid in
      let seenEdges : gset CurveEdge := ∅ in
      st ← forEach (visit this k stepData formNote outlinesOnly seenEdges)
                   (entries faces) (MkLoop [] [] [] [] 0) ;
      computed ← await (Promise.all (facePromises st)) ;
      let allFaces := cachedFaces st ++ computed in
      edges_ ← await (Promise.all (edgePromises st)) ;
      let edges := defined edges_ in
      let allEdges := cachedEdges st ++ edges in
      perform ExitParallelRegion ;;
      mret {| faces := allFaces; edges := allEdges |}
  end.

(** The writes to [faceCache] among the effects of a call, and the table
    once they have all happened, each at its tick. *)
Definition cacheWrites (es : list stamped) : list (nat * (Z * (MeshBuffer * list EdgeBuffer))) :=
  omap (λ '(tick, e), match e with
                      | FaceCacheSet id entry => Some (tick, (id, entry))
                      | _ => None
                      end) es.

Definition earlier (a b : nat * (Z * (MeshBuffer * list EdgeBuffer))) : Prop := a.1 ≤ b.1.

Global Instance earlier_dec a b : Decision (earlier a b).
Proof. unfold earlier. apply _. Defined.

Definition settled (this : t) (es : list stamped) : t :=
  Make (foldl (λ m w, <[w.2.1 := w.2.2]> m) (faceCache this)
              (merge_sort earlier (cacheWrites es)))
       (history this).

End FaceCacheMeshCreator.

(** ** The parallel region *)

(** Modelled from the spec: [c3d.Mutex.EnterParallelRegion] and
    [ExitParallelRegion] are kernel code; the flag they toggle is process-wide
    state, set by the first and cleared by the second. *)
Definition inParallelRegion (flag : bool) (es : list stamped) : bool :=
  foldl (λ b se, match se.2 with
                 | EnterParallelRegion => true
                 | ExitParallelRegion => false
                 | _ => b
                 end) flag es.

Definition isKernelCall (e : effect) : bool :=
  match e with
  | CalculateGrid _ _ _ _ | CalculateMesh _ _ _ | CreateMesh _ _ _ => true
  | _ => false
  end.

(** ** The [MeshCreator] interface, seen from a caller *)

(** [create] as a caller that does not await sees it: the object may change
    state, and a promise comes back. *)
Class MeshCreator (T : Type) :=
  create : T → Item.t → StepData → FormNote → bool → T * Promise.t MeshLike.

(** The arguments of one [create] call. *)
Definition Request := (Item.t * StepData * FormNote * bool)%type.

(** A creator that records the calls it receives and forwards them, the way
    a test double counts invocations. *)
Module Counting.
Record t (U : Type) := Make { calls : list Request; inner : U }.
Global Arguments Make {U} calls inner.
Global Arguments calls {U} _.
Global Arguments inner {U} _.

Global Instance meshCreator `{MeshCreator U} : MeshCreator (t U) :=
  λ this obj stepData formNote outlinesOnly,
    let '(u, result) := create (inner this) obj stepData formNote outlinesOnly in
    (Make (calls this ++ [(obj, stepData, formNote, outlinesOnly)]) u, result).
End Counting.

(** ** ObjectCacheMeshCreator *)

(** Modelled from the spec: [Delay] comes from a utility module; it is the
    "pending-result placeholder (a not-yet-settled future)" of the object
    cache.  [delay.promise] is pending until [delay.resolve] is called; when
    it is resolved with a promise it settles as that promise does. *)
Module Delay.
Definition promise {A} (resolvedWith : Promise.t A) : Promise.t A := resolvedWith.
End Delay.

Module ObjectCacheMeshCreator.

Record t (U : Type) := Make {
  objectCache : gmap Sag (gmap Z (Promise.t MeshLike));
  underlying : U;
}.
Global Arguments Make {U} objectCache underlying.
Global Arguments objectCache {U} _.
Global Arguments underlying {U} _.

(** NOTE in the source: only SAG is needed, so only SAG is used. *)
Definition formAndPrecisionCacheKey (stepData : StepData) (formNote : FormNote) : Sag :=
  GetSag stepData.

(** The body never awaits, so a call runs from its first statement to its
    return with nothing in between.  The placeholder [delay.promise] is put
    in the table before [underlying.create] is called and is resolved with
    the promise that call returns before anything else can look at the
    table; the table of the model holds it as resolved. *)
Definition create `{MeshCreator U} (this : t U) (obj : Item.t) (stepData : StepData)
    (formNote : FormNote) (outlinesOnly : bool) : t U * Promise.t MeshLike :=
  let id := Item.Id obj in
  let key := formAndPrecisionCacheKey stepData formNote in
  let '(objectCache, level) :=
    match objectCache this !! key with
    | Some level => (objectCache this, level)
    | None => (<[key := ∅]> (objectCache this), ∅)
    end in
  match level !! id with
  | Some memoized => (Make objectCache (underlying this), memoized)
  | None =>
      let '(u, result) := create (underlying this) obj stepData formNote outlinesOnly in
      (Make (<[key := <[id := Delay.promise result]> level]> objectCache) u, result)
  end.

Global Instance meshCreator `{MeshCreator U} : MeshCreator (t U) := create.

(** [objectCache.get(key)?.get(id)]. *)
Definition cached {U} (this : t U) (key : Sag) (id : Z) : option (Promise.t MeshLike) :=
  objectCache this !! key ≫= (.!! id).

End ObjectCacheMeshCreator.

(** ** The stack [DoCacheMeshCreator.caching] builds *)

Module Pipeline.

(** A [FaceCacheMeshCreator] over a kernel, for calls made one after the
    other: a call starts once the cache writes of the calls before it have
    happened. *)
Record FaceCaching := Make {
  creator : FaceCacheMeshCreator.t;
  kernel : Kernel;
  now : nat;
  trace : list stamped;
}.

Definition lastTick (c : nat) (es : list stamped) : nat := max_list (c :: es.*1).

Global Instance faceCaching : MeshCreator FaceCaching :=
  λ this obj stepData formNote outlinesOnly,
    let r := run (FaceCacheMeshCreator.create (creator this) (kernel this)
                    obj stepData formNote outlinesOnly) (now this) in
    (Make (FaceCacheMeshCreator.settled (creator this) (effs r)) (kernel this)
          (lastTick (clk r) (effs r)) (trace this ++ effs r),
     Settles (clk r) (out r)).

(** [new ObjectCacheMeshCreator(new FaceCacheMeshCreator(fallback, copier))] *)
Definition caching (k : Kernel) (copier_faces : gmap Z Z) (now : nat)
  : ObjectCacheMeshCreator.t FaceCaching :=
  ObjectCacheMeshCreator.Make ∅ (Make (FaceCacheMeshCreator.Make ∅ copier_faces) k now []).

End Pipeline.

(** ** Notions used to state the properties *)

(** The kernel calls among the effects of a call. *)
Definition kernelCalls (es : list stamped) : list stamped :=
  filter (λ se, isKernelCall se.2 = true) es.

Definition isRegionEffect (e : effect) : bool :=
  match e with EnterParallelRegion | ExitParallelRegion => true | _ => false end.

(** The tick at which the kernel task started by a kernel call settles, and
    the reason it is rejected with, if it is. *)
Definition taskTick (k : Kernel) (e : effect) : nat :=
  match e with
  | CalculateGrid face sd quad fair => at_tick (CalculateGrid_async k face sd quad fair)
  | CalculateMesh edge sd fn => at_tick (CalculateMesh_async k edge sd fn)
  | CreateMesh obj sd fn => at_tick (CreateMesh_async k obj sd fn)
  | _ => 0
  end.

Definition taskReason (k : Kernel) (e : effect) : option Reason :=
  let reason {A} (p : Promise.t A) :=
    match result p with Rejected r => Some r | Fulfilled _ => None end in
  match e with
  | CalculateGrid face sd quad fair => reason (CalculateGrid_async k face sd quad fair)
  | CalculateMesh edge sd fn => reason (CalculateMesh_async k edge sd fn)
  | CreateMesh obj sd fn => reason (CreateMesh_async k obj sd fn)
  | _ => None
  end.

(** The promises [create] holds for the faces and for the edges it computes,
    when it runs at tick [c]. *)
Definition faceTasks (k : Kernel) (stepData : StepData) (formNote : FormNote) (c : nat)
    (l : list (nat * Face.t)) : list (Promise.t MeshBuffer) :=
  (λ '(i, face), promised (ParallelMeshCreator.calculateFace k face stepData formNote i) c) <$> l.

Definition edgeTasks (k : Kernel) (stepData : StepData) (formNote : FormNote)
    (outlinesOnly : bool) (c : nat) (l : list (nat * CurveEdge))
    : list (Promise.t (option EdgeBuffer)) :=
  (λ '(i, edge), promised (ParallelMeshCreator.calculateEdge k edge stepData formNote
                             outlinesOnly i) c) <$> l.

(** The kernel calls for an array of faces and for an array of edges. *)
Definition gridCalls (stepData : StepData) (formNote : FormNote) (c : nat)
    (l : list Face.t) : list stamped :=
  (λ face, (c, CalculateGrid face stepData (Quad formNote) (Fair formNote))) <$> l.

Definition meshCalls (stepData : StepData) (formNote : FormNote) (c : nat)
    (l : list CurveEdge) : list stamped :=
  (λ edge, (c, CalculateMesh edge stepData formNote)) <$> l.

(** The entry [create] reuses for a face: the face reports no change, its
    lineage id is known, and the table has an entry under it. *)
Definition cacheHit (this : FaceCacheMeshCreator.t) (face : Face.t)
    : option (MeshBuffer * list EdgeBuffer) :=
  if Face.GetOwnChanged face then None
  else FaceCacheMeshCreator.history this !! Face.Id face
         ≫= (FaceCacheMeshCreator.faceCache this !!.).

(** The promises for the edges of one face, numbered from [j]. *)
Definition faceEdgeTasks (k : Kernel) (stepData : StepData) (formNote : FormNote)
    (outlinesOnly : bool) (c j : nat) (l : list CurveEdge)
    : list (Promise.t (option EdgeBuffer)) :=
  (λ '(n, edge), promised (ParallelMeshCreator.calculateEdge k edge stepData formNote
                             outlinesOnly (j + n)) c) <$> entries l.

(** What holds of the loop of [FaceCacheMeshCreator.create] once it has
    visited the faces [done]: [st] holds its local variables and [es] the
    effects performed so far. *)
Section loop_notions.
Context (this : FaceCacheMeshCreator.t) (k : Kernel).
Context (stepData : StepData) (formNote : FormNote) (outlinesOnly : bool) (c : nat).

Definition isMiss (x : nat * Face.t) : Prop := cacheHit this x.2 = None.

Global Instance isMiss_dec x : Decision (isMiss x).
Proof. unfold isMiss. apply _. Defined.

(** The entry [cacheFace] writes for [face] at tick [tick]: the face reports
    no change, its lineage id [lid] has no entry yet, and its grid and the
    meshes of all its edges have been computed by then. *)
Definition written (i : nat) (face : Face.t) (tick : nat) (lid : Z)
    (entry : MeshBuffer * list EdgeBuffer) : Prop :=
  Face.GetOwnChanged face = false ∧
  FaceCacheMeshCreator.history this !! Face.Id face = Some lid ∧
  FaceCacheMeshCreator.faceCache this !! lid = None ∧
  out (run (ParallelMeshCreator.calculateFace k face stepData formNote i) c)
    = Fulfilled entry.1 ∧
  at_tick (CalculateGrid_async k face stepData (Quad formNote) (Fair formNote)) ≤ tick ∧
  (∀ edge, edge ∈ Face.GetEdges face →
     at_tick (CalculateMesh_async k edge stepData formNote) ≤ tick ∧
     ∃ mesh, result (CalculateMesh_async k edge stepData formNote) = Fulfilled mesh) ∧
  ∃ j edges_,
    Forall2 (λ p v, result p = Fulfilled v)
      (faceEdgeTasks k stepData formNote outlinesOnly c j (Face.GetEdges face)) edges_ ∧
    entry.2 = defined edges_.

(** Every effect of the loop is a kernel call for a face that is not reused
    or for one of its edges, or a write of [cacheFace]. *)
Definition accounted (done : list (nat * Face.t)) (st : FaceCacheMeshCreator.Loop)
    (se : stamped) : Prop :=
  match se.2 with
  | CalculateGrid face sd quad fair =>
      se.1 = c ∧ sd = stepData ∧ quad = Quad formNote ∧ fair = Fair formNote ∧
      ∃ i, (i, face) ∈ done ∧ cacheHit this face = None ∧
           promised (ParallelMeshCreator.calculateFace k face stepData formNote i) c
             ∈ FaceCacheMeshCreator.facePromises st
  | CalculateMesh edge sd fn =>
      se.1 = c ∧ sd = stepData ∧ fn = formNote ∧
      ∃ i face n, (i, face) ∈ done ∧ cacheHit this face = None ∧
                  edge ∈ Face.GetEdges face ∧
                  promised (ParallelMeshCreator.calculateEdge k edge stepData formNote
                              outlinesOnly n) c
                    ∈ FaceCacheMeshCreator.edgePromises st
  | FaceCacheSet lid entry =>
      ∃ i face, (i, face) ∈ done ∧ written i face se.1 lid entry
  | _ => False
  end.

(** Every promise the loop holds belongs to a kernel call it made. *)
Definition faceTaskOf (done : list (nat * Face.t)) (es : list stamped)
    (p : Promise.t MeshBuffer) : Prop :=
  ∃ i face, (i, face) ∈ done ∧ cacheHit this face = None ∧
    p = promised (ParallelMeshCreator.calculateFace k face stepData formNote i) c ∧
    (c, CalculateGrid face stepData (Quad formNote) (Fair formNote)) ∈ es.

Definition edgeTaskOf (done : list (nat * Face.t)) (es : list stamped)
    (p : Promise.t (option EdgeBuffer)) : Prop :=
  ∃ i face edge n, (i, face) ∈ done ∧ cacheHit this face = None ∧
    edge ∈ Face.GetEdges face ∧
    p = promised (ParallelMeshCreator.calculateEdge k edge stepData formNote
                    outlinesOnly n) c ∧
    (c, CalculateMesh edge stepData formNote) ∈ es.

(** Every face that is not reused has its kernel calls made. *)
Definition computed (es : list stamped) (x : nat * Face.t) : Prop :=
  cacheHit this x.2 = None →
  (c, CalculateGrid x.2 stepData (Quad formNote) (Fair formNote)) ∈ es ∧
  ∀ edge, edge ∈ Face.GetEdges x.2 → (c, CalculateMesh edge stepData formNote) ∈ es.

Record loopInv (done : list (nat * Face.t)) (st : FaceCacheMeshCreator.Loop)
    (es : list stamped) : Prop := LoopInv {
  inv_cachedFaces :
    FaceCacheMeshCreator.cachedFaces st = omap (λ x, fst <$> cacheHit this x.2) done;
  inv_cachedEdges :
    FaceCacheMeshCreator.cachedEdges st = omap (λ x, cacheHit this x.2) done ≫= snd;
  inv_facePromises :
    FaceCacheMeshCreator.facePromises st
      = faceTasks k stepData formNote c (filter isMiss done);
  inv_edgeCount :
    length (FaceCacheMeshCreator.edgePromises st)
      = sum_list_with (λ x, length (Face.GetEdges x.2)) (filter isMiss done);
  inv_accounted : Forall (accounted done st) es;
  inv_faceTasks : Forall (faceTaskOf done es) (FaceCacheMeshCreator.facePromises st);
  inv_edgeTasks : Forall (edgeTaskOf done es) (FaceCacheMeshCreator.edgePromises st);
  inv_computed : Forall (computed es) done;
}.

(** The loop over the faces of a solid, run at tick [c]. *)
Definition loopRun (faces : list Face.t) : Res FaceCacheMeshCreator.Loop :=
  run (FaceCacheMeshCreator.forEach
         (FaceCacheMeshCreator.visit this k stepData formNote outlinesOnly ∅)
         (entries faces) (FaceCacheMeshCreator.MkLoop [] [] [] [] 0)) c.

End loop_notions.

(** The end both [create] functions share on a solid: with the effects
    [issued] performed at tick [c], await all of [fps], then all of [eps],
    then leave the region and return. *)
Definition awaitBoth {A B R : Type} (c : nat) (issued : list stamped)
    (fps : list (Promise.t A)) (eps : list (Promise.t B))
    (finish : list A → list B → R) : Res R :=
  match result (Promise.all fps) with
  | Rejected e => MkRes issued (c `max` at_tick (Promise.all fps)) (Rejected e)
  | Fulfilled xs =>
      let c1 := c `max` at_tick (Promise.all fps) in
      match result (Promise.all eps) with
      | Rejected e => MkRes issued (c1 `max` at_tick (Promise.all eps)) (Rejected e)
      | Fulfilled ys =>
          let c2 := c1 `max` at_tick (Promise.all eps) in
          MkRes (issued ++ [(c2, ExitParallelRegion)]) c2 (Fulfilled (finish xs ys))
      end
  end.

(** The calls of [edge.CalculateMesh_async] among the effects of a call. *)
Definition isMeshCall (e : effect) : bool :=
  match e with CalculateMesh _ _ _ => true | _ => false end.

Definition meshCallsOf (es : list stamped) : list stamped :=
  filter (λ se, isMeshCall se.2 = true) es.

(** A promise [create] holds settles as the kernel task of a kernel call
    does: at the tick of the task, or at the tick of the call if that is
    later, and rejected exactly when the task is, with its reason. *)
Definition settlesAs {A : Type} (k : Kernel) (c : nat) (p : Promise.t A) (se : stamped) : Prop :=
  isKernelCall se.2 = true ∧
  at_tick p = c `max` taskTick k se.2 ∧
  ∀ e, result p = Rejected e ↔ taskReason k se.2 = Some e.

(** The effects [body] of the loops of a [create] call and the promises it
    then awaits: the effects are kernel calls made at tick [c] and cache
    writes, every kernel call has its promise and every promise its call. *)
Definition linked {A B : Type} (k : Kernel) (c : nat) (body : list stamped)
    (fps : list (Promise.t A)) (eps : list (Promise.t B)) : Prop :=
  Forall (λ se, isRegionEffect se.2 = false) body ∧
  (∀ se, se ∈ body → isKernelCall se.2 = true →
     se.1 = c ∧ ((∃ p, p ∈ fps ∧ settlesAs k c p se) ∨ (∃ p, p ∈ eps ∧ settlesAs k c p se))) ∧
  (∀ p, p ∈ fps → ∃ se, se ∈ body ∧ settlesAs k c p se) ∧
  (∀ p, p ∈ eps → ∃ se, se ∈ body ∧ settlesAs k c p se).


(** The buffers [ms] are the results for the numbered faces [l], in order:
    each has the face as its model and the number of the face. *)
Definition resultsOf (l : list (nat * Face.t)) (ms : list MeshBuffer) : Prop :=
  (λ mb, (mb_i mb, mb_model mb)) <$> ms = (λ x, (x.1, Some x.2)) <$> l.

(** The buffers are in the declared order of the faces of a solid. *)
Definition inDeclaredOrder (faces : list Face.t) (ms : list MeshBuffer) : Prop :=
  resultsOf (entries faces) ms.

(** ** A cube, two kernels *)

(** A cube: six faces of four edges, twelve edges, each on two faces. *)
Definition cubeFace (n : Z) (changed : bool) (edges : list Z) : Face.t :=
  Face.Make (100 + n) changed (200 + n) 0 (EdgeRef <$> edges).

Definition cubeFaces : list Face.t :=
  [ cubeFace 1 false [0; 1; 2; 3]%Z;
    cubeFace 2 false [4; 5; 6; 7]%Z;
    cubeFace 3 false [0; 9; 4; 8]%Z;
    cubeFace 4 false [1; 10; 5; 9]%Z;
    cubeFace 5 false [2; 11; 6; 10]%Z;
    cubeFace 6 false [3; 8; 7; 11]%Z ].

Definition cubeEdges : list CurveEdge :=
  EdgeRef <$> [0; 1; 2; 3; 4; 5; 6; 7; 8; 9; 10; 11]%Z.

Definition cube : Solid.t := Solid.Make 1 cubeFaces cubeEdges.

(** The lineage ids the copier knows for the faces of the cube. *)
Definition cubeHistory : gmap Z Z :=
  list_to_map ((λ n, (100 + n, 1000 + n)%Z) <$> [1; 2; 3; 4; 5; 6]%Z).

(** A kernel for which every task is fulfilled: the grid of face [100 + n]
    after [n] ticks, the mesh of edge [n] after [n + 1] ticks, each with one
    outline.  The buffers record the sag they were computed with. *)
Definition edgeMesh (edge : CurveEdge) (stepData : StepData) : Mesh.t :=
  Mesh.Make [] (λ _, [ {| eb_position := [edge_ref edge; GetSag stepData];
                          eb_i := 0; eb_model := None |} ]).

Definition kernelOk : Kernel := {|
  CalculateGrid_async face stepData quad fair :=
    Settles (Z.to_nat (Face.Id face - 100))
            (Fulfilled {| gb_index := [0; 1; 2]%N; gb_position := [GetSag stepData];
                          gb_normal := [] |});
  CalculateMesh_async edge stepData formNote :=
    Settles (Z.to_nat (edge_ref edge) + 1) (Fulfilled (edgeMesh edge stepData));
  CreateMesh_async obj stepData formNote :=
    Settles 1 (Fulfilled (Mesh.Make [] (λ _, [])));
|}.

(** The same kernel, except that the grid of face 103 fails at tick 3. *)
Definition kernelFailing : Kernel := {|
  CalculateGrid_async face stepData quad fair :=
    if decide (Face.Id face = 103%Z) then Settles 3 (Rejected "CalculateGrid failed")
    else CalculateGrid_async kernelOk face stepData quad fair;
  CalculateMesh_async := CalculateMesh_async kernelOk;
  CreateMesh_async := CreateMesh_async kernelOk;
|}.

Definition sag1 : StepData := {| GetSag := 1%Z |}.
Definition sag2 : StepData := {| GetSag := 2%Z |}.
Definition plain : FormNote := {| Quad := false; Fair := false |}.

(** The face cache after a first call on the cube, at sag 1, has settled. *)
Definition primed : FaceCacheMeshCreator.t :=
  let this := FaceCacheMeshCreator.Make ∅ cubeHistory in
  FaceCacheMeshCreator.settled this
    (effs (run (FaceCacheMeshCreator.create this kernelOk (Item.OfSolid cube) sag1 plain
                  false) 0)).

(** The cube after an edit of its first face, which now reports a change. *)
Definition cubeEdited : Solid.t :=
  Solid.Make 1 (cubeFace 1 true [0; 1; 2; 3]%Z :: tail cubeFaces) cubeEdges.

(** The stack of [DoCacheMeshCreator.caching] at the start of a session, over
    a kernel, with the calls that reach the face cache counted. *)
Definition countedPipeline (k : Kernel)
  : ObjectCacheMeshCreator.t (Counting.t Pipeline.FaceCaching) :=
  ObjectCacheMeshCreator.Make ∅
    (Counting.Make []
       (Pipeline.Make (FaceCacheMeshCreator.Make ∅ cubeHistory) k 0 [])).

(** ** Further notions: what the kernel gives for a face and for an edge *)

(** The outlines the kernel gives for an edge: those of its mesh, none when
    the task is rejected. *)
Definition outlines (k : Kernel) (stepData : StepData) (formNote : FormNote)
    (outlinesOnly : bool) (edge : CurveEdge) : list EdgeBuffer :=
  match result (CalculateMesh_async k edge stepData formNote) with
  | Fulfilled mesh => Mesh.GetEdges mesh outlinesOnly
  | Rejected _ => []
  end.

(** The first outline of a numbered edge, with the number and the edge. *)
Definition firstOutline (k : Kernel) (stepData : StepData) (formNote : FormNote)
    (outlinesOnly : bool) (x : nat * CurveEdge) : option EdgeBuffer :=
  (λ polygon, {| eb_position := eb_position polygon; eb_i := x.1; eb_model := Some x.2 |})
    <$> head (outlines k stepData formNote outlinesOnly x.2).

(** The kernel calls of one face that is computed: its grid, then the meshes
    of its edges. *)
Definition faceCalls (stepData : StepData) (formNote : FormNote) (c : nat)
    (x : nat * Face.t) : list stamped :=
  (c, CalculateGrid x.2 stepData (Quad formNote) (Fair formNote))
  :: meshCalls stepData formNote c (Face.GetEdges x.2).

(** The faces the loop computes, each with the value of [j] when the loop
    reaches it. *)
Fixpoint numbered (j : nat) (l : list (nat * Face.t)) : list (nat * Face.t * nat) :=
  match l with
  | [] => []
  | x :: l' => (x, j) :: numbered (j + length (Face.GetEdges x.2)) l'
  end.

(** The promises of the edges of a face computed when [j] is [y.2], and the
    effects of the [cacheFace] call for it. *)
Definition edgeTasksAt (k : Kernel) (stepData : StepData) (formNote : FormNote)
    (outlinesOnly : bool) (c : nat) (y : nat * Face.t * nat)
    : list (Promise.t (option EdgeBuffer)) :=
  faceEdgeTasks k stepData formNote outlinesOnly c y.2 (Face.GetEdges y.1.2).

Definition cacheFaceAt (this : FaceCacheMeshCreator.t) (k : Kernel) (stepData : StepData)
    (formNote : FormNote) (outlinesOnly : bool) (c : nat) (y : nat * Face.t * nat)
    : list stamped :=
  let id := FaceCacheMeshCreator.history this !! Face.Id y.1.2 in
  let isCacheable := negb (Face.GetOwnChanged y.1.2) && bool_decide (id ≠ None) in
  effs (run (FaceCacheMeshCreator.cacheFace id isCacheable
               (promised (ParallelMeshCreator.calculateFace k y.1.2 stepData formNote y.1.1) c)
               (edgeTasksAt k stepData formNote outlinesOnly c y)) c).

(** What holds, beside [loopInv], of the loop of [FaceCacheMeshCreator.create]:
    the promises of the edges, the kernel calls and the cache writes, face by
    face. *)
Record loopLayout (this : FaceCacheMeshCreator.t) (k : Kernel) (stepData : StepData)
    (formNote : FormNote) (outlinesOnly : bool) (c : nat)
    (done : list (nat * Face.t)) (st : FaceCacheMeshCreator.Loop)
    (es : list stamped) : Prop := LoopLayout {
  layout_j :
    FaceCacheMeshCreator.j st
      = sum_list_with (λ x, length (Face.GetEdges x.2)) (filter (isMiss this) done);
  layout_edgePromises :
    FaceCacheMeshCreator.edgePromises st
      = numbered 0 (filter (isMiss this) done)
          ≫= edgeTasksAt k stepData formNote outlinesOnly c;
  layout_kernelCalls :
    kernelCalls es = filter (isMiss this) done ≫= faceCalls stepData formNote c;
  layout_cacheWrites :
    FaceCacheMeshCreator.cacheWrites es
      = FaceCacheMeshCreator.cacheWrites
          (numbered 0 (filter (isMiss this) done)
             ≫= cacheFaceAt this k stepData formNote outlinesOnly c);
}.

(** [history.get(face.Id())]: the lineage id of a face, if the copier knows
    one. *)
Definition lineage (this : FaceCacheMeshCreator.t) (face : Face.t) : option Z :=
  FaceCacheMeshCreator.history this !! Face.Id face.

(** ** A caller of [create] *)

(** The pair a request is memoized under by the object cache: the precision
    key and the id of the object. *)
Definition requestKey (r : Request) : Sag * Z :=
  let '(obj, stepData, formNote, _) := r in
  (ObjectCacheMeshCreator.formAndPrecisionCacheKey stepData formNote, Item.Id obj).

(** A caller that makes [create] calls one after the other and keeps the
    promises it gets, awaiting none of them in between. *)
Fixpoint createAll {T} `{MeshCreator T} (this : T) (reqs : list Request)
    : T * list (Promise.t MeshLike) :=
  match reqs with
  | [] => (this, [])
  | (obj, stepData, formNote, outlinesOnly) :: reqs' =>
      let r := create this obj stepData formNote outlinesOnly in
      let rs := createAll r.1 reqs' in
      (rs.1, r.2 :: rs.2)
  end.

(** ** DoCacheMeshCreator *)

Module DoCacheMeshCreator.

(** The object has one field that changes, [cache], set while a session is
    open; [copier.faces] is what the face cache of a session is given as
    [history]; the fallback, a [ParallelMeshCreator], has no state.  As in
    [Pipeline.FaceCaching], the record also carries the kernel the calls go
    to, the tick of the next call and the effects performed so far, for calls
    made one after the other. *)
Record t := Make {
  cache : option (ObjectCacheMeshCreator.t Pipeline.FaceCaching);
  copier_faces : gmap Z Z;
  kernel : Kernel;
  now : nat;
  trace : list stamped;
}.

(** [const creator = this.cache ?? this.fallback; return creator.create(...)] *)
Definition create (this : t) (obj : Item.t) (stepData : StepData) (formNote : FormNote)
    (outlinesOnly : bool) : t * Promise.t MeshLike :=
  match cache this with
  | Some creator =>
      let '(creator', result) := create creator obj stepData formNote outlinesOnly in
      let u := ObjectCacheMeshCreator.underlying creator' in
      (Make (Some creator') (copier_faces this) (kernel this)
            (Pipeline.now u) (Pipeline.trace u), result)
  | None =>
      let r := run (ParallelMeshCreator.create (kernel this) obj stepData formNote
                      outlinesOnly) (now this) in
      (Make None (copier_faces this) (kernel this)
            (Pipeline.lastTick (clk r) (effs r)) (trace this ++ effs r),
       Settles (clk r) (out r))
  end.

(** The object once [caching] has run its first statement,
    [this.cache = new ObjectCacheMeshCreator(new FaceCacheMeshCreator(...))]. *)
Definition opened (this : t) : t :=
  Make (Some (ObjectCacheMeshCreator.Make ∅
                (Pipeline.Make (FaceCacheMeshCreator.Make ∅ (copier_faces this))
                               (kernel this) (now this) (trace this))))
       (copier_faces this) (kernel this) (now this) (trace this).

(** The [finally] block: [this.cache = undefined]. *)
Definition closed (this : t) : t :=
  Make None (copier_faces this) (kernel this) (now this) (trace this).

(** [caching(f)].  The callback works on the object, by [create] calls or
    otherwise, and is fulfilled or rejected; the [finally] block runs in both
    cases and the outcome of the callback is that of [caching]. *)
Definition caching (this : t) (f : t → t * outcome unit) : t * outcome unit :=
  let '(this', result) := f (opened this) in
  (closed this', result).

End DoCacheMeshCreator.

(** ** The value state machines of the gizmos, lines 518-542 *)

(** A JavaScript number: a binary64 floating-point number. *)
Definition number := spec_float.

Global Instance number_eq_dec : EqDecision number.
Proof. solve_decision. Defined.

Definition NEGATIVE_INFINITY : number := S754_infinity true.

(** [a + b] on numbers. *)
Definition plus (a b : number) : number := SFadd 53 1024 a b.

Module Math.
(** [Math.max(a, b)]: NaN when one of the two is, the larger otherwise, +0
    counting as larger than -0. *)
Definition max (a b : number) : number :=
  match a, b with
  | S754_nan, _ | _, S754_nan => S754_nan
  | S754_zero true, S754_zero false => S754_zero false
  | _, _ => if SFltb a b then b else a
  end.
End Math.

Module AbstractValueStateMachine.

Record t (T : Type) := Make { originalMagnitude : T; currentMagnitude : T }.
Global Arguments Make {T} originalMagnitude currentMagnitude.
Global Arguments originalMagnitude {T} _.
Global Arguments currentMagnitude {T} _.

(** The constructor: [this.currentMagnitude = originalMagnitude]. *)
Definition new {T} (originalMagnitude : T) : t T := Make originalMagnitude originalMagnitude.

Definition original {T} (this : t T) : T := originalMagnitude this.

(** [this.originalMagnitude = this.currentMagnitude = magnitude] *)
Definition set_original {T} (this : t T) (magnitude : T) : t T := Make magnitude magnitude.

Definition current {T} (this : t T) : T := currentMagnitude this.

Definition set_current {T} (this : t T) (magnitude : T) : t T :=
  Make (originalMagnitude this) magnitude.

Definition start {T} (this : t T) : t T := this.

(** [this.original = this.currentMagnitude] *)
Definition push {T} (this : t T) : t T := set_original this (currentMagnitude this).

(** [this.current = this.original] *)
Definition revert {T} (this : t T) : t T := set_current this (original this).

End AbstractValueStateMachine.

Module MagnitudeStateMachine.

(** The fields of the superclass, and [min]. *)
Record t := Make { super : AbstractValueStateMachine.t number; min : number }.

Definition new (originalMagnitude : number) : t :=
  Make (AbstractValueStateMachine.new originalMagnitude) NEGATIVE_INFINITY.

Definition set_min (this : t) (m : number) : t := Make (super this) m.

(** [get current() { return Math.max(super.current, this.min) }] *)
Definition current (this : t) : number :=
  Math.max (AbstractValueStateMachine.current (super this)) (min this).

(** [set current(magnitude) { super.current = magnitude }] *)
Definition set_current (this : t) (magnitude : number) : t :=
  Make (AbstractValueStateMachine.set_current (super this) magnitude) (min this).

(** Inherited as they are. *)
Definition original (this : t) : number := AbstractValueStateMachine.original (super this).

Definition set_original (this : t) (magnitude : number) : t :=
  Make (AbstractValueStateMachine.set_original (super this) magnitude) (min this).

Definition start (this : t) : t := this.

(** Inherited [push]: it reads the field [currentMagnitude], not the getter
    [current] the subclass overrides. *)
Definition push (this : t) : t :=
  set_original this (AbstractValueStateMachine.currentMagnitude (super this)).

(** Inherited [revert]: it goes through the accessors, of which the subclass
    overrides [current]. *)
Definition revert (this : t) : t := set_current this (original this).

End MagnitudeStateMachine.

(** ** AngleGizmo, lines 551-608 *)

(** A [CircularGizmo<number>] with a [MagnitudeStateMachine(0)].  Of the
    object the handlers below change [state] only; the meshes and materials
    are display.  A handler that calls [cb] gives the number it calls it
    with. *)
Module AngleGizmo.

Record t := Make { state : MagnitudeStateMachine.t }.

Definition new : t := Make (MagnitudeStateMachine.new (S754_zero false)).

(** [get value() { return this.state.current }] *)
Definition value (this : t) : number := MagnitudeStateMachine.current (state this).

(** [set value(m) { this.state.original = m }] *)
Definition set_value (this : t) (m : number) : t :=
  Make (MagnitudeStateMachine.set_original (state this) m).

(** [this.state.revert(); cb(this.state.current)] *)
Definition onInterrupt (this : t) : t * number :=
  let state := MagnitudeStateMachine.revert (state this) in
  (Make state, MagnitudeStateMachine.current state).

(** Overridden by [AngleGizmo] with an empty body. *)
Definition onPointerDown (this : t) : t := this.

(** [this.state.push()] *)
Definition onPointerUp (this : t) : t := Make (MagnitudeStateMachine.push (state this)).

(** [const angle = info.angle + this.state.original;
     this.state.current = angle; cb(this.state.current)] *)
Definition onPointerMove (this : t) (info_angle : number) : t * number :=
  let angle := plus info_angle (MagnitudeStateMachine.original (state this)) in
  let state := MagnitudeStateMachine.set_current (state this) angle in
  (Make state, MagnitudeStateMachine.current state).

End AngleGizmo.

(** ** PlasticityDocument, lines 283-439 *)

(** The parts of three.js the document reads and writes: colors, vectors and
    quaternions with [toArray] and [fromArray]. *)
Module THREE.

Record Color := MkColor { r : number; g : number; b : number }.
Record Vector3 := MkVector3 { v_x : number; v_y : number; v_z : number }.
Record Quaternion := MkQuaternion { q_x : number; q_y : number; q_z : number; q_w : number }.

Definition Color_toArray (c : Color) : number * number * number := (r c, g c, b c).
Definition Color_fromArray (a : number * number * number) : Color :=
  MkColor a.1.1 a.1.2 a.2.
Definition Vector3_toArray (v : Vector3) : number * number * number := (v_x v, v_y v, v_z v).
Definition Quaternion_toArray (q : Quaternion) : number * number * number * number :=
  (q_x q, q_y q, q_z q, q_w q).

(** The properties of a [MeshPhysicalMaterial] the document saves. *)
Record MeshPhysicalMaterial := {
  color : Color;
  opacity : number;
  metalness : number;
  roughness : number;
  emissive : Color;
  clearcoat : number;
  clearcoatRoughness : number;
  ior : number;
  sheenColor : Color;
  sheenRoughness : number;
  specularIntensity : number;
  specularColor : Color;
  transmission : number;
}.

(** The object [load] passes to [new THREE.MeshPhysicalMaterial(...)]; a
    property is [None] when it is [undefined]. *)
Record MeshPhysicalMaterialParameters := {
  p_color : Color;
  p_opacity : number;
  p_metalness : number;
  p_roughness : number;
  p_clearcoat : option number;
  p_clearcoatRoughness : option number;
  p_ior : option number;
  p_sheenColor : option Color;
  p_sheenRoughness : option number;
  p_specularIntensity : option number;
  p_specularColor : option Color;
  p_transmission : option number;
  p_emissive : option number;
}.

End THREE.

Module PlasticityDocument.

Inductive CameraType := perspective | orthographic.

(** The mementos, with the fields [serialize] reads. *)
Record CameraMemento := {
  mode : CameraType;
  position : THREE.Vector3;
  quaternion : THREE.Quaternion;
  zoom : number;
}.

Record ConstructionPlaneMemento := { n : THREE.Vector3; o : THREE.Vector3 }.

Record ViewportMemento := {
  camera : CameraMemento;
  target : THREE.Vector3;
  isXRay : bool;
  constructionPlane : ConstructionPlaneMemento;
}.

(** A [c3d.SimpleName] and the id of a material are numbers used as [Map]
    keys; the model carries them as integers. *)
Record View := { simpleName : Z }.

(** [geometryModel] holds the values of the [Map], in its order. *)
Record GeometryMemento := {
  geometryModel : list View;
  automatics : gset Z;
  version2name : gmap Z Z;
}.

Record NodeMemento := { name2material : gmap Z Z }.

(** [materials] is a [Map], which keeps the order of insertion: the list of
    its entries. *)
Record MaterialMemento := {
  materials : list (Z * (string * THREE.MeshPhysicalMaterial));
}.

Record EditorMemento := {
  db : GeometryMemento;
  nodes : NodeMemento;
  m_materials : MaterialMemento;
}.

(** The JSON document. *)
Record ViewportCameraJSON := {
  j_type : CameraType;
  j_translation : number * number * number;
  j_rotation : number * number * number * number;
  j_zoom : number;
}.

Record ConstructionPlaneJSON := {
  j_normal : number * number * number;
  j_plane_translation : number * number * number;
}.

Record ViewportJSON := {
  j_camera : ViewportCameraJSON;
  j_target : number * number * number;
  j_constructionPlane : ConstructionPlaneJSON;
  j_isXRay : bool;
}.

Record ItemJSON := { material : option nat }.

(** [emmissiveFactor] is the key [serialize] writes; [emissiveFactor] is the
    key of the interface, which [load] reads. *)
Record PbrMetallicRoughness := {
  baseColorFactor : number * number * number * number;
  metallicFactor : number;
  roughnessFactor : number;
}.

Record MaterialJSON := {
  name : string;
  pbrMetallicRoughness : PbrMetallicRoughness;
  clearcoatFactor : option number;
  clearcoatRoughnessFactor : option number;
  j_ior : option number;
  sheenColorFactor : option (number * number * number);
  sheenRoughnessFactor : option number;
  specularFactor : option number;
  specularColorFactor : option (number * number * number);
  transmissionFactor : option number;
  emissiveFactor : option number;
  emmissiveFactor : option THREE.Color;
}.

Record PlasticityJSON := {
  asset_version : number;
  db_uri : string;
  viewports : list ViewportJSON;
  materials_json : list MaterialJSON;
  items : list ItemJSON;
}.

(** [let i = 0; for (const id of ...keys()) materialId2position.set(id, i++)] *)
Definition materialId2position (keys : list Z) : gmap Z nat :=
  (foldl (λ acc id, (<[id := acc.2]> acc.1, S acc.2)) (∅, 0) keys).1.

(** The callback of [flatMap] in [items]. *)
Definition itemOf (db : GeometryMemento) (nodes : NodeMemento) (positions : gmap Z nat)
    (view : View) : list ItemJSON :=
  if decide (simpleName view ∈ automatics db) then []
  else
    let materialId := version2name db !! simpleName view ≫= (name2material nodes !!.) in
    let material := materialId ≫= (positions !!.) in
    [ {| material := material |} ].

(** The callback of [map] in [materials]. *)
Definition materialOf (mat : string * THREE.MeshPhysicalMaterial) : MaterialJSON :=
  let '(name, material) := mat in
  {| name := name;
     pbrMetallicRoughness :=
       {| baseColorFactor :=
            let c := THREE.Color_toArray (THREE.color material) in
            (c.1.1, c.1.2, c.2, THREE.opacity material);
          metallicFactor := THREE.metalness material;
          roughnessFactor := THREE.roughness material |};
     emmissiveFactor := Some (THREE.emissive material);
     clearcoatFactor := Some (THREE.clearcoat material);
     clearcoatRoughnessFactor := Some (THREE.clearcoatRoughness material);
     j_ior := Some (THREE.ior material);
     sheenColorFactor := Some (THREE.Color_toArray (THREE.sheenColor material));
     sheenRoughnessFactor := Some (THREE.sheenRoughness material);
     specularFactor := Some (THREE.specularIntensity material);
     specularColorFactor := Some (THREE.Color_toArray (THREE.specularColor material));
     transmissionFactor := Some (THREE.transmission material);
     emissiveFactor := None |}.

Definition viewportOf (viewport : ViewportMemento) : ViewportJSON :=
  {| j_camera :=
       {| j_type := mode (camera viewport);
          j_translation := THREE.Vector3_toArray (position (camera viewport));
          j_rotation := THREE.Quaternion_toArray (quaternion (camera viewport));
          j_zoom := zoom (camera viewport) |};
     j_target := THREE.Vector3_toArray (target viewport);
     j_constructionPlane :=
       {| j_normal := THREE.Vector3_toArray (n (constructionPlane viewport));
          j_plane_translation := THREE.Vector3_toArray (o (constructionPlane viewport)) |};
     j_isXRay := isXRay viewport |}.

(** The [json] that [serialize] builds from the memento of the editor and the
    mementos of its viewports. *)
Definition serialize (filename : string) (memento : EditorMemento)
    (viewports : list ViewportMemento) : PlasticityJSON :=
  let c3dFilename := (filename ++ ".c3d")%string in
  let materialId2position := materialId2position (materials (m_materials memento)).*1 in
  {| asset_version := S754_finite false 4503599627370496 (-52);
     db_uri := c3dFilename;
     viewports := viewportOf <$> viewports;
     items := geometryModel (db memento)
                ≫= itemOf (db memento) (nodes memento) materialId2position;
     materials_json := materialOf <$> (materials (m_materials memento)).*2 |}.

(** The second loop of [load]: the entries it puts in the [Map] of materials,
    each with the object it constructs the material from. *)
Definition loadMaterial (mat : MaterialJSON) : string * THREE.MeshPhysicalMaterialParameters :=
  let name := name mat in
  let base := baseColorFactor (pbrMetallicRoughness mat) in
  (name,
   {| THREE.p_color := THREE.Color_fromArray (base.1.1.1, base.1.1.2, base.1.2);
      THREE.p_opacity := base.2;
      THREE.p_metalness := metallicFactor (pbrMetallicRoughness mat);
      THREE.p_roughness := roughnessFactor (pbrMetallicRoughness mat);
      THREE.p_clearcoat := clearcoatFactor mat;
      THREE.p_clearcoatRoughness := clearcoatRoughnessFactor mat;
      THREE.p_ior := j_ior mat;
      THREE.p_sheenColor := THREE.Color_fromArray <$> sheenColorFactor mat;
      THREE.p_sheenRoughness := sheenRoughnessFactor mat;
      THREE.p_specularIntensity := specularFactor mat;
      THREE.p_specularColor := THREE.Color_fromArray <$> specularColorFactor mat;
      THREE.p_transmission := transmissionFactor mat;
      THREE.p_emissive := emissiveFactor mat |}).

Definition loadMaterials (json : PlasticityJSON)
    : list (nat * (string * THREE.MeshPhysicalMaterialParameters)) :=
  entries (loadMaterial <$> materials_json json).

End PlasticityDocument.

(** ** Properties of promises and of the monad *)

Section promise_all.
Context {A : Type}.
Implicit Types (ps : list (Promise.t A)) (p : Promise.t A).

Lemma all_fulfilled_values ps l :
  result (Promise.all ps) = Fulfilled l →
  Forall2 (λ p a, result p = Fulfilled a) ps l.
Proof.
  revert l. induction ps as [|p ps IH]; intros l; simpl.
  - intros [= <-]. constructor.
  - destruct (result p) eqn:Hp, (result (Promise.all ps)) eqn:Hr; simpl;
      try (case_match; simpl); try discriminate.
    intros [= <-]. constructor; [done | by apply IH].
Qed.

Lemma all_fulfilled_tick ps l p :
  result (Promise.all ps) = Fulfilled l → p ∈ ps →
  at_tick p ≤ at_tick (Promise.all ps).
Proof.
  revert l. induction ps as [|q ps IH]; intros l; simpl.
  - intros _ Hin. by apply elem_of_nil in Hin.
  - destruct (result q) eqn:Hq, (result (Promise.all ps)) eqn:Hr; simpl;
      try (case_match; simpl); try discriminate.
    intros _ [->|Hin]%elem_of_cons; simpl; [lia|].
    specialize (IH _ eq_refl Hin). lia.
Qed.

Lemma all_fulfilled_each ps l p :
  result (Promise.all ps) = Fulfilled l → p ∈ ps → ∃ a, result p = Fulfilled a.
Proof.
  intros Hall%all_fulfilled_values [n Hn]%list_elem_of_lookup.
  destruct (Forall2_lookup_l _ _ _ _ _ Hall Hn) as (a & _ & Ha). eauto.
Qed.

Lemma all_rejected_reason ps e :
  result (Promise.all ps) = Rejected e →
  ∃ p, p ∈ ps ∧ result p = Rejected e ∧ at_tick p = at_tick (Promise.all ps).
Proof.
  induction ps as [|q ps IH]; simpl; [done|].
  destruct (result q) eqn:Hq, (result (Promise.all ps)) eqn:Hr; simpl;
    try (case_match; simpl); try discriminate; intros [= <-].
  - destruct (IH eq_refl) as (p & ? & ? & ?). exists p. rewrite elem_of_cons. auto.
  - exists q. rewrite elem_of_cons. auto.
  - exists q. rewrite elem_of_cons. auto.
  - destruct (IH eq_refl) as (p & ? & ? & ?). exists p. rewrite elem_of_cons. auto.
Qed.

(** The promise [Promise.all] gives is rejected no later than any rejected
    promise of the array. *)
Lemma all_rejected_first ps p e :
  p ∈ ps → result p = Rejected e →
  ∃ e', result (Promise.all ps) = Rejected e' ∧ at_tick (Promise.all ps) ≤ at_tick p.
Proof.
  induction ps as [|q ps IH]; simpl; [by intros ?%elem_of_nil|].
  intros [->|Hin]%elem_of_cons Hp.
  - rewrite Hp. destruct (result (Promise.all ps)); simpl; [eauto|].
    case_match; simpl; [eauto|]. eexists; split; [done|].
    apply Nat.leb_gt in H. lia.
  - destruct (IH Hin Hp) as (e' & He' & Hle). rewrite He'.
    destruct (result q); simpl; [eauto|].
    case_match; simpl; eexists; (split; [done|]); [|done].
    apply Nat.leb_le in H. lia.
Qed.

End promise_all.

Section monad.
Context {A B : Type}.

Lemma run_bind {A' B'} (m : M A') (k : A' → M B') c :
  run (m ≫= k) c =
    match out (run m c) with
    | Fulfilled a =>
        MkRes (effs (run m c) ++ effs (run (k a) (clk (run m c))))
              (clk (run (k a) (clk (run m c)))) (out (run (k a) (clk (run m c))))
    | Rejected e => MkRes (effs (run m c)) (clk (run m c)) (Rejected e)
    end.
Proof. reflexivity. Qed.

Lemma run_mret {T} (a : T) c : run (mret a) c = MkRes [] c (Fulfilled a).
Proof. reflexivity. Qed.

Lemma run_await {T} (p : Promise.t T) c :
  run (await p) c = MkRes [] (c `max` at_tick p) (result p).
Proof. reflexivity. Qed.

Lemma run_call {T} (m : M T) c :
  run (call m) c = MkRes (effs (run m c)) c (Fulfilled (promised m c)).
Proof. reflexivity. Qed.

Lemma run_mapM_call {I} (f : I → A → M B) (l : list (I * A)) c :
  run (mapM (λ '(i, x), call (f i x)) l) c =
    MkRes (l ≫= λ '(i, x), effs (run (f i x) c)) c
          (Fulfilled ((λ '(i, x), promised (f i x) c) <$> l)).
Proof.
  induction l as [|[i x] l IH]; [done|].
  change (mapM _ ((i, x) :: l)) with
    (y ← call (f i x) ; k ← mapM (λ '(i, x), call (f i x)) l ; mret (y :: k)).
  rewrite run_bind, run_call. cbn [effs clk out].
  rewrite run_bind, IH. cbn [effs clk out].
  by rewrite app_nil_r.
Qed.

Lemma entries_snd (l : list A) : (entries l).*2 = l.
Proof.
  unfold entries. rewrite fmap_imap.
  rewrite (imap_ext _ (const id)) by done. by rewrite imap_const, list_fmap_id.
Qed.

Lemma entries_lookup (l : list A) i x : (i, x) ∈ entries l ↔ l !! i = Some x.
Proof.
  unfold entries. rewrite elem_of_lookup_imap. split.
  - by intros (i' & x' & [= -> ->] & ?).
  - eauto.
Qed.

End monad.

Lemma run_perform e c : run (perform e) c = MkRes [(c, e)] c (Fulfilled ()).
Proof. reflexivity. Qed.

Ltac list_norm := cbn [app]; rewrite <-?app_assoc, ?app_nil_r; cbn [app].

(** Running a body one statement at a time. *)
Ltac run_step :=
  repeat (rewrite ?run_bind, ?run_perform, ?run_await, ?run_mret, ?run_call, ?run_mapM_call;
          cbn [effs clk out]).

(** ** ParallelMeshCreator: one face, one edge *)

Section tasks.
Context (k : Kernel) (stepData : StepData) (formNote : FormNote) (outlinesOnly : bool).

Lemma effs_calculateFace face i c :
  effs (run (ParallelMeshCreator.calculateFace k face stepData formNote i) c) =
    [(c, CalculateGrid face stepData (Quad formNote) (Fair formNote))].
Proof.
  unfold ParallelMeshCreator.calculateFace. simpl.
  by destruct (result (CalculateGrid_async _ _ _ _ _)).
Qed.

Lemma effs_calculateEdge edge i c :
  effs (run (ParallelMeshCreator.calculateEdge k edge stepData formNote outlinesOnly i) c) =
    [(c, CalculateMesh edge stepData formNote)].
Proof.
  unfold ParallelMeshCreator.calculateEdge. simpl.
  destruct (result (CalculateMesh_async _ _ _ _)) as [mesh|]; simpl; [|done].
  by destruct (Mesh.GetEdges mesh outlinesOnly).
Qed.

Lemma clk_calculateFace face i c :
  clk (run (ParallelMeshCreator.calculateFace k face stepData formNote i) c) =
    c `max` at_tick (CalculateGrid_async k face stepData (Quad formNote) (Fair formNote)).
Proof.
  unfold ParallelMeshCreator.calculateFace. simpl.
  by destruct (result (CalculateGrid_async _ _ _ _ _)).
Qed.

Lemma clk_calculateEdge edge i c :
  clk (run (ParallelMeshCreator.calculateEdge k edge stepData formNote outlinesOnly i) c) =
    c `max` at_tick (CalculateMesh_async k edge stepData formNote).
Proof.
  unfold ParallelMeshCreator.calculateEdge. simpl.
  destruct (result (CalculateMesh_async _ _ _ _)) as [mesh|]; simpl; [|done].
  by destruct (Mesh.GetEdges mesh outlinesOnly).
Qed.

Lemma out_calculateFace_rejected face i c e :
  out (run (ParallelMeshCreator.calculateFace k face stepData formNote i) c) = Rejected e ↔
  result (CalculateGrid_async k face stepData (Quad formNote) (Fair formNote)) = Rejected e.
Proof.
  unfold ParallelMeshCreator.calculateFace. simpl.
  destruct (result (CalculateGrid_async _ _ _ _ _)); naive_solver.
Qed.

Lemma out_calculateEdge_rejected edge i c e :
  out (run (ParallelMeshCreator.calculateEdge k edge stepData formNote outlinesOnly i) c) = Rejected e ↔
  result (CalculateMesh_async k edge stepData formNote) = Rejected e.
Proof.
  unfold ParallelMeshCreator.calculateEdge. simpl.
  destruct (result (CalculateMesh_async _ _ _ _)) as [mesh|]; simpl; [|naive_solver].
  destruct (Mesh.GetEdges mesh outlinesOnly); naive_solver.
Qed.

Lemma out_calculateFace_fulfilled face i c mb :
  out (run (ParallelMeshCreator.calculateFace k face stepData formNote i) c) = Fulfilled mb →
  mb_model mb = Some face ∧ mb_i mb = i ∧
  (grid_stepData <$> mb_grid mb) = Some stepData ∧
  ∃ bufs, result (CalculateGrid_async k face stepData (Quad formNote) (Fair formNote)) = Fulfilled bufs
          ∧ mb_index mb = gb_index bufs ∧ mb_position mb = gb_position bufs
          ∧ mb_normal mb = gb_normal bufs.
Proof.
  unfold ParallelMeshCreator.calculateFace. simpl.
  destruct (result (CalculateGrid_async _ _ _ _ _)) as [bufs|]; simpl; [|done].
  intros [= <-]. simpl. eauto 10.
Qed.

End tasks.

(** ** ParallelMeshCreator.create on a solid *)

Section parallel.
Context (k : Kernel) (stepData : StepData) (formNote : FormNote) (outlinesOnly : bool).

Lemma faceTasks_effs c (l : list (nat * Face.t)) :
  (l ≫= λ '(i, face), effs (run (ParallelMeshCreator.calculateFace k face stepData formNote i) c))
  = gridCalls stepData formNote c l.*2.
Proof.
  unfold gridCalls. induction l as [|[i face] l IH]; [done|].
  by rewrite bind_cons, IH, effs_calculateFace.
Qed.

Lemma edgeTasks_effs c (l : list (nat * CurveEdge)) :
  (l ≫= λ '(i, edge), effs (run (ParallelMeshCreator.calculateEdge k edge stepData formNote
                                   outlinesOnly i) c))
  = meshCalls stepData formNote c l.*2.
Proof.
  unfold meshCalls. induction l as [|[i edge] l IH]; [done|].
  by rewrite bind_cons, IH, effs_calculateEdge.
Qed.

Lemma faceEdgeTasks_effs c j (l : list (nat * CurveEdge)) :
  (l ≫= λ '(n, edge), effs (run (ParallelMeshCreator.calculateEdge k edge stepData formNote
                                   outlinesOnly (j + n)) c))
  = meshCalls stepData formNote c l.*2.
Proof.
  unfold meshCalls. induction l as [|[i edge] l IH]; [done|].
  by rewrite bind_cons, IH, effs_calculateEdge.
Qed.

Lemma run_parallel_create solid c :
  run (ParallelMeshCreator.create k (Item.OfSolid solid) stepData formNote outlinesOnly) c =
    awaitBoth c
      ((c, EnterParallelRegion)
       :: gridCalls stepData formNote c (Solid.GetFaces solid)
       ++ meshCalls stepData formNote c (Solid.GetEdges solid))
      (faceTasks k stepData formNote c (entries (Solid.GetFaces solid)))
      (edgeTasks k stepData formNote outlinesOnly c (entries (Solid.GetEdges solid)))
      (λ faceResult edgeResult_, {| faces := faceResult; edges := defined edgeResult_ |}).
Proof.
  unfold ParallelMeshCreator.create, awaitBoth. run_step.
  rewrite faceTasks_effs, edgeTasks_effs, !entries_snd.
  fold (faceTasks k stepData formNote c (entries (Solid.GetFaces solid))).
  fold (edgeTasks k stepData formNote outlinesOnly c (entries (Solid.GetEdges solid))).
  destruct (result (Promise.all (faceTasks _ _ _ _ _))); run_step; [|by list_norm].
  destruct (result (Promise.all (edgeTasks _ _ _ _ _ _))); run_step; by list_norm.
Qed.

End parallel.

(** ** FaceCacheMeshCreator: one turn of the loop *)

Section visit.
Context (this : FaceCacheMeshCreator.t) (k : Kernel).
Context (stepData : StepData) (formNote : FormNote) (outlinesOnly : bool).

(** Nothing is ever added to [seenEdges]: the filter keeps every edge. *)
Lemma filter_seenEdges_empty (seenEdges : gset CurveEdge) (l : list CurveEdge) :
  seenEdges = ∅ → filter (λ e, e ∉ seenEdges) l = l.
Proof.
  intros ->. induction l as [|e l IH]; [done|].
  rewrite filter_cons_True by set_solver. by rewrite IH.
Qed.

Lemma run_cacheFace id isCacheable fp eps c :
  run (FaceCacheMeshCreator.cacheFace id isCacheable fp eps) c =
    if isCacheable then
      match result fp with
      | Rejected e => MkRes [] (c `max` at_tick fp) (Rejected e)
      | Fulfilled face =>
          let c1 := c `max` at_tick fp in
          match result (Promise.all eps) with
          | Rejected e => MkRes [] (c1 `max` at_tick (Promise.all eps)) (Rejected e)
          | Fulfilled edges_ =>
              let c2 := c1 `max` at_tick (Promise.all eps) in
              match id with
              | Some id => MkRes [(c2, FaceCacheSet id (face, defined edges_))] c2 (Fulfilled ())
              | None => MkRes [] c2 (Fulfilled ())
              end
          end
      end
    else MkRes [] c (Fulfilled ()).
Proof.
  unfold FaceCacheMeshCreator.cacheFace. destruct isCacheable; [|done].
  run_step. destruct (result fp); run_step; [|done].
  destruct (result (Promise.all eps)); run_step; [|done].
  by destruct id.
Qed.

Lemma run_visit_hit st i face entry c :
  cacheHit this face = Some entry →
  run (FaceCacheMeshCreator.visit this k stepData formNote outlinesOnly ∅ st (i, face)) c =
    MkRes [] c
      (Fulfilled (FaceCacheMeshCreator.MkLoop
         (FaceCacheMeshCreator.facePromises st) (FaceCacheMeshCreator.edgePromises st)
         (FaceCacheMeshCreator.cachedFaces st ++ [entry.1])
         (FaceCacheMeshCreator.cachedEdges st ++ entry.2)
         (FaceCacheMeshCreator.j st))).
Proof.
  unfold cacheHit, FaceCacheMeshCreator.visit.
  destruct (Face.GetOwnChanged face); [done|].
  destruct (FaceCacheMeshCreator.history this !! Face.Id face) as [id|]; [|done].
  simpl. intros ->. by destruct entry.
Qed.

Lemma run_visit_miss st i face c :
  cacheHit this face = None →
  let id := FaceCacheMeshCreator.history this !! Face.Id face in
  let isCacheable := negb (Face.GetOwnChanged face) && bool_decide (id ≠ None) in
  let facePromise := promised (ParallelMeshCreator.calculateFace k face stepData formNote i) c in
  let faceEdgePromises :=
    faceEdgeTasks k stepData formNote outlinesOnly c (FaceCacheMeshCreator.j st)
                  (Face.GetEdges face) in
  run (FaceCacheMeshCreator.visit this k stepData formNote outlinesOnly ∅ st (i, face)) c =
    MkRes ((c, CalculateGrid face stepData (Quad formNote) (Fair formNote))
           :: meshCalls stepData formNote c (Face.GetEdges face)
           ++ effs (run (FaceCacheMeshCreator.cacheFace id isCacheable facePromise
                           faceEdgePromises) c))
          c
      (Fulfilled (FaceCacheMeshCreator.MkLoop
         (FaceCacheMeshCreator.facePromises st ++ [facePromise])
         (FaceCacheMeshCreator.edgePromises st ++ faceEdgePromises)
         (FaceCacheMeshCreator.cachedFaces st) (FaceCacheMeshCreator.cachedEdges st)
         (FaceCacheMeshCreator.j st + length (Face.GetEdges face)))).
Proof.
  intros Hmiss. cbv zeta.
  unfold FaceCacheMeshCreator.visit, cacheHit in *.
  destruct (Face.GetOwnChanged face);
    destruct (FaceCacheMeshCreator.history this !! Face.Id face) as [lid|];
    simpl in Hmiss; rewrite ?Hmiss; cbv zeta; cbn [negb andb mbind option_bind];
    rewrite ?bool_decide_eq_true_2, ?bool_decide_eq_false_2 by naive_solver;
    cbn [negb andb]; rewrite ?Hmiss;
    rewrite (filter_seenEdges_empty ∅) by done; run_step;
    rewrite effs_calculateFace, faceEdgeTasks_effs, entries_snd;
    by list_norm.
Qed.

End visit.

(** ** FaceCacheMeshCreator: the loop over the faces *)

Lemma forEach_invariant {A S} (body : S → A → M S) (c : nat)
    (P : list A → S → list stamped → Prop) :
  (∀ done st es x, P done st es →
     ∃ st' es', run (body st x) c = MkRes es' c (Fulfilled st') ∧
                P (done ++ [x]) st' (es ++ es')) →
  ∀ l done st es, P done st es →
    ∃ st' es', run (FaceCacheMeshCreator.forEach body l st) c = MkRes es' c (Fulfilled st') ∧
               P (done ++ l) st' (es ++ es').
Proof.
  intros Hstep. induction l as [|x l IH]; intros done st es HP.
  - exists st, []. split; [done|]. by rewrite !app_nil_r.
  - destruct (Hstep done st es x HP) as (st1 & es1 & Hrun1 & HP1).
    destruct (IH _ _ _ HP1) as (st2 & es2 & Hrun2 & HP2).
    exists st2, (es1 ++ es2). split.
    + change (FaceCacheMeshCreator.forEach body (x :: l) st)
        with (body st x ≫= FaceCacheMeshCreator.forEach body l).
      rewrite run_bind, Hrun1. cbn [effs clk out]. by rewrite Hrun2.
    + by rewrite <-!app_assoc in HP2.
Qed.

Section loop.
Context (this : FaceCacheMeshCreator.t) (k : Kernel).
Context (stepData : StepData) (formNote : FormNote) (outlinesOnly : bool) (c : nat).

Abbreviation accounted := (accounted this k stepData formNote outlinesOnly c).
Abbreviation faceTaskOf := (faceTaskOf this k stepData formNote c).
Abbreviation edgeTaskOf := (edgeTaskOf this k stepData formNote outlinesOnly c).
Abbreviation computed := (computed this stepData formNote c).
Abbreviation loopInv := (loopInv this k stepData formNote outlinesOnly c).
Abbreviation written := (written this k stepData formNote outlinesOnly c).

Lemma accounted_mono done done' st st' se :
  done ⊆ done' →
  FaceCacheMeshCreator.facePromises st ⊆ FaceCacheMeshCreator.facePromises st' →
  FaceCacheMeshCreator.edgePromises st ⊆ FaceCacheMeshCreator.edgePromises st' →
  accounted done st se → accounted done' st' se.
Proof.
  intros Hd Hf He. unfold accounted. destruct se as [t []]; simpl; try done.
  - intros (? & ? & ? & ? & i & ? & ? & ?). repeat split; try done. exists i. auto.
  - intros (? & ? & ? & i & face' & n & ? & ? & ? & ?). repeat split; try done.
    exists i, face', n. auto.
  - intros (i & face' & ? & ?). exists i, face'. auto.
Qed.

Lemma faceTaskOf_mono done done' es es' p :
  done ⊆ done' → es ⊆ es' → faceTaskOf done es p → faceTaskOf done' es' p.
Proof. intros Hd He (i & face & ? & ? & ? & ?). exists i, face. auto. Qed.

Lemma edgeTaskOf_mono done done' es es' p :
  done ⊆ done' → es ⊆ es' → edgeTaskOf done es p → edgeTaskOf done' es' p.
Proof.
  intros Hd He (i & face & edge & n & ? & ? & ? & ? & ?). exists i, face, edge, n. auto 10.
Qed.

Lemma computed_mono es es' x : es ⊆ es' → computed es x → computed es' x.
Proof. intros He Hc Hmiss. destruct (Hc Hmiss) as [? Hedges]. split; auto. Qed.

Lemma elem_of_faceEdgeTasks j l edge :
  edge ∈ l →
  ∃ n, promised (ParallelMeshCreator.calculateEdge k edge stepData formNote outlinesOnly n) c
         ∈ faceEdgeTasks k stepData formNote outlinesOnly c j l.
Proof.
  intros [n Hn]%list_elem_of_lookup. exists (j + n). unfold faceEdgeTasks.
  apply list_elem_of_fmap. exists (n, edge). split; [done|]. by apply entries_lookup.
Qed.

Lemma faceEdgeTasks_elem_of j l p :
  p ∈ faceEdgeTasks k stepData formNote outlinesOnly c j l →
  ∃ edge n, edge ∈ l ∧
    p = promised (ParallelMeshCreator.calculateEdge k edge stepData formNote outlinesOnly n) c.
Proof.
  unfold faceEdgeTasks. intros ([n edge] & -> & Hin)%list_elem_of_fmap.
  apply entries_lookup in Hin. exists edge, (j + n). split; [|done].
  apply list_elem_of_lookup. eauto.
Qed.

Lemma calculateEdge_fulfilled edge n v :
  result (promised (ParallelMeshCreator.calculateEdge k edge stepData formNote outlinesOnly n) c)
    = Fulfilled v →
  ∃ mesh, result (CalculateMesh_async k edge stepData formNote) = Fulfilled mesh.
Proof.
  unfold promised, ParallelMeshCreator.calculateEdge. cbn [result]. run_step.
  destruct (result (CalculateMesh_async _ _ _ _)); [eauto|done].
Qed.

Lemma visit_hit_loopInv done st es i face entry :
  cacheHit this face = Some entry →
  loopInv done st es →
  loopInv (done ++ [(i, face)])
    (FaceCacheMeshCreator.MkLoop
       (FaceCacheMeshCreator.facePromises st) (FaceCacheMeshCreator.edgePromises st)
       (FaceCacheMeshCreator.cachedFaces st ++ [entry.1])
       (FaceCacheMeshCreator.cachedEdges st ++ entry.2)
       (FaceCacheMeshCreator.j st))
    es.
Proof.
  intros Hhit [].
  assert (done ⊆ done ++ [(i, face)]) as Hsub by (intros x; rewrite elem_of_app; auto).
  split; cbn [FaceCacheMeshCreator.facePromises FaceCacheMeshCreator.edgePromises
              FaceCacheMeshCreator.cachedFaces FaceCacheMeshCreator.cachedEdges].
  - rewrite omap_app. simpl. rewrite Hhit. simpl. congruence.
  - rewrite omap_app, bind_app. simpl. rewrite Hhit. csimpl.
    rewrite app_nil_r. congruence.
  - rewrite filter_app, filter_cons_False, filter_nil, app_nil_r; [done|].
    unfold isMiss. cbn. by rewrite Hhit.
  - rewrite filter_app, filter_cons_False, filter_nil, app_nil_r; [done|].
    unfold isMiss. cbn. by rewrite Hhit.
  - eapply Forall_impl; [done|]. intros se. by apply accounted_mono.
  - eapply Forall_impl; [done|]. intros p. by apply faceTaskOf_mono.
  - eapply Forall_impl; [done|]. intros p. by apply edgeTaskOf_mono.
  - apply Forall_app. split; [done|]. apply Forall_singleton.
    intros Hmiss. cbn in Hmiss. congruence.
Qed.

Lemma cacheFace_written st i face se :
  cacheHit this face = None →
  let id := FaceCacheMeshCreator.history this !! Face.Id face in
  let isCacheable := negb (Face.GetOwnChanged face) && bool_decide (id ≠ None) in
  let facePromise := promised (ParallelMeshCreator.calculateFace k face stepData formNote i) c in
  let faceEdgePromises :=
    faceEdgeTasks k stepData formNote outlinesOnly c (FaceCacheMeshCreator.j st)
                  (Face.GetEdges face) in
  se ∈ effs (run (FaceCacheMeshCreator.cacheFace id isCacheable facePromise
                    faceEdgePromises) c) →
  ∃ lid entry, se.2 = FaceCacheSet lid entry ∧ written i face se.1 lid entry.
Proof.
  intros Hmiss id isCacheable fp eps. rewrite run_cacheFace.
  destruct isCacheable eqn:HisC; [|by intros ?%elem_of_nil].
  apply andb_true_iff in HisC as [Hch%negb_true_iff Hid%bool_decide_eq_true].
  destruct (result fp) as [mb|] eqn:Hfp; [|by intros ?%elem_of_nil].
  destruct (result (Promise.all eps)) as [edges_|] eqn:Heps; [|by intros ?%elem_of_nil].
  cbv zeta. destruct id as [lid|] eqn:Hlid; [|done].
  intros ->%list_elem_of_singleton. exists lid, (mb, defined edges_). split; [done|].
  unfold cacheHit in Hmiss. rewrite Hch in Hmiss. fold id in Hmiss. rewrite Hlid in Hmiss.
  cbn [fst snd].
  assert (at_tick fp =
          c `max` at_tick (CalculateGrid_async k face stepData (Quad formNote) (Fair formNote)))
    as Hfptick by apply clk_calculateFace.
  repeat split; try done.
  - lia.
  - pose proof (elem_of_faceEdgeTasks (FaceCacheMeshCreator.j st) _ _ H) as [n Hn].
    fold eps in Hn. pose proof (all_fulfilled_tick _ _ _ Heps Hn) as Hle.
    unfold promised in Hle at 1. cbn [at_tick] in Hle. rewrite clk_calculateEdge in Hle. lia.
  - pose proof (elem_of_faceEdgeTasks (FaceCacheMeshCreator.j st) _ _ H) as [n Hn].
    fold eps in Hn. destruct (all_fulfilled_each _ _ _ Heps Hn) as [v Hv].
    by apply calculateEdge_fulfilled in Hv.
  - exists (FaceCacheMeshCreator.j st), edges_. split; [|done]. by apply all_fulfilled_values.
Qed.

Lemma elem_of_meshCalls se l :
  se ∈ meshCalls stepData formNote c l ↔
  ∃ edge, se = (c, CalculateMesh edge stepData formNote) ∧ edge ∈ l.
Proof. unfold meshCalls. by rewrite list_elem_of_fmap. Qed.

Lemma length_faceEdgeTasks j l :
  length (faceEdgeTasks k stepData formNote outlinesOnly c j l) = length l.
Proof. unfold faceEdgeTasks, entries. by rewrite length_fmap, length_imap. Qed.

Lemma visit_miss_loopInv done st es i face :
  cacheHit this face = None →
  loopInv done st es →
  let id := FaceCacheMeshCreator.history this !! Face.Id face in
  let isCacheable := negb (Face.GetOwnChanged face) && bool_decide (id ≠ None) in
  let facePromise := promised (ParallelMeshCreator.calculateFace k face stepData formNote i) c in
  let faceEdgePromises :=
    faceEdgeTasks k stepData formNote outlinesOnly c (FaceCacheMeshCreator.j st)
                  (Face.GetEdges face) in
  loopInv (done ++ [(i, face)])
    (FaceCacheMeshCreator.MkLoop
       (FaceCacheMeshCreator.facePromises st ++ [facePromise])
       (FaceCacheMeshCreator.edgePromises st ++ faceEdgePromises)
       (FaceCacheMeshCreator.cachedFaces st) (FaceCacheMeshCreator.cachedEdges st)
       (FaceCacheMeshCreator.j st + length (Face.GetEdges face)))
    (es ++ (c, CalculateGrid face stepData (Quad formNote) (Fair formNote))
           :: meshCalls stepData formNote c (Face.GetEdges face)
           ++ effs (run (FaceCacheMeshCreator.cacheFace id isCacheable facePromise
                           faceEdgePromises) c)).
Proof.
  intros Hmiss [] id isCacheable fp eps.
  set (st' := FaceCacheMeshCreator.MkLoop _ _ _ _ _).
  set (new := _ :: _ ++ _).
  assert (done ⊆ done ++ [(i, face)]) as Hsub by (intros x; rewrite elem_of_app; auto).
  assert (es ⊆ es ++ new) as Hes by (intros x; rewrite elem_of_app; auto).
  assert ((i, face) ∈ done ++ [(i, face)]) as Hin
    by (rewrite elem_of_app, list_elem_of_singleton; auto).
  assert ((c, CalculateGrid face stepData (Quad formNote) (Fair formNote)) ∈ es ++ new)
    as Hgrid by (subst new; rewrite elem_of_app, elem_of_cons; auto).
  assert (∀ edge, edge ∈ Face.GetEdges face →
            (c, CalculateMesh edge stepData formNote) ∈ es ++ new) as Hmesh.
  { intros edge Hedge. subst new. rewrite elem_of_app, elem_of_cons, elem_of_app.
    right. right. left. apply elem_of_meshCalls. eauto. }
  assert (isMiss this (i, face)) as HisMiss by done.
  split; cbn [FaceCacheMeshCreator.facePromises FaceCacheMeshCreator.edgePromises
              FaceCacheMeshCreator.cachedFaces FaceCacheMeshCreator.cachedEdges st'].
  - rewrite omap_app. simpl. rewrite Hmiss. simpl. by rewrite app_nil_r.
  - rewrite omap_app, bind_app. simpl. rewrite Hmiss. csimpl. by rewrite app_nil_r.
  - rewrite filter_app, filter_cons_True, filter_nil by done.
    unfold faceTasks. rewrite fmap_app. by f_equal.
  - rewrite filter_app, filter_cons_True, filter_nil by done.
    subst eps. rewrite length_app, sum_list_with_app, length_faceEdgeTasks. simpl. lia.
  - apply Forall_app. split.
    { eapply Forall_impl; [done|]. intros se.
      apply accounted_mono; [done|..]; intros x; subst st'; simpl; rewrite elem_of_app; auto. }
    subst new. apply Forall_cons. split; [|apply Forall_app; split].
    + unfold accounted. cbn. repeat split; try done. exists i.
      repeat split; try done. rewrite elem_of_app, list_elem_of_singleton. auto.
    + apply Forall_forall. intros se (edge & -> & Hedge)%elem_of_meshCalls.
      unfold accounted. cbn. repeat split; try done.
      destruct (elem_of_faceEdgeTasks (FaceCacheMeshCreator.j st) _ _ Hedge) as [n Hn].
      exists i, face, n. repeat split; try done. rewrite elem_of_app. auto.
    + apply Forall_forall. intros se Hse.
      destruct (cacheFace_written st i face se Hmiss Hse) as (lid & entry & Hse2 & Hw).
      unfold accounted. rewrite Hse2. eauto.
  - apply Forall_app. split.
    { eapply Forall_impl; [done|]. intros p. by apply faceTaskOf_mono. }
    apply Forall_singleton. exists i, face. auto.
  - apply Forall_app. split.
    { eapply Forall_impl; [done|]. intros p. by apply edgeTaskOf_mono. }
    apply Forall_forall. intros p (edge & n & Hedge & ->)%faceEdgeTasks_elem_of.
    exists i, face, edge, n. auto 10.
  - apply Forall_app. split.
    { eapply Forall_impl; [done|]. intros x. by apply computed_mono. }
    apply Forall_singleton. intros _. cbn. auto.
Qed.

Lemma loopInv_nil :
  loopInv [] (FaceCacheMeshCreator.MkLoop [] [] [] [] 0) [].
Proof. by split. Qed.

Lemma loopRun_loopInv faces :
  ∃ st es, loopRun this k stepData formNote outlinesOnly c faces = MkRes es c (Fulfilled st) ∧
           loopInv (entries faces) st es.
Proof.
  unfold loopRun.
  destruct (forEach_invariant
              (FaceCacheMeshCreator.visit this k stepData formNote outlinesOnly ∅) c loopInv)
    with (l := entries faces) (done := @nil (nat * Face.t))
         (st := FaceCacheMeshCreator.MkLoop [] [] [] [] 0) (es := @nil stamped)
    as (st & es & Hrun & Hinv); [|apply loopInv_nil|by eauto].
  intros done st es [i face] Hinv.
  destruct (cacheHit this face) as [entry|] eqn:Hhit.
  - eexists _, []. split; [by apply run_visit_hit|].
    rewrite app_nil_r. by apply visit_hit_loopInv.
  - eexists _, _. split; [by apply run_visit_miss|].
    by apply visit_miss_loopInv.
Qed.

Lemma run_faceCache_create solid st es :
  loopRun this k stepData formNote outlinesOnly c (Solid.GetFaces solid)
    = MkRes es c (Fulfilled st) →
  run (FaceCacheMeshCreator.create this k (Item.OfSolid solid) stepData formNote outlinesOnly) c =
    awaitBoth c ((c, EnterParallelRegion) :: es)
      (FaceCacheMeshCreator.facePromises st) (FaceCacheMeshCreator.edgePromises st)
      (λ computed edges_,
         {| faces := FaceCacheMeshCreator.cachedFaces st ++ computed;
            edges := FaceCacheMeshCreator.cachedEdges st ++ defined edges_ |}).
Proof.
  intros Hloop. unfold loopRun in Hloop.
  unfold FaceCacheMeshCreator.create, awaitBoth. cbv zeta. run_step. rewrite Hloop. run_step.
  destruct (result (Promise.all (FaceCacheMeshCreator.facePromises st))); run_step;
    [|by list_norm].
  destruct (result (Promise.all (FaceCacheMeshCreator.edgePromises st))); run_step;
    by list_norm.
Qed.

End loop.

(** ** ObjectCacheMeshCreator *)

Section object_cache.
Context {U : Type} `{MeshCreator U}.
Implicit Types this : ObjectCacheMeshCreator.t U.

Lemma objectCache_hit this obj stepData formNote outlinesOnly memoized :
  ObjectCacheMeshCreator.cached this (GetSag stepData) (Item.Id obj) = Some memoized →
  ObjectCacheMeshCreator.create this obj stepData formNote outlinesOnly = (this, memoized).
Proof.
  unfold ObjectCacheMeshCreator.cached, ObjectCacheMeshCreator.create,
    ObjectCacheMeshCreator.formAndPrecisionCacheKey.
  destruct (ObjectCacheMeshCreator.objectCache this !! GetSag stepData) as [level|]; [|done].
  simpl. intros ->. by destruct this.
Qed.

Lemma objectCache_miss this obj stepData formNote outlinesOnly :
  ObjectCacheMeshCreator.cached this (GetSag stepData) (Item.Id obj) = None →
  ObjectCacheMeshCreator.create this obj stepData formNote outlinesOnly =
    let r := create (ObjectCacheMeshCreator.underlying this) obj stepData formNote outlinesOnly in
    let level := default ∅ (ObjectCacheMeshCreator.objectCache this !! GetSag stepData) in
    (ObjectCacheMeshCreator.Make
       (<[GetSag stepData := <[Item.Id obj := r.2]> level]>
          (ObjectCacheMeshCreator.objectCache this))
       r.1, r.2).
Proof.
  unfold ObjectCacheMeshCreator.cached, ObjectCacheMeshCreator.create,
    ObjectCacheMeshCreator.formAndPrecisionCacheKey.
  destruct (ObjectCacheMeshCreator.objectCache this !! GetSag stepData) as [level|]; simpl.
  - intros ->. by destruct (create _ _ _ _ _).
  - intros _. rewrite lookup_empty. destruct (create _ _ _ _ _). simpl.
    by rewrite insert_insert_eq.
Qed.

(** After a call the table holds, under the pair of the call, the promise the
    call returned. *)
Lemma objectCache_cached_after this obj stepData formNote outlinesOnly :
  let r := ObjectCacheMeshCreator.create this obj stepData formNote outlinesOnly in
  ObjectCacheMeshCreator.cached r.1 (GetSag stepData) (Item.Id obj) = Some r.2.
Proof.
  cbv zeta.
  destruct (ObjectCacheMeshCreator.cached this (GetSag stepData) (Item.Id obj))
    as [memoized|] eqn:Hc.
  - by rewrite (objectCache_hit _ _ _ _ _ _ Hc).
  - rewrite (objectCache_miss _ _ _ _ _ Hc). unfold ObjectCacheMeshCreator.cached. simpl.
    rewrite lookup_insert_eq. simpl. by rewrite lookup_insert_eq.
Qed.

(** A call touches no entry of another precision key. *)
Lemma objectCache_frame this obj stepData formNote outlinesOnly key id :
  key ≠ GetSag stepData →
  ObjectCacheMeshCreator.cached
    (ObjectCacheMeshCreator.create this obj stepData formNote outlinesOnly).1 key id
  = ObjectCacheMeshCreator.cached this key id.
Proof.
  intros Hkey.
  destruct (ObjectCacheMeshCreator.cached this (GetSag stepData) (Item.Id obj))
    as [memoized|] eqn:Hc.
  - by rewrite (objectCache_hit _ _ _ _ _ _ Hc).
  - rewrite (objectCache_miss _ _ _ _ _ Hc). unfold ObjectCacheMeshCreator.cached. simpl.
    by rewrite lookup_insert_ne.
Qed.

End object_cache.

Lemma counting_calls {U : Type} `{MeshCreator U} (this : Counting.t U) obj stepData formNote
    outlinesOnly :
  Counting.calls (create this obj stepData formNote outlinesOnly).1
    = Counting.calls this ++ [(obj, stepData, formNote, outlinesOnly)].
Proof.
  unfold create at 1, Counting.meshCreator. by destruct (create _ _ _ _ _).
Qed.

(** ** Claims about the object cache *)

(** C1. Once the object cache holds an entry for the pair (object id,
    precision key), a further [create] with that pair returns the stored
    promise and does not call the underlying creator: the state, with the
    record of the calls forwarded, is unchanged.  Hence of two calls with the
    same pair made one after the other, before anything settles or after, only
    the first can reach the underlying creator, and it does so exactly once
    when the table had no entry; every repetition returns the same promise,
    whatever the underlying creator has become in the meantime. *)
Theorem object_cache_at_most_one_build {U : Type} `{MeshCreator U}
    (this : ObjectCacheMeshCreator.t (Counting.t U))
    (obj obj' : Item.t) (stepData stepData' : StepData) (formNote formNote' : FormNote)
    (outlinesOnly outlinesOnly' : bool) :
  Item.Id obj' = Item.Id obj →
  GetSag stepData' = GetSag stepData →
  let r1 := ObjectCacheMeshCreator.create this obj stepData formNote outlinesOnly in
  let r2 := ObjectCacheMeshCreator.create r1.1 obj' stepData' formNote' outlinesOnly' in
  (∀ memoized,
     ObjectCacheMeshCreator.cached this (GetSag stepData) (Item.Id obj) = Some memoized →
     r1 = (this, memoized)) ∧
  r2 = (r1.1, r1.2) ∧
  (ObjectCacheMeshCreator.cached this (GetSag stepData) (Item.Id obj) = None →
   Counting.calls (ObjectCacheMeshCreator.underlying r2.1)
     = Counting.calls (ObjectCacheMeshCreator.underlying this)
       ++ [(obj, stepData, formNote, outlinesOnly)]) ∧
  (∀ n, Nat.iter n (λ s, (ObjectCacheMeshCreator.create s obj' stepData' formNote'
                            outlinesOnly').1) r1.1 = r1.1) ∧
  (∀ u, let later := ObjectCacheMeshCreator.Make (ObjectCacheMeshCreator.objectCache r1.1) u in
        ObjectCacheMeshCreator.create later obj' stepData' formNote' outlinesOnly'
        = (later, r1.2)).
Proof.
  intros Hid Hsag r1 r2.
  assert (r2 = (r1.1, r1.2)) as Hr2.
  { subst r2. apply objectCache_hit. rewrite Hid, Hsag. apply objectCache_cached_after. }
  split; [|split; [done|split; [|split]]]; cycle 3.
  { intros u later. apply objectCache_hit. rewrite Hid, Hsag.
    apply (objectCache_cached_after this obj stepData formNote outlinesOnly). }
  - intros memoized Hc. by apply objectCache_hit.
  - intros Hc. rewrite Hr2. subst r1. cbn [fst]. rewrite (objectCache_miss _ _ _ _ _ Hc).
    cbv zeta. cbn [fst ObjectCacheMeshCreator.underlying]. apply counting_calls.
  - induction n as [|n IH]; [done|]. rewrite Nat.iter_succ, IH.
    fold r2. by rewrite Hr2.
Qed.

Lemma object_cache_at_most_one_build_witness :
  let this := countedPipeline kernelOk in
  let r1 := ObjectCacheMeshCreator.create this (Item.OfSolid cube) sag1 plain false in
  let r2 := ObjectCacheMeshCreator.create r1.1 (Item.OfSolid cube) sag1 plain true in
  Item.Id (Item.OfSolid cube) = Item.Id (Item.OfSolid cube) ∧
  GetSag sag1 = GetSag sag1 ∧
  r2 = (r1.1, r1.2) ∧
  Counting.calls (ObjectCacheMeshCreator.underlying r2.1)
    = [(Item.OfSolid cube, sag1, plain, false)].
Proof.
  intros this r1 r2.
  pose proof (object_cache_at_most_one_build this (Item.OfSolid cube) (Item.OfSolid cube)
                sag1 sag1 plain plain false true eq_refl eq_refl) as (_ & Hr2 & Hcalls & _ & _).
  split; [reflexivity|]. split; [reflexivity|]. split; [exact Hr2|].
  exact (Hcalls eq_refl).
Defined.



(** C3, as the code has it.  The object cache keeps the promise of a failed
    computation: when the promise a call returns is rejected, the table still
    holds it under the pair of the call, and a later [create] with that pair
    returns the same rejected promise without reaching the underlying
    creator. *)
Theorem object_cache_keeps_rejected {U : Type} `{MeshCreator U}
    (this : ObjectCacheMeshCreator.t (Counting.t U))
    (obj obj' : Item.t) (stepData stepData' : StepData) (formNote formNote' : FormNote)
    (outlinesOnly outlinesOnly' : bool) (e : Reason) :
  Item.Id obj' = Item.Id obj →
  GetSag stepData' = GetSag stepData →
  let r1 := ObjectCacheMeshCreator.create this obj stepData formNote outlinesOnly in
  let r2 := ObjectCacheMeshCreator.create r1.1 obj' stepData' formNote' outlinesOnly' in
  result r1.2 = Rejected e →
  ObjectCacheMeshCreator.cached r1.1 (GetSag stepData) (Item.Id obj) = Some r1.2 ∧
  r2.1 = r1.1 ∧
  result r2.2 = Rejected e ∧
  Counting.calls (ObjectCacheMeshCreator.underlying r2.1)
    = Counting.calls (ObjectCacheMeshCreator.underlying r1.1).
Proof.
  intros Hid Hsag r1 r2 Hrej.
  assert (ObjectCacheMeshCreator.cached r1.1 (GetSag stepData) (Item.Id obj) = Some r1.2)
    as Hc by apply objectCache_cached_after.
  assert (r2 = (r1.1, r1.2)) as ->.
  { subst r2. apply objectCache_hit. by rewrite Hid, Hsag. }
  done.
Qed.

Lemma object_cache_keeps_rejected_witness :
  let this := countedPipeline kernelFailing in
  let r1 := ObjectCacheMeshCreator.create this (Item.OfSolid cube) sag1 plain false in
  let r2 := ObjectCacheMeshCreator.create r1.1 (Item.OfSolid cube) sag1 plain false in
  Item.Id (Item.OfSolid cube) = Item.Id (Item.OfSolid cube) ∧
  GetSag sag1 = GetSag sag1 ∧
  result r1.2 = Rejected "CalculateGrid failed" ∧
  r2.1 = r1.1 ∧
  result r2.2 = Rejected "CalculateGrid failed".
Proof.
  intros this r1 r2.
  assert (result r1.2 = Rejected "CalculateGrid failed") as Hrej by (vm_compute; reflexivity).
  pose proof (object_cache_keeps_rejected this (Item.OfSolid cube) (Item.OfSolid cube)
                sag1 sag1 plain plain false false _ eq_refl eq_refl Hrej) as (_ & H1 & H2 & _).
  split; [reflexivity|]. split; [reflexivity|]. split; [exact Hrej|].
  split; [exact H1|exact H2].
Defined.

(** C3, as stated, fails: with a kernel that fails on one face of the cube,
    the first call is rejected, its entry is still in the table afterwards,
    and the next call with the same pair does not reach the underlying
    creator. *)
Lemma object_cache_evicts_on_failure_counterexample :
  let this := countedPipeline kernelFailing in
  let r1 := ObjectCacheMeshCreator.create this (Item.OfSolid cube) sag1 plain false in
  let r2 := ObjectCacheMeshCreator.create r1.1 (Item.OfSolid cube) sag1 plain false in
  ObjectCacheMeshCreator.cached this (GetSag sag1) 1%Z = None ∧
  result r1.2 = Rejected "CalculateGrid failed" ∧
  ObjectCacheMeshCreator.cached r1.1 (GetSag sag1) 1%Z ≠ None ∧
  Counting.calls (ObjectCacheMeshCreator.underlying r1.1)
    = [(Item.OfSolid cube, sag1, plain, false)] ∧
  Counting.calls (ObjectCacheMeshCreator.underlying r2.1)
    = [(Item.OfSolid cube, sag1, plain, false)].
Proof.
  intros this r1 r2. split; [reflexivity|]. split; [vm_compute; reflexivity|].
  split; [|split].
  - unfold r1. rewrite objectCache_cached_after. discriminate.
  - vm_compute. reflexivity.
  - vm_compute. reflexivity.
Qed.

(** ** Awaiting the faces, then the edges *)

Section await_both.
Context {A B R : Type}.
Context (c : nat) (issued : list stamped).
Context (fps : list (Promise.t A)) (eps : list (Promise.t B)) (finish : list A → list B → R).

Lemma awaitBoth_fulfilled m :
  out (awaitBoth c issued fps eps finish) = Fulfilled m →
  ∃ xs ys,
    result (Promise.all fps) = Fulfilled xs ∧ result (Promise.all eps) = Fulfilled ys ∧
    m = finish xs ys ∧
    effs (awaitBoth c issued fps eps finish)
      = issued ++ [(clk (awaitBoth c issued fps eps finish), ExitParallelRegion)] ∧
    c ≤ clk (awaitBoth c issued fps eps finish) ∧
    (∀ p, p ∈ fps → at_tick p ≤ clk (awaitBoth c issued fps eps finish)) ∧
    (∀ p, p ∈ eps → at_tick p ≤ clk (awaitBoth c issued fps eps finish)).
Proof.
  unfold awaitBoth.
  destruct (result (Promise.all fps)) as [xs|] eqn:Hf; [|done].
  destruct (result (Promise.all eps)) as [ys|] eqn:He; [|done].
  cbn. intros [= <-]. exists xs, ys. repeat split; try done.
  - lia.
  - intros p Hp. pose proof (all_fulfilled_tick _ _ _ Hf Hp). lia.
  - intros p Hp. pose proof (all_fulfilled_tick _ _ _ He Hp). lia.
Qed.

Lemma awaitBoth_rejected e :
  out (awaitBoth c issued fps eps finish) = Rejected e →
  effs (awaitBoth c issued fps eps finish) = issued ∧
  ((∃ p, p ∈ fps ∧ result p = Rejected e) ∨ (∃ p, p ∈ eps ∧ result p = Rejected e)).
Proof.
  unfold awaitBoth.
  destruct (result (Promise.all fps)) as [xs|] eqn:Hf.
  - destruct (result (Promise.all eps)) as [ys|] eqn:He; [done|].
    cbn. intros [= <-]. split; [done|]. right.
    destruct (all_rejected_reason _ _ He) as (p & ? & ? & _). eauto.
  - cbn. intros [= <-]. split; [done|]. left.
    destruct (all_rejected_reason _ _ Hf) as (p & ? & ? & _). eauto.
Qed.

Lemma awaitBoth_rejects :
  (∃ p e, p ∈ fps ∧ result p = Rejected e) ∨ (∃ p e, p ∈ eps ∧ result p = Rejected e) →
  ∃ e, out (awaitBoth c issued fps eps finish) = Rejected e.
Proof.
  unfold awaitBoth. intros Hrej.
  destruct (result (Promise.all fps)) as [xs|] eqn:Hf; [|by eauto].
  destruct (result (Promise.all eps)) as [ys|] eqn:He; [|by eauto].
  destruct Hrej as [(p & e & Hp & Hrej)|(p & e & Hp & Hrej)].
  - destruct (all_rejected_first _ _ _ Hp Hrej) as (? & ? & _). congruence.
  - destruct (all_rejected_first _ _ _ Hp Hrej) as (? & ? & _). congruence.
Qed.

End await_both.

(** ** The parallel region *)

Lemma inParallelRegion_app b es es' :
  inParallelRegion b (es ++ es') = inParallelRegion (inParallelRegion b es) es'.
Proof. apply foldl_app. Qed.

Lemma inParallelRegion_other b es :
  Forall (λ se, isRegionEffect se.2 = false) es → inParallelRegion b es = b.
Proof.
  unfold inParallelRegion. induction 1 as [|[t e] es He _ IH]; [done|].
  simpl. by destruct e.
Qed.

Lemma inParallelRegion_entered b c es :
  Forall (λ se, isRegionEffect se.2 = false) es →
  inParallelRegion b ((c, EnterParallelRegion) :: es) = true.
Proof. intros Hes. by apply (inParallelRegion_other true). Qed.

Lemma inParallelRegion_bracket b c c' es :
  inParallelRegion b ((c, EnterParallelRegion) :: es ++ [(c', ExitParallelRegion)]) = false.
Proof.
  change (?x :: ?l ++ ?k) with ((x :: l) ++ k). by rewrite inParallelRegion_app.
Qed.

Lemma isKernelCall_not_region e : isKernelCall e = true → isRegionEffect e = false.
Proof. by destruct e. Qed.

Lemma taskReason_isKernelCall k e r : taskReason k e = Some r → isKernelCall e = true.
Proof. by destruct e. Qed.

(** ** What every [create] on a solid does with its tasks *)

Section linked.
Context {A B R : Type} (k : Kernel).
Context (c : nat) (body : list stamped).
Context (fps : list (Promise.t A)) (eps : list (Promise.t B)) (finish : list A → list B → R).
Context (Hlinked : linked k c body fps eps).

Local Abbreviation r := (awaitBoth c ((c, EnterParallelRegion) :: body) fps eps finish).

Lemma linked_effs_cases :
  effs r = (c, EnterParallelRegion) :: body ∨
  effs r = (c, EnterParallelRegion) :: body ++ [(clk r, ExitParallelRegion)].
Proof.
  destruct (out r) as [m|e] eqn:Hout.
  - right. by destruct (awaitBoth_fulfilled _ _ _ _ _ _ Hout) as (? & ? & _ & _ & _ & -> & _).
  - left. by destruct (awaitBoth_rejected _ _ _ _ _ _ Hout) as [-> _].
Qed.

Lemma linked_kernelCall se :
  se ∈ effs r → isKernelCall se.2 = true → se ∈ body.
Proof.
  intros Hse Hk.
  destruct linked_effs_cases as [Heq|Heq]; rewrite Heq in Hse;
    repeat (apply elem_of_cons in Hse as [->|Hse] || apply elem_of_app in Hse as [Hse|Hse]);
    try done.
  by apply elem_of_nil in Hse.
Qed.

Lemma linked_body_effs se : se ∈ body → se ∈ effs r.
Proof.
  intros Hse. destruct linked_effs_cases as [Heq|Heq]; rewrite Heq.
  - apply elem_of_cons. auto.
  - apply elem_of_cons. right. apply elem_of_app. auto.
Qed.

Lemma linked_rejects se e :
  se ∈ effs r → taskReason k se.2 = Some e →
  ∃ e' se', out r = Rejected e' ∧ se' ∈ effs r ∧ taskReason k se'.2 = Some e'.
Proof.
  intros Hse Hreason. destruct Hlinked as (_ & Hcalls & Hfps & Heps).
  pose proof (taskReason_isKernelCall _ _ _ Hreason) as Hk.
  pose proof (linked_kernelCall _ Hse Hk) as Hbody.
  destruct (awaitBoth_rejects c ((c, EnterParallelRegion) :: body) fps eps finish) as [e' He'].
  { destruct (Hcalls _ Hbody Hk) as [_ [(p & Hp & _ & _ & Hrej)|(p & Hp & _ & _ & Hrej)]];
      [left|right]; exists p, e; split; try done; by apply Hrej. }
  exists e'.
  destruct (awaitBoth_rejected _ _ _ _ _ _ He') as [_ [(p & Hp & Hrej)|(p & Hp & Hrej)]].
  - destruct (Hfps _ Hp) as (se' & Hse' & _ & _ & Hiff). exists se'.
    split; [done|]. split; [by apply linked_body_effs|]. by apply Hiff.
  - destruct (Heps _ Hp) as (se' & Hse' & _ & _ & Hiff). exists se'.
    split; [done|]. split; [by apply linked_body_effs|]. by apply Hiff.
Qed.


Lemma linked_fulfilled b m :
  out r = Fulfilled m →
  effs r = (c, EnterParallelRegion) :: body ++ [(clk r, ExitParallelRegion)] ∧
  (∀ se, se ∈ effs r → isKernelCall se.2 = true → taskTick k se.2 ≤ clk r) ∧
  inParallelRegion b (effs r) = false.
Proof.
  intros Hout. destruct Hlinked as (_ & Hcalls & _).
  destruct (awaitBoth_fulfilled _ _ _ _ _ _ Hout) as (? & ? & _ & _ & _ & Heq & _ & Hf & He).
  split; [done|]. split.
  - intros se Hse Hk. pose proof (linked_kernelCall _ Hse Hk) as Hbody.
    destruct (Hcalls _ Hbody Hk) as [_ [(p & Hp & _ & Htick & _)|(p & Hp & _ & Htick & _)]].
    + specialize (Hf _ Hp). lia.
    + specialize (He _ Hp). lia.
  - rewrite Heq. apply inParallelRegion_bracket.
Qed.

Lemma linked_rejected b e :
  out r = Rejected e →
  effs r = (c, EnterParallelRegion) :: body ∧
  Forall (λ se, se.2 ≠ ExitParallelRegion) (effs r) ∧
  inParallelRegion b (effs r) = true.
Proof.
  intros Hout. destruct Hlinked as (Hbody & _).
  destruct (awaitBoth_rejected _ _ _ _ _ _ Hout) as [Heq _].
  split; [done|]. rewrite Heq. split.
  - apply Forall_cons. split; [done|].
    eapply Forall_impl; [done|]. intros [t e'] He He'. simpl in *. by subst.
  - by apply inParallelRegion_entered.
Qed.


End linked.

(** ** The tasks of the two creators *)

Section creators_linked.
Context (k : Kernel) (stepData : StepData) (formNote : FormNote) (outlinesOnly : bool) (c : nat).

Lemma settlesAs_face face i :
  settlesAs k c (promised (ParallelMeshCreator.calculateFace k face stepData formNote i) c)
            (c, CalculateGrid face stepData (Quad formNote) (Fair formNote)).
Proof.
  split; [done|]. split; [apply clk_calculateFace|].
  intros e. unfold promised. cbn [result snd taskReason].
  rewrite out_calculateFace_rejected.
  destruct (result (CalculateGrid_async _ _ _ _ _)); naive_solver.
Qed.

Lemma settlesAs_edge edge i :
  settlesAs k c (promised (ParallelMeshCreator.calculateEdge k edge stepData formNote
                             outlinesOnly i) c)
            (c, CalculateMesh edge stepData formNote).
Proof.
  split; [done|]. split; [apply clk_calculateEdge|].
  intros e. unfold promised. cbn [result snd taskReason].
  rewrite out_calculateEdge_rejected.
  destruct (result (CalculateMesh_async _ _ _ _)); naive_solver.
Qed.

Lemma elem_of_gridCalls se l :
  se ∈ gridCalls stepData formNote c l ↔
  ∃ face, se = (c, CalculateGrid face stepData (Quad formNote) (Fair formNote)) ∧ face ∈ l.
Proof. unfold gridCalls. by rewrite list_elem_of_fmap. Qed.

Lemma elem_of_faceTasks p (l : list (nat * Face.t)) :
  p ∈ faceTasks k stepData formNote c l ↔
  ∃ i face, (i, face) ∈ l ∧
            p = promised (ParallelMeshCreator.calculateFace k face stepData formNote i) c.
Proof.
  unfold faceTasks. rewrite list_elem_of_fmap. split.
  - intros ([i face] & -> & ?). eauto.
  - intros (i & face & ? & ->). by exists (i, face).
Qed.

Lemma elem_of_edgeTasks p (l : list (nat * CurveEdge)) :
  p ∈ edgeTasks k stepData formNote outlinesOnly c l ↔
  ∃ i edge, (i, edge) ∈ l ∧
            p = promised (ParallelMeshCreator.calculateEdge k edge stepData formNote
                            outlinesOnly i) c.
Proof.
  unfold edgeTasks. rewrite list_elem_of_fmap. split.
  - intros ([i edge] & -> & ?). eauto.
  - intros (i & edge & ? & ->). by exists (i, edge).
Qed.

Lemma elem_of_entries {A} (l : list A) x : x ∈ l ↔ ∃ i, (i, x) ∈ entries l.
Proof.
  rewrite list_elem_of_lookup. by setoid_rewrite entries_lookup.
Qed.

Lemma parallel_linked solid :
  linked k c
    (gridCalls stepData formNote c (Solid.GetFaces solid)
     ++ meshCalls stepData formNote c (Solid.GetEdges solid))
    (faceTasks k stepData formNote c (entries (Solid.GetFaces solid)))
    (edgeTasks k stepData formNote outlinesOnly c (entries (Solid.GetEdges solid))).
Proof.
  split; [|split; [|split]].
  - apply Forall_app. split; apply Forall_forall; intros se.
    + by intros (face & -> & _)%elem_of_gridCalls.
    + by intros (edge & -> & _)%elem_of_meshCalls.
  - intros se [Hse|Hse]%elem_of_app _.
    + apply elem_of_gridCalls in Hse as (face & -> & [i Hi]%elem_of_entries).
      split; [done|]. left. eexists. split; [|apply settlesAs_face].
      apply elem_of_faceTasks. eauto.
    + apply elem_of_meshCalls in Hse as (edge & -> & [i Hi]%elem_of_entries).
      split; [done|]. right. eexists. split; [|apply settlesAs_edge].
      apply elem_of_edgeTasks. eauto.
  - intros p (i & face & Hin & ->)%elem_of_faceTasks. eexists. split; [|apply settlesAs_face].
    apply elem_of_app. left. apply elem_of_gridCalls. eexists. split; [done|].
    apply elem_of_entries. eauto.
  - intros p (i & edge & Hin & ->)%elem_of_edgeTasks. eexists. split; [|apply settlesAs_edge].
    apply elem_of_app. right. apply elem_of_meshCalls. eexists. split; [done|].
    apply elem_of_entries. eauto.
Qed.

Lemma faceCache_linked this done st es :
  loopInv this k stepData formNote outlinesOnly c done st es →
  linked k c es (FaceCacheMeshCreator.facePromises st) (FaceCacheMeshCreator.edgePromises st).
Proof.
  intros []. split; [|split; [|split]].
  - eapply Forall_impl; [done|]. intros [t e]. unfold accounted. by destruct e.
  - intros [t e] Hse Hk. rewrite Forall_forall in inv_accounted0.
    specialize (inv_accounted0 _ Hse). unfold accounted in inv_accounted0.
    destruct e; try done; cbn in inv_accounted0.
    + destruct inv_accounted0 as (-> & -> & -> & -> & i & _ & _ & Hp).
      split; [done|]. left. eexists. split; [done|apply settlesAs_face].
    + destruct inv_accounted0 as (-> & -> & -> & i & face' & n & _ & _ & _ & Hp).
      split; [done|]. right. eexists. split; [done|apply settlesAs_edge].
  - intros p Hp. rewrite Forall_forall in inv_faceTasks0.
    destruct (inv_faceTasks0 _ Hp) as (i & face & _ & _ & -> & Hse).
    eexists. split; [done|apply settlesAs_face].
  - intros p Hp. rewrite Forall_forall in inv_edgeTasks0.
    destruct (inv_edgeTasks0 _ Hp) as (i & face & edge & n & _ & _ & _ & -> & Hse).
    eexists. split; [done|apply settlesAs_edge].
Qed.

End creators_linked.

(** ** Claims about tasks that fail and about the parallel region *)

(** C5. When a kernel task started by a [create] call on a solid is rejected,
    a face's or an edge's, the call is rejected, with the reason of a rejected
    task it started, and so returns no mesh, partial or other.  This holds of
    the parallel creator and of the face cache. *)
Theorem create_rejects_when_a_task_rejects (this : FaceCacheMeshCreator.t) (k : Kernel)
    (solid : Solid.t) (stepData : StepData) (formNote : FormNote) (outlinesOnly : bool)
    (c : nat) (se : stamped) (e : Reason) :
  taskReason k se.2 = Some e →
  let rp := run (ParallelMeshCreator.create k (Item.OfSolid solid) stepData formNote
                   outlinesOnly) c in
  let rf := run (FaceCacheMeshCreator.create this k (Item.OfSolid solid) stepData formNote
                   outlinesOnly) c in
  (se ∈ effs rp →
   ∃ e' se', out rp = Rejected e' ∧ se' ∈ effs rp ∧ taskReason k se'.2 = Some e') ∧
  (se ∈ effs rf →
   ∃ e' se', out rf = Rejected e' ∧ se' ∈ effs rf ∧ taskReason k se'.2 = Some e').
Proof.
  intros Hreason rp rf. split.
  - subst rp. rewrite run_parallel_create. intros Hse.
    eapply linked_rejects; [apply parallel_linked|done..].
  - subst rf.
    destruct (loopRun_loopInv this k stepData formNote outlinesOnly c (Solid.GetFaces solid))
      as (st & es & Hrun & Hinv).
    rewrite (run_faceCache_create _ _ _ _ _ _ _ _ _ Hrun). intros Hse.
    eapply linked_rejects; [by eapply faceCache_linked|done..].
Qed.

Lemma create_rejects_when_a_task_rejects_witness :
  let this := FaceCacheMeshCreator.Make ∅ cubeHistory in
  let se := (0, CalculateGrid (cubeFace 3 false [0; 9; 4; 8]%Z) sag1 false false) in
  let rp := run (ParallelMeshCreator.create kernelFailing (Item.OfSolid cube) sag1 plain
                   false) 0 in
  let rf := run (FaceCacheMeshCreator.create this kernelFailing (Item.OfSolid cube) sag1 plain
                   false) 0 in
  taskReason kernelFailing se.2 = Some "CalculateGrid failed" ∧
  se ∈ effs rp ∧ se ∈ effs rf ∧
  (∃ e' se', out rp = Rejected e' ∧ se' ∈ effs rp ∧ taskReason kernelFailing se'.2 = Some e') ∧
  (∃ e' se', out rf = Rejected e' ∧ se' ∈ effs rf ∧ taskReason kernelFailing se'.2 = Some e').
Proof.
  intros this se rp rf.
  assert (taskReason kernelFailing se.2 = Some "CalculateGrid failed") as Hreason
    by reflexivity.
  assert (se ∈ effs rp) as Hp by (apply (list_elem_of_lookup_2 _ 3); reflexivity).
  assert (se ∈ effs rf) as Hf by (apply (list_elem_of_lookup_2 _ 13); reflexivity).
  pose proof (create_rejects_when_a_task_rejects this kernelFailing cube sag1 plain false 0
                se _ Hreason) as [H1 H2].
  split; [exact Hreason|]. split; [exact Hp|]. split; [exact Hf|].
  split; [exact (H1 Hp)|exact (H2 Hf)].
Defined.




(** ** Claims about the order of the faces *)

Section face_order.
Context (k : Kernel) (stepData : StepData) (formNote : FormNote) (c : nat).

Lemma entries_fst {A} (l : list A) : (entries l).*1 = seq 0 (length l).
Proof.
  unfold entries. rewrite fmap_imap.
  rewrite (imap_ext _ (λ j _, id j)) by done. by rewrite imap_seq_0, list_fmap_id.
Qed.

Lemma omap_entries {A B} (f : A → option B) (l : list A) :
  omap (λ x, f x.2) (entries l) = omap f l.
Proof.
  rewrite <-(entries_snd l) at 2. generalize (entries l). intros l'.
  induction l' as [|[i x] l' IH]; [done|]. csimpl. by rewrite IH.
Qed.

Lemma filter_all {A} (P : A → Prop) `{∀ x, Decision (P x)} (l : list A) :
  (∀ x, x ∈ l → P x) → filter P l = l.
Proof.
  induction l as [|x l IH]; intros Hall; [done|].
  rewrite filter_cons_True by (apply Hall; left).
  rewrite IH; [done|]. intros y Hy. apply Hall. by right.
Qed.

Lemma omap_none {A B} (f : A → option B) (l : list A) :
  (∀ x, x ∈ l → f x = None) → omap f l = [].
Proof.
  induction l as [|x l IH]; intros Hall; [done|].
  csimpl. rewrite (Hall x) by left. apply IH. intros y Hy. apply Hall. by right.
Qed.

Lemma faceTasks_fulfilled (l : list (nat * Face.t)) computed :
  Forall2 (λ p a, result p = Fulfilled a) (faceTasks k stepData formNote c l) computed →
  resultsOf l computed.
Proof.
  unfold resultsOf. revert computed. induction l as [|[i face] l IH]; intros computed.
  - by intros ->%Forall2_nil_inv_l.
  - intros (mb & computed' & Hmb & Hrest & ->)%Forall2_cons_inv_l.
    apply out_calculateFace_fulfilled in Hmb as (Hmodel & Hi & _).
    csimpl. rewrite Hmodel, Hi. f_equal. by apply IH.
Qed.

Lemma resultsOf_declared faces ms :
  inDeclaredOrder faces ms →
  mb_model <$> ms = Some <$> faces ∧ mb_i <$> ms = seq 0 (length faces).
Proof.
  unfold inDeclaredOrder, resultsOf. intros Heq. split.
  - apply (f_equal (fmap snd)) in Heq. rewrite <-!list_fmap_compose in Heq.
    rewrite <-(entries_snd faces). by rewrite <-list_fmap_compose.
  - apply (f_equal (fmap fst)) in Heq. rewrite <-!list_fmap_compose in Heq.
    by rewrite <-entries_fst.
Qed.

End face_order.

(** C4, as the code has it.  The parallel creator returns the faces in the
    declared order of the solid.  The face cache returns first the entries of
    the faces it reuses, in declared order, and then the results of the faces
    it computes, in declared order; that is the declared order of the solid
    when it reuses no face. *)
Theorem face_order (this : FaceCacheMeshCreator.t) (k : Kernel)
    (solid : Solid.t) (stepData : StepData) (formNote : FormNote) (outlinesOnly : bool)
    (c : nat) (m : MeshLike) :
  let rp := run (ParallelMeshCreator.create k (Item.OfSolid solid) stepData formNote
                   outlinesOnly) c in
  let rf := run (FaceCacheMeshCreator.create this k (Item.OfSolid solid) stepData formNote
                   outlinesOnly) c in
  (out rp = Fulfilled m → inDeclaredOrder (Solid.GetFaces solid) (faces m)) ∧
  (out rf = Fulfilled m →
   ∃ computed,
     faces m = omap (λ face, fst <$> cacheHit this face) (Solid.GetFaces solid) ++ computed ∧
     resultsOf (filter (isMiss this) (entries (Solid.GetFaces solid))) computed) ∧
  (out rf = Fulfilled m →
   (∀ face, face ∈ Solid.GetFaces solid → cacheHit this face = None) →
   inDeclaredOrder (Solid.GetFaces solid) (faces m)).
Proof.
  intros rp rf.
  assert (out rf = Fulfilled m →
   ∃ computed,
     faces m = omap (λ face, fst <$> cacheHit this face) (Solid.GetFaces solid) ++ computed ∧
     resultsOf (filter (isMiss this) (entries (Solid.GetFaces solid))) computed) as Hf.
  { subst rf.
    destruct (loopRun_loopInv this k stepData formNote outlinesOnly c (Solid.GetFaces solid))
      as (st & es & Hrun & Hinv).
    rewrite (run_faceCache_create _ _ _ _ _ _ _ _ _ Hrun). intros Hout.
    apply awaitBoth_fulfilled in Hout as (computed & ys & Hall & _ & -> & _).
    exists computed. destruct Hinv. cbn [faces]. split.
    - by rewrite inv_cachedFaces0, (omap_entries (λ face, fst <$> cacheHit this face)).
    - apply all_fulfilled_values in Hall. rewrite inv_facePromises0 in Hall.
      by apply faceTasks_fulfilled in Hall. }
  split; [|split; [done|]].
  - subst rp. rewrite run_parallel_create. intros Hout.
    apply awaitBoth_fulfilled in Hout as (xs & ys & Hall & _ & -> & _).
    cbn [faces]. by apply all_fulfilled_values, faceTasks_fulfilled in Hall.
  - intros Hout Hmiss. destruct (Hf Hout) as (computed & -> & Hres).
    unfold inDeclaredOrder. rewrite filter_all in Hres.
    + rewrite omap_none; [done|]. intros face Hface. by rewrite (Hmiss _ Hface).
    + intros [i face] Hin. apply Hmiss. apply elem_of_entries. eauto.
Qed.

Lemma face_order_witness :
  let this := FaceCacheMeshCreator.Make ∅ cubeHistory in
  let rp := run (ParallelMeshCreator.create kernelOk (Item.OfSolid cube) sag1 plain false) 0 in
  let rf := run (FaceCacheMeshCreator.create this kernelOk (Item.OfSolid cube) sag1 plain
                   false) 0 in
  (∃ m, out rp = Fulfilled m ∧ inDeclaredOrder cubeFaces (faces m)) ∧
  (∃ m, out rf = Fulfilled m ∧
        (∀ face, face ∈ cubeFaces → cacheHit this face = None) ∧
        inDeclaredOrder cubeFaces (faces m)).
Proof.
  intros this rp rf.
  assert (∀ face, face ∈ cubeFaces → cacheHit this face = None) as Hmiss.
  { intros face Hface. unfold cacheHit. destruct (Face.GetOwnChanged face); [done|].
    by destruct (_ !! _). }
  split.
  - destruct (out rp) as [m|] eqn:Hrp; [|by vm_compute in Hrp].
    exists m. split; [done|].
    pose proof (face_order this kernelOk cube sag1 plain false 0 m) as Horder.
    cbv zeta in Horder. destruct Horder as (Hp & _). by apply Hp.
  - destruct (out rf) as [m|] eqn:Hrf; [|by vm_compute in Hrf].
    exists m. split; [done|]. split; [done|].
    pose proof (face_order this kernelOk cube sag1 plain false 0 m) as Horder.
    cbv zeta in Horder. destruct Horder as (_ & _ & Hf). by apply Hf.
Defined.

(** C4, as stated, fails for the face cache when a face that is computed
    comes before a face that is reused: after an edit of the first face of the
    cube, the faces come back with the five reused ones first and the edited
    one last. *)
Lemma face_order_counterexample :
  let rf := run (FaceCacheMeshCreator.create primed kernelOk (Item.OfSolid cubeEdited) sag1
                   plain false) 20 in
  ∃ m, out rf = Fulfilled m ∧
       mb_model <$> faces m
         = Some <$> (tail cubeFaces ++ [cubeFace 1 true [0; 1; 2; 3]%Z]) ∧
       ¬ inDeclaredOrder (Solid.GetFaces cubeEdited) (faces m).
Proof.
  intros rf. destruct (out rf) as [m|] eqn:Hrf; [|by vm_compute in Hrf].
  exists m. split; [done|].
  assert (mb_model <$> faces m
          = Some <$> (tail cubeFaces ++ [cubeFace 1 true [0; 1; 2; 3]%Z])) as Hm.
  { vm_compute in Hrf. injection Hrf as <-. reflexivity. }
  split; [done|]. intros [Hmodel _]%resultsOf_declared.
  rewrite Hm in Hmodel. discriminate.
Qed.

(** ** The face cache after a call *)

Section settled.
Implicit Types (this : FaceCacheMeshCreator.t) (es : list stamped).
Implicit Types ws : list (nat * (Z * (MeshBuffer * list EdgeBuffer))).
Implicit Types table : gmap Z (MeshBuffer * list EdgeBuffer).

Lemma elem_of_cacheWrites es tick lid entry :
  (tick, (lid, entry)) ∈ FaceCacheMeshCreator.cacheWrites es ↔
  (tick, FaceCacheSet lid entry) ∈ es.
Proof.
  unfold FaceCacheMeshCreator.cacheWrites. rewrite list_elem_of_omap. split.
  - intros ([t e] & Hin & Heq). destruct e; try done. by injection Heq as -> -> ->.
  - intros Hin. by exists (tick, FaceCacheSet lid entry).
Qed.

Lemma lookup_writes_other table ws lid :
  (∀ w, w ∈ ws → w.2.1 ≠ lid) →
  foldl (λ m w, <[w.2.1 := w.2.2]> m) table ws !! lid = table !! lid.
Proof.
  revert table. induction ws as [|w ws IH]; intros table Hne; [done|].
  cbn [foldl]. rewrite IH.
  - apply lookup_insert_ne, Hne. by left.
  - intros w' Hw'. apply Hne. by right.
Qed.

Lemma lookup_writes_Some table ws lid entry :
  foldl (λ m w, <[w.2.1 := w.2.2]> m) table ws !! lid = Some entry →
  table !! lid = Some entry ∨ ∃ tick, (tick, (lid, entry)) ∈ ws.
Proof.
  revert table. induction ws as [|[t [lid' entry']] ws IH]; intros table; [by left|].
  cbn [foldl fst snd]. intros [Hold|[tick Hin]]%IH.
  - destruct (decide (lid' = lid)) as [->|Hne].
    + rewrite lookup_insert_eq in Hold. injection Hold as ->. right. exists t. by left.
    + rewrite lookup_insert_ne in Hold by done. by left.
  - right. exists tick. by right.
Qed.

Lemma settled_unwritten this es lid :
  (∀ tick entry, (tick, FaceCacheSet lid entry) ∉ es) →
  FaceCacheMeshCreator.faceCache (FaceCacheMeshCreator.settled this es) !! lid
  = FaceCacheMeshCreator.faceCache this !! lid.
Proof.
  intros Hnone. unfold FaceCacheMeshCreator.settled. cbn [FaceCacheMeshCreator.faceCache].
  apply lookup_writes_other. intros [t [lid' entry]] Hin ?. simplify_eq/=.
  rewrite merge_sort_Permutation in Hin. apply elem_of_cacheWrites in Hin.
  by apply (Hnone t entry).
Qed.

Lemma settled_Some this es lid entry :
  FaceCacheMeshCreator.faceCache (FaceCacheMeshCreator.settled this es) !! lid = Some entry →
  FaceCacheMeshCreator.faceCache this !! lid = Some entry ∨
  ∃ tick, (tick, FaceCacheSet lid entry) ∈ es.
Proof.
  unfold FaceCacheMeshCreator.settled. cbn [FaceCacheMeshCreator.faceCache].
  intros [Hold|[tick Hin]]%lookup_writes_Some; [by left|]. right. exists tick.
  rewrite merge_sort_Permutation in Hin. by apply elem_of_cacheWrites.
Qed.

End settled.

Section face_cache_writes.
Context (this : FaceCacheMeshCreator.t) (k : Kernel).
Context (solid : Solid.t) (stepData : StepData) (formNote : FormNote) (outlinesOnly : bool).
Context (c : nat).

Local Abbreviation r :=
  (run (FaceCacheMeshCreator.create this k (Item.OfSolid solid) stepData formNote
          outlinesOnly) c).

(** The effects of a call are those of its loop, between entering the region
    and, when the call is not rejected, leaving it. *)
Lemma faceCache_create_effs :
  ∃ st es, loopInv this k stepData formNote outlinesOnly c
             (entries (Solid.GetFaces solid)) st es ∧
           ∀ se, se ∈ effs r ↔
                 se = (c, EnterParallelRegion) ∨ se ∈ es ∨
                 (se = (clk r, ExitParallelRegion) ∧ ∃ m, out r = Fulfilled m).
Proof.
  destruct (loopRun_loopInv this k stepData formNote outlinesOnly c (Solid.GetFaces solid))
    as (st & es & Hrun & Hinv).
  exists st, es. split; [done|]. intros se.
  rewrite (run_faceCache_create _ _ _ _ _ _ _ _ _ Hrun).
  pose proof (faceCache_linked _ _ _ _ _ _ _ _ _ Hinv) as Hlinked.
  destruct (out (awaitBoth _ _ _ _ _)) as [m|e] eqn:Hout.
  - destruct (linked_fulfilled k c es _ _ _ Hlinked false m Hout) as (-> & _).
    rewrite elem_of_cons, elem_of_app, list_elem_of_singleton.
    split; [intros [?|[?|?]]; eauto|intros [?|[?|[? _]]]; auto].
  - destruct (linked_rejected k c es _ _ _ Hlinked false e Hout) as (-> & _).
    rewrite elem_of_cons. split; [intros [?|?]; auto|intros [?|[?|[_ [? ?]]]]; auto; done].
Qed.

Lemma faceCache_create_written tick lid entry :
  (tick, FaceCacheSet lid entry) ∈ effs r →
  ∃ i face, Solid.GetFaces solid !! i = Some face ∧
            written this k stepData formNote outlinesOnly c i face tick lid entry.
Proof.
  destruct faceCache_create_effs as (st & es & Hinv & Heffs).
  intros [?|[Hin|[? _]]]%Heffs; [done| |done].
  destruct Hinv. rewrite Forall_forall in inv_accounted0.
  destruct (inv_accounted0 _ Hin) as (i & face & Hface & Hw).
  exists i, face. split; [by apply entries_lookup|done].
Qed.


End face_cache_writes.

(** ** Claims about the face cache table *)

(** C10. The face cache writes an entry for a lineage id only for a face of
    the solid with that lineage id whose grid and whose edges have all been
    computed, and no earlier than the tick at which the last of these tasks
    settles.  When, for every face of the solid with a given lineage id, the
    grid task or one of the edge tasks is rejected, nothing is written under
    that lineage id: the table is there as it was. *)
Theorem face_cache_stores_only_complete_faces (this : FaceCacheMeshCreator.t) (k : Kernel)
    (solid : Solid.t) (stepData : StepData) (formNote : FormNote) (outlinesOnly : bool)
    (c : nat) :
  let r := run (FaceCacheMeshCreator.create this k (Item.OfSolid solid) stepData formNote
                  outlinesOnly) c in
  (∀ tick lid entry,
     (tick, FaceCacheSet lid entry) ∈ effs r →
     ∃ i face, Solid.GetFaces solid !! i = Some face ∧
               written this k stepData formNote outlinesOnly c i face tick lid entry) ∧
  (∀ lid,
     (∀ i face, Solid.GetFaces solid !! i = Some face →
                FaceCacheMeshCreator.history this !! Face.Id face = Some lid →
                taskReason k (CalculateGrid face stepData (Quad formNote) (Fair formNote))
                  ≠ None ∨
                ∃ edge, edge ∈ Face.GetEdges face ∧
                        taskReason k (CalculateMesh edge stepData formNote) ≠ None) →
     FaceCacheMeshCreator.faceCache (FaceCacheMeshCreator.settled this (effs r)) !! lid
     = FaceCacheMeshCreator.faceCache this !! lid).
Proof.
  intros r. split; [apply faceCache_create_written|].
  intros lid Hrej. apply settled_unwritten. intros tick entry Hin.
  apply faceCache_create_written in Hin
    as (i & face & Hface & _ & Hlid & _ & Hgrid & _ & Hedges & _).
  destruct (Hrej i face Hface Hlid) as [Hg|(edge & Hedge & He)].
  - apply out_calculateFace_fulfilled in Hgrid as (_ & _ & _ & bufs & Hbufs & _).
    apply Hg. cbn. by rewrite Hbufs.
  - destruct (Hedges edge Hedge) as (_ & mesh & Hmesh). apply He. cbn. by rewrite Hmesh.
Qed.

Lemma face_cache_stores_only_complete_faces_witness :
  let this := FaceCacheMeshCreator.Make ∅ cubeHistory in
  let r := run (FaceCacheMeshCreator.create this kernelFailing (Item.OfSolid cube) sag1 plain
                  false) 0 in
  out r = Rejected "CalculateGrid failed" ∧
  FaceCacheMeshCreator.faceCache (FaceCacheMeshCreator.settled this (effs r)) !! 1003%Z = None ∧
  is_Some (FaceCacheMeshCreator.faceCache (FaceCacheMeshCreator.settled this (effs r))
             !! 1001%Z).
Proof.
  intros this r. split; [vm_compute; reflexivity|]. split; [|by vm_compute; eauto].
  destruct (face_cache_stores_only_complete_faces this kernelFailing cube sag1 plain false 0)
    as [_ Hkeep].
  rewrite Hkeep; [reflexivity|]. intros i face Hface Hlid. left.
  assert (Face.Id face = 103%Z) as Hid.
  { apply list_elem_of_lookup_2 in Hface. revert Hlid. unfold cube, cubeFaces in Hface. cbn in Hface.
    repeat (apply elem_of_cons in Hface as [->|Hface]; [by vm_compute|]).
    by apply elem_of_nil in Hface. }
  cbn. rewrite decide_True by done. done.
Defined.

Section face_cache_reads.
Context (k : Kernel) (stepData : StepData) (formNote : FormNote) (outlinesOnly : bool).





End face_cache_reads.





(** ** Claims about shared edges and about precision *)

(** C2 does not hold of the code.  Nothing is ever added to [seenEdges], so
    the filter on it keeps every edge of every face: on the cube, whose twelve
    edges each lie on two of its six faces, one call of the face cache with an
    empty table makes twenty-four edge calls and returns twenty-four edges. *)
Theorem cube_edges_computed_per_face :
  let this := FaceCacheMeshCreator.Make ∅ cubeHistory in
  let r := run (FaceCacheMeshCreator.create this kernelOk (Item.OfSolid cube) sag1 plain
                  false) 0 in
  length (Solid.GetFaces cube) = 6 ∧
  length (Solid.GetEdges cube) = 12 ∧
  NoDup (Solid.GetEdges cube) ∧
  Forall (λ edge, length (filter (λ face, edge ∈ Face.GetEdges face) (Solid.GetFaces cube)) = 2)
         (Solid.GetEdges cube) ∧
  length (meshCallsOf (effs r)) = 24 ∧
  ∃ m, out r = Fulfilled m ∧ length (edges m) = 24.
Proof.
  intros this r.
  split; [reflexivity|]. split; [reflexivity|]. split; [by compute_done|].
  split; [by compute_done|]. split; [vm_compute; reflexivity|].
  vm_compute. eexists. split; reflexivity.
Qed.

(** C9. The face cache is keyed by lineage id alone.  In one session, over
    the stack [caching] builds, a call on the cube at sag 1 and, once it has
    settled, a call at sag 2 both get past the object cache, and the second
    returns for every face the entry the first stored, computed at sag 1,
    without a single kernel call. *)
Theorem face_cache_not_partitioned_by_precision :
  let r1 := ObjectCacheMeshCreator.create (countedPipeline kernelOk) (Item.OfSolid cube)
              sag1 plain false in
  let r2 := ObjectCacheMeshCreator.create r1.1 (Item.OfSolid cube) sag2 plain false in
  let trace1 := Pipeline.trace (Counting.inner (ObjectCacheMeshCreator.underlying r1.1)) in
  let trace2 := Pipeline.trace (Counting.inner (ObjectCacheMeshCreator.underlying r2.1)) in
  GetSag sag1 ≠ GetSag sag2 ∧
  Counting.calls (ObjectCacheMeshCreator.underlying r2.1)
    = [(Item.OfSolid cube, sag1, plain, false); (Item.OfSolid cube, sag2, plain, false)] ∧
  length (kernelCalls trace1) = 30 ∧
  kernelCalls trace2 = kernelCalls trace1 ∧
  ∃ m1 m2,
    result r1.2 = Fulfilled m1 ∧ result r2.2 = Fulfilled m2 ∧
    length (faces m2) = 6 ∧
    faces m2 = faces m1 ∧
    Forall (λ mb, grid_stepData <$> mb_grid mb = Some sag1 ∧
                  mb_position mb = [GetSag sag1]) (faces m2).
Proof.
  intros r1 r2 trace1 trace2.
  split; [done|]. split; [vm_compute; reflexivity|]. split; [vm_compute; reflexivity|].
  split; [vm_compute; reflexivity|].
  vm_compute. eexists _, _. split; [reflexivity|]. split; [reflexivity|].
  split; [reflexivity|]. split; [reflexivity|].
  repeat (constructor; [split; reflexivity|]). constructor.
Qed.

(** ** More about the loop of the face cache *)

Section layout.
Context (this : FaceCacheMeshCreator.t) (k : Kernel).
Context (stepData : StepData) (formNote : FormNote) (outlinesOnly : bool) (c : nat).

Local Abbreviation loopLayout := (loopLayout this k stepData formNote outlinesOnly c).
Local Abbreviation edgeTasksAt := (edgeTasksAt k stepData formNote outlinesOnly c).
Local Abbreviation cacheFaceAt := (cacheFaceAt this k stepData formNote outlinesOnly c).

Lemma numbered_snoc j (l : list (nat * Face.t)) x :
  numbered j (l ++ [x])
  = numbered j l ++ [(x, j + sum_list_with (λ x, length (Face.GetEdges x.2)) l)].
Proof.
  revert j. induction l as [|y l IH]; intros j; simpl.
  - by rewrite Nat.add_0_r.
  - rewrite IH. by rewrite Nat.add_assoc.
Qed.

Lemma bind_one {A B} (f : A → list B) (x : A) : [x] ≫= f = f x.
Proof. csimpl. apply app_nil_r. Qed.

Lemma kernelCalls_app es es' : kernelCalls (es ++ es') = kernelCalls es ++ kernelCalls es'.
Proof. apply filter_app. Qed.

Lemma kernelCalls_all es :
  Forall (λ se, isKernelCall se.2 = true) es → kernelCalls es = es.
Proof. intros Hall. apply filter_all. by apply Forall_forall. Qed.

Lemma kernelCalls_none es :
  Forall (λ se, isKernelCall se.2 = false) es → kernelCalls es = [].
Proof.
  unfold kernelCalls. induction 1 as [|se es Hse _ IH]; [done|].
  rewrite filter_cons_False; [done|]. by rewrite Hse.
Qed.

Lemma cacheWrites_app es es' :
  FaceCacheMeshCreator.cacheWrites (es ++ es')
  = FaceCacheMeshCreator.cacheWrites es ++ FaceCacheMeshCreator.cacheWrites es'.
Proof. apply omap_app. Qed.

Lemma cacheWrites_kernelCalls es :
  Forall (λ se, isKernelCall se.2 = true) es → FaceCacheMeshCreator.cacheWrites es = [].
Proof.
  intros Hall. apply omap_none. intros [t e] Hin.
  rewrite Forall_forall in Hall. specialize (Hall _ Hin). by destruct e.
Qed.

Lemma faceCalls_kernelCalls x :
  Forall (λ se, isKernelCall se.2 = true) (faceCalls stepData formNote c x).
Proof.
  apply Forall_cons. split; [done|]. apply Forall_forall.
  by intros se (edge & -> & _)%elem_of_meshCalls.
Qed.

Lemma cacheFace_effs_writes id isCacheable fp eps :
  Forall (λ se, isKernelCall se.2 = false)
         (effs (run (FaceCacheMeshCreator.cacheFace id isCacheable fp eps) c)).
Proof.
  rewrite run_cacheFace. destruct isCacheable; [|done].
  destruct (result fp); [|done]. destruct (result (Promise.all eps)); [|done].
  cbv zeta. destruct id; [|done]. by apply Forall_singleton.
Qed.

Lemma visit_hit_layout done st es i face entry :
  cacheHit this face = Some entry →
  loopLayout done st es →
  loopLayout (done ++ [(i, face)])
    (FaceCacheMeshCreator.MkLoop
       (FaceCacheMeshCreator.facePromises st) (FaceCacheMeshCreator.edgePromises st)
       (FaceCacheMeshCreator.cachedFaces st ++ [entry.1])
       (FaceCacheMeshCreator.cachedEdges st ++ entry.2)
       (FaceCacheMeshCreator.j st))
    es.
Proof.
  intros Hhit [].
  assert (filter (isMiss this) (done ++ [(i, face)]) = filter (isMiss this) done) as Hf.
  { rewrite filter_app, filter_cons_False, filter_nil, app_nil_r; [done|].
    unfold isMiss. cbn. by rewrite Hhit. }
  split; rewrite Hf; done.
Qed.

Lemma visit_miss_layout done st es i face :
  cacheHit this face = None →
  loopLayout done st es →
  let id := FaceCacheMeshCreator.history this !! Face.Id face in
  let isCacheable := negb (Face.GetOwnChanged face) && bool_decide (id ≠ None) in
  let facePromise := promised (ParallelMeshCreator.calculateFace k face stepData formNote i) c in
  let faceEdgePromises :=
    faceEdgeTasks k stepData formNote outlinesOnly c (FaceCacheMeshCreator.j st)
                  (Face.GetEdges face) in
  loopLayout (done ++ [(i, face)])
    (FaceCacheMeshCreator.MkLoop
       (FaceCacheMeshCreator.facePromises st ++ [facePromise])
       (FaceCacheMeshCreator.edgePromises st ++ faceEdgePromises)
       (FaceCacheMeshCreator.cachedFaces st) (FaceCacheMeshCreator.cachedEdges st)
       (FaceCacheMeshCreator.j st + length (Face.GetEdges face)))
    (es ++ (c, CalculateGrid face stepData (Quad formNote) (Fair formNote))
           :: meshCalls stepData formNote c (Face.GetEdges face)
           ++ effs (run (FaceCacheMeshCreator.cacheFace id isCacheable facePromise
                           faceEdgePromises) c)).
Proof.
  intros Hmiss [Hj Heps Hcalls Hwrites] id isCacheable fp eps.
  assert (filter (isMiss this) (done ++ [(i, face)])
          = filter (isMiss this) done ++ [(i, face)]) as Hf.
  { by rewrite filter_app, filter_cons_True, filter_nil. }
  assert (numbered 0 (filter (isMiss this) (done ++ [(i, face)]))
          = numbered 0 (filter (isMiss this) done)
            ++ [((i, face), FaceCacheMeshCreator.j st)]) as Hn.
  { by rewrite Hf, numbered_snoc, Hj. }
  set (written := effs _).
  change (_ :: _ ++ written) with (faceCalls stepData formNote c (i, face) ++ written).
  pose proof (faceCalls_kernelCalls (i, face)) as Hcalls'.
  pose proof (cacheFace_effs_writes id isCacheable fp eps) as Hwritten. fold written in Hwritten.
  split; cbn [FaceCacheMeshCreator.j FaceCacheMeshCreator.edgePromises].
  - rewrite Hf, sum_list_with_app, Hj. simpl. lia.
  - by rewrite Hn, bind_app, Heps, bind_one.
  - rewrite Hf, bind_app, !kernelCalls_app, Hcalls, bind_one. f_equal.
    by rewrite (kernelCalls_none written), app_nil_r, kernelCalls_all.
  - rewrite Hn, bind_app, !cacheWrites_app, Hwrites, bind_one. f_equal.
    by rewrite cacheWrites_kernelCalls.
Qed.

Lemma loopRun_layout faces :
  ∃ st es, loopRun this k stepData formNote outlinesOnly c faces = MkRes es c (Fulfilled st) ∧
           loopInv this k stepData formNote outlinesOnly c (entries faces) st es ∧
           loopLayout (entries faces) st es.
Proof.
  unfold loopRun.
  destruct (forEach_invariant
              (FaceCacheMeshCreator.visit this k stepData formNote outlinesOnly ∅) c
              (λ done st es, loopInv this k stepData formNote outlinesOnly c done st es ∧
                             loopLayout done st es))
    with (l := entries faces) (done := @nil (nat * Face.t))
         (st := FaceCacheMeshCreator.MkLoop [] [] [] [] 0) (es := @nil stamped)
    as (st & es & Hrun & Hinv & Hlay); [|split; [apply loopInv_nil|by split]|by eauto].
  intros done st es [i face] [Hinv Hlay].
  destruct (cacheHit this face) as [entry|] eqn:Hhit.
  - eexists _, []. split; [by apply run_visit_hit|].
    rewrite app_nil_r. split; [by apply visit_hit_loopInv|by apply visit_hit_layout].
  - eexists _, _. split; [by apply run_visit_miss|].
    split; [by apply visit_miss_loopInv|by apply visit_miss_layout].
Qed.

End layout.

(** ** Further properties of the creators *)

Section creators_more.
Context (k : Kernel) (stepData : StepData) (formNote : FormNote) (outlinesOnly : bool) (c : nat).

Lemma awaitBoth_kernelCalls {A B R} (body : list stamped) (fps : list (Promise.t A))
    (eps : list (Promise.t B)) (finish : list A → list B → R) :
  kernelCalls (effs (awaitBoth c ((c, EnterParallelRegion) :: body) fps eps finish))
  = kernelCalls body.
Proof.
  unfold awaitBoth. destruct (result (Promise.all fps)); [|done].
  destruct (result (Promise.all eps)); [|done].
  cbn [effs]. change (?x :: ?l) with ([x] ++ l) at 1.
  rewrite !kernelCalls_app. cbn. by rewrite app_nil_r.
Qed.

Lemma awaitBoth_cacheWrites {A B R} (body : list stamped) (fps : list (Promise.t A))
    (eps : list (Promise.t B)) (finish : list A → list B → R) :
  FaceCacheMeshCreator.cacheWrites
    (effs (awaitBoth c ((c, EnterParallelRegion) :: body) fps eps finish))
  = FaceCacheMeshCreator.cacheWrites body.
Proof.
  unfold awaitBoth. destruct (result (Promise.all fps)); [|done].
  destruct (result (Promise.all eps)); [|done].
  cbn [effs]. change (?x :: ?l) with ([x] ++ l) at 1.
  rewrite !cacheWrites_app. cbn. by rewrite app_nil_r.
Qed.

Lemma gridCalls_kernelCalls l :
  Forall (λ se, isKernelCall se.2 = true) (gridCalls stepData formNote c l).
Proof. apply Forall_forall. by intros se (face & -> & _)%elem_of_gridCalls. Qed.

Lemma meshCalls_kernelCalls l :
  Forall (λ se, isKernelCall se.2 = true) (meshCalls stepData formNote c l).
Proof. apply Forall_forall. by intros se (edge & -> & _)%elem_of_meshCalls. Qed.

Lemma faceCalls_faces (this : FaceCacheMeshCreator.t) (l : list (nat * Face.t)) :
  filter (isMiss this) l ≫= faceCalls stepData formNote c
  = filter (λ face, cacheHit this face = None) l.*2
      ≫= λ face, faceCalls stepData formNote c (0, face).
Proof.
  induction l as [|[i face] l IH]; [done|]. rewrite fmap_cons.
  destruct (decide (cacheHit this face = None)) as [Hmiss|Hhit].
  - rewrite !filter_cons_True by done. by rewrite !bind_cons, IH.
  - by rewrite !filter_cons_False.
Qed.

Lemma out_calculateEdge_fulfilled edge i v :
  out (run (ParallelMeshCreator.calculateEdge k edge stepData formNote outlinesOnly i) c)
    = Fulfilled v →
  v = firstOutline k stepData formNote outlinesOnly (i, edge) ∧
  ∃ mesh, result (CalculateMesh_async k edge stepData formNote) = Fulfilled mesh.
Proof.
  unfold ParallelMeshCreator.calculateEdge, firstOutline, outlines. run_step. cbn [fst snd].
  destruct (result (CalculateMesh_async _ _ _ _)) as [mesh|]; run_step; [|done].
  destruct (Mesh.GetEdges mesh outlinesOnly); run_step; intros [= <-]; eauto.
Qed.

Lemma edgeTasks_fulfilled (l : list (nat * CurveEdge)) vs :
  Forall2 (λ p v, result p = Fulfilled v) (edgeTasks k stepData formNote outlinesOnly c l) vs →
  defined vs = omap (firstOutline k stepData formNote outlinesOnly) l.
Proof.
  revert vs. induction l as [|[i edge] l IH]; intros vs.
  - by intros ->%Forall2_nil_inv_l.
  - intros (v & vs' & Hv & Hrest & ->)%Forall2_cons_inv_l.
    apply out_calculateEdge_fulfilled in Hv as [-> _].
    unfold defined in *. csimpl. by rewrite (IH vs').
Qed.

End creators_more.

Lemma parallel_kernelCalls (k : Kernel) (solid : Solid.t) (stepData : StepData)
    (formNote : FormNote) (outlinesOnly : bool) (c : nat) :
  kernelCalls (effs (run (ParallelMeshCreator.create k (Item.OfSolid solid) stepData formNote
                            outlinesOnly) c))
  = gridCalls stepData formNote c (Solid.GetFaces solid)
    ++ meshCalls stepData formNote c (Solid.GetEdges solid).
Proof.
  rewrite run_parallel_create, awaitBoth_kernelCalls. apply kernelCalls_all.
  apply Forall_app. split; [apply gridCalls_kernelCalls|apply meshCalls_kernelCalls].
Qed.

Lemma faceCache_kernelCalls (this : FaceCacheMeshCreator.t) (k : Kernel)
    (solid : Solid.t) (stepData : StepData) (formNote : FormNote) (outlinesOnly : bool)
    (c : nat) :
  kernelCalls (effs (run (FaceCacheMeshCreator.create this k (Item.OfSolid solid) stepData
                            formNote outlinesOnly) c))
  = filter (λ face, cacheHit this face = None) (Solid.GetFaces solid)
      ≫= λ face, faceCalls stepData formNote c (0, face).
Proof.
  destruct (loopRun_layout this k stepData formNote outlinesOnly c (Solid.GetFaces solid))
    as (st & es & Hrun & _ & [_ _ Hcalls _]).
  rewrite (run_faceCache_create _ _ _ _ _ _ _ _ _ Hrun), awaitBoth_kernelCalls, Hcalls.
  by rewrite faceCalls_faces, entries_snd.
Qed.

(** X1. The kernel calls of a [create] call on a solid, in the order they are
    made.  The parallel creator calls the kernel once for every face, in
    declared order, and then once for every edge of the solid.  The face cache
    makes no call for a face it reuses; for every other face, in declared
    order, it calls the kernel for the grid of the face and then for each edge
    of that face. *)
Theorem create_kernel_calls (this : FaceCacheMeshCreator.t) (k : Kernel)
    (solid : Solid.t) (stepData : StepData) (formNote : FormNote) (outlinesOnly : bool)
    (c : nat) :
  kernelCalls (effs (run (ParallelMeshCreator.create k (Item.OfSolid solid) stepData formNote
                            outlinesOnly) c))
  = gridCalls stepData formNote c (Solid.GetFaces solid)
    ++ meshCalls stepData formNote c (Solid.GetEdges solid) ∧
  kernelCalls (effs (run (FaceCacheMeshCreator.create this k (Item.OfSolid solid) stepData
                            formNote outlinesOnly) c))
  = filter (λ face, cacheHit this face = None) (Solid.GetFaces solid)
      ≫= λ face, faceCalls stepData formNote c (0, face).
Proof. split; [apply parallel_kernelCalls|apply faceCache_kernelCalls]. Qed.

(** X2. What the parallel creator returns for a solid when it returns: one
    buffer for every face, holding the index, position and normal buffers the
    kernel computed for that face, its style and name, and the step data of the
    call; and, for every edge of the solid whose mesh has an outline, in the
    order of the edges, the first outline, with the edge and its number.  An
    edge whose mesh has no outline gives nothing. *)
Theorem parallel_create_result (k : Kernel) (solid : Solid.t) (stepData : StepData)
    (formNote : FormNote) (outlinesOnly : bool) (c : nat) (m : MeshLike) :
  out (run (ParallelMeshCreator.create k (Item.OfSolid solid) stepData formNote
              outlinesOnly) c) = Fulfilled m →
  Forall2 (λ face mb,
             ∃ bufs, result (CalculateGrid_async k face stepData (Quad formNote)
                               (Fair formNote)) = Fulfilled bufs ∧
                     mb_index mb = gb_index bufs ∧ mb_position mb = gb_position bufs ∧
                     mb_normal mb = gb_normal bufs ∧
                     mb_model mb = Some face ∧
                     (grid_stepData <$> mb_grid mb) = Some stepData)
          (Solid.GetFaces solid) (faces m) ∧
  edges m = omap (firstOutline k stepData formNote outlinesOnly)
                 (entries (Solid.GetEdges solid)).
Proof.
  rewrite run_parallel_create. intros Hout.
  apply awaitBoth_fulfilled in Hout as (xs & ys & Hxs & Hys & -> & _). cbn [faces edges].
  split.
  - apply all_fulfilled_values in Hxs. rewrite <-(entries_snd (Solid.GetFaces solid)).
    generalize dependent xs. generalize (entries (Solid.GetFaces solid)). intros l.
    induction l as [|[i face] l IH]; intros xs.
    + intros ->%Forall2_nil_inv_l. constructor.
    + intros (mb & xs' & Hmb & Hrest & ->)%Forall2_cons_inv_l.
      rewrite fmap_cons. constructor; [|by apply IH].
      apply out_calculateFace_fulfilled in Hmb as (? & ? & ? & bufs & ? & ? & ? & ?).
      exists bufs. auto 10.
  - by apply all_fulfilled_values, edgeTasks_fulfilled in Hys.
Qed.

Lemma parallel_create_result_witness :
  ∃ m, out (run (ParallelMeshCreator.create kernelOk (Item.OfSolid cube) sag1 plain
                   false) 0) = Fulfilled m ∧
       length (faces m) = 6 ∧
       edges m = omap (firstOutline kernelOk sag1 plain false) (entries cubeEdges) ∧
       length (edges m) = 12.
Proof.
  destruct (out (run (ParallelMeshCreator.create kernelOk (Item.OfSolid cube) sag1 plain
                        false) 0)) as [m|] eqn:Hout; [|by vm_compute in Hout].
  exists m.
  destruct (parallel_create_result kernelOk cube sag1 plain false 0 m Hout) as [Hfaces Hedges].
  split; [done|]. split; [by rewrite <-(Forall2_length _ _ _ Hfaces)|].
  split; [exact Hedges|]. by rewrite Hedges.
Defined.

Section linked_more.
Context {A B R : Type} (k : Kernel).
Context (c : nat) (body : list stamped).
Context (fps : list (Promise.t A)) (eps : list (Promise.t B)) (finish : list A → list B → R).
Context (Hlinked : linked k c body fps eps).

Local Abbreviation r := (awaitBoth c ((c, EnterParallelRegion) :: body) fps eps finish).

Lemma linked_fulfilled_iff :
  (∃ m, out r = Fulfilled m) ↔ ∀ se, se ∈ effs r → taskReason k se.2 = None.
Proof.
  split.
  - intros [m Hout] se Hse. destruct (taskReason k se.2) as [e|] eqn:Hreason; [|done].
    destruct (linked_rejects k c body fps eps finish Hlinked se e Hse Hreason)
      as (e' & _ & Hrej & _). congruence.
  - intros Hnone. destruct (out r) as [m|e] eqn:Hout; [by eauto|].
    destruct Hlinked as (_ & _ & Hfps & Heps).
    destruct (awaitBoth_rejected _ _ _ _ _ _ Hout) as [_ [(p & Hp & Hrej)|(p & Hp & Hrej)]].
    + destruct (Hfps _ Hp) as (se & Hse & _ & _ & Hiff).
      apply Hiff in Hrej. rewrite Hnone in Hrej; [done|].
      by apply (linked_body_effs c body fps eps finish).
    + destruct (Heps _ Hp) as (se & Hse & _ & _ & Hiff).
      apply Hiff in Hrej. rewrite Hnone in Hrej; [done|].
      by apply (linked_body_effs c body fps eps finish).
Qed.

Lemma max_list_cons (x : nat) (l : list nat) : max_list (x :: l) = x `max` max_list l.
Proof. reflexivity. Qed.

Lemma max_list_le (l : list nat) (n : nat) : (∀ t, t ∈ l → t ≤ n) → max_list l ≤ n.
Proof.
  induction l as [|x l IH]; intros Hle; [simpl; lia|].
  rewrite max_list_cons. apply Nat.max_lub; [apply Hle; by left|].
  apply IH. intros t Ht. apply Hle. by right.
Qed.

Lemma all_fulfilled_latest {T} (ps : list (Promise.t T)) l :
  result (Promise.all ps) = Fulfilled l →
  at_tick (Promise.all ps) = 0 ∨ ∃ p, p ∈ ps ∧ at_tick p = at_tick (Promise.all ps).
Proof.
  revert l. induction ps as [|q ps IH]; intros l; simpl; [by left|].
  destruct (result q) eqn:Hq, (result (Promise.all ps)) eqn:Hr; simpl;
    try (case_match; simpl); try discriminate.
  intros _. right.
  destruct (Nat.max_spec (at_tick q) (at_tick (Promise.all ps))) as [[? ->]|[? ->]].
  - destruct (IH _ eq_refl) as [H0|(p & Hp & Heq)].
    + exfalso. clear -H H0. by rewrite H0 in H; apply Nat.nlt_0_r in H.
    + exists p. split; [by right|done].
  - exists q. split; [by left|done].
Qed.

Lemma linked_settles m :
  out r = Fulfilled m →
  clk r = max_list (c :: ((λ se, taskTick k se.2) <$> kernelCalls (effs r))).
Proof.
  intros Hout.
  destruct (linked_fulfilled k c body fps eps finish Hlinked false m Hout)
    as (Heffs & Hticks & _).
  apply Nat.le_antisymm.
  - destruct (awaitBoth_fulfilled _ _ _ _ _ _ Hout) as (xs & ys & Hxs & Hys & _).
    destruct Hlinked as (_ & _ & Hfps & Heps).
    assert (∀ se, se ∈ body → isKernelCall se.2 = true →
              taskTick k se.2 ≤ max_list (c :: ((λ se, taskTick k se.2) <$> kernelCalls (effs r))))
      as Hle.
    { intros se Hse Hk. rewrite max_list_cons. etrans; [|apply Nat.le_max_r].
      apply max_list_elem_of_le, list_elem_of_fmap. exists se. split; [done|].
      apply list_elem_of_filter. split; [done|].
      by apply (linked_body_effs c body fps eps finish). }
    assert (c ≤ max_list (c :: ((λ se, taskTick k se.2) <$> kernelCalls (effs r)))) as Hc
      by (rewrite max_list_cons; lia).
    assert (at_tick (Promise.all fps)
            ≤ max_list (c :: ((λ se, taskTick k se.2) <$> kernelCalls (effs r)))) as Hf.
    { destruct (all_fulfilled_latest _ _ Hxs) as [->|(p & Hp & <-)]; [lia|].
      destruct (Hfps _ Hp) as (se & Hse & Hk & -> & _). specialize (Hle _ Hse Hk). lia. }
    assert (at_tick (Promise.all eps)
            ≤ max_list (c :: ((λ se, taskTick k se.2) <$> kernelCalls (effs r)))) as He.
    { destruct (all_fulfilled_latest _ _ Hys) as [->|(p & Hp & <-)]; [lia|].
      destruct (Heps _ Hp) as (se & Hse & Hk & -> & _). specialize (Hle _ Hse Hk). lia. }
    unfold awaitBoth at 1. rewrite Hxs, Hys. cbn [clk]. lia.
  - rewrite max_list_cons. apply Nat.max_lub.
    + by destruct (awaitBoth_fulfilled _ _ _ _ _ _ Hout) as (? & ? & _ & _ & _ & _ & ? & _).
    + apply max_list_le. intros t (se & -> & Hse)%list_elem_of_fmap.
      apply list_elem_of_filter in Hse as [Hk Hse]. by apply Hticks.
Qed.

End linked_more.

(** X3. A [create] call on a solid returns a mesh exactly when none of the
    kernel tasks it started is rejected: failures come from the kernel only.
    This holds of the parallel creator and of the face cache. *)
Theorem create_returns_iff_no_task_rejected (this : FaceCacheMeshCreator.t) (k : Kernel)
    (solid : Solid.t) (stepData : StepData) (formNote : FormNote) (outlinesOnly : bool)
    (c : nat) :
  let rp := run (ParallelMeshCreator.create k (Item.OfSolid solid) stepData formNote
                   outlinesOnly) c in
  let rf := run (FaceCacheMeshCreator.create this k (Item.OfSolid solid) stepData formNote
                   outlinesOnly) c in
  ((∃ m, out rp = Fulfilled m) ↔ ∀ se, se ∈ effs rp → taskReason k se.2 = None) ∧
  ((∃ m, out rf = Fulfilled m) ↔ ∀ se, se ∈ effs rf → taskReason k se.2 = None).
Proof.
  intros rp rf. split.
  - subst rp. rewrite run_parallel_create. apply linked_fulfilled_iff, parallel_linked.
  - subst rf.
    destruct (loopRun_loopInv this k stepData formNote outlinesOnly c (Solid.GetFaces solid))
      as (st & es & Hrun & Hinv).
    rewrite (run_faceCache_create _ _ _ _ _ _ _ _ _ Hrun).
    eapply linked_fulfilled_iff, faceCache_linked, Hinv.
Qed.

(** X4. A [create] call on a solid that returns a mesh settles exactly when
    the last of its kernel tasks settles, and at the tick of the call when it
    starts none or all have settled before: awaiting adds no tick.  This holds
    of the parallel creator and of the face cache. *)
Theorem create_settles_with_last_task (this : FaceCacheMeshCreator.t) (k : Kernel)
    (solid : Solid.t) (stepData : StepData) (formNote : FormNote) (outlinesOnly : bool)
    (c : nat) (m : MeshLike) :
  let rp := run (ParallelMeshCreator.create k (Item.OfSolid solid) stepData formNote
                   outlinesOnly) c in
  let rf := run (FaceCacheMeshCreator.create this k (Item.OfSolid solid) stepData formNote
                   outlinesOnly) c in
  (out rp = Fulfilled m →
   clk rp = max_list (c :: ((λ se, taskTick k se.2) <$> kernelCalls (effs rp)))) ∧
  (out rf = Fulfilled m →
   clk rf = max_list (c :: ((λ se, taskTick k se.2) <$> kernelCalls (effs rf)))).
Proof.
  intros rp rf. split.
  - subst rp. rewrite run_parallel_create. apply linked_settles, parallel_linked.
  - subst rf.
    destruct (loopRun_loopInv this k stepData formNote outlinesOnly c (Solid.GetFaces solid))
      as (st & es & Hrun & Hinv).
    rewrite (run_faceCache_create _ _ _ _ _ _ _ _ _ Hrun).
    eapply linked_settles, faceCache_linked, Hinv.
Qed.

Lemma create_settles_with_last_task_witness :
  let this := FaceCacheMeshCreator.Make ∅ cubeHistory in
  let rp := run (ParallelMeshCreator.create kernelOk (Item.OfSolid cube) sag1 plain false) 5 in
  let rf := run (FaceCacheMeshCreator.create this kernelOk (Item.OfSolid cube) sag1 plain
                   false) 5 in
  (∃ m, out rp = Fulfilled m) ∧ (∃ m, out rf = Fulfilled m) ∧
  clk rp = max_list (5 :: ((λ se, taskTick kernelOk se.2) <$> kernelCalls (effs rp))) ∧
  clk rf = max_list (5 :: ((λ se, taskTick kernelOk se.2) <$> kernelCalls (effs rf))) ∧
  clk rf = 12.
Proof.
  intros this rp rf.
  destruct (out rp) as [mp|] eqn:Hrp; [|by vm_compute in Hrp].
  destruct (out rf) as [mf|] eqn:Hrf; [|by vm_compute in Hrf].
  split; [by eauto|]. split; [by eauto|].
  pose proof (create_settles_with_last_task this kernelOk cube sag1 plain false 5 mp) as Hp.
  pose proof (create_settles_with_last_task this kernelOk cube sag1 plain false 5 mf) as Hf.
  cbv zeta in Hp, Hf. destruct Hp as [Hp _]. destruct Hf as [_ Hf].
  split; [exact (Hp Hrp)|]. split; [exact (Hf Hrf)|]. reflexivity.
Defined.

Lemma filter_none {A} (P : A → Prop) `{∀ x, Decision (P x)} (l : list A) :
  (∀ x, x ∈ l → ¬ P x) → filter P l = [].
Proof.
  induction l as [|x l IH]; intros Hall; [done|].
  rewrite filter_cons_False by (apply Hall; left).
  apply IH. intros y Hy. apply Hall. by right.
Qed.

Lemma settled_no_writes (this : FaceCacheMeshCreator.t) (es : list stamped) :
  FaceCacheMeshCreator.cacheWrites es = [] → FaceCacheMeshCreator.settled this es = this.
Proof.
  unfold FaceCacheMeshCreator.settled. intros ->. by destruct this.
Qed.

Lemma faceCache_create_hits (this : FaceCacheMeshCreator.t) (k : Kernel)
    (solid : Solid.t) (stepData : StepData) (formNote : FormNote) (outlinesOnly : bool)
    (c : nat) :
  (∀ face, face ∈ Solid.GetFaces solid → is_Some (cacheHit this face)) →
  run (FaceCacheMeshCreator.create this k (Item.OfSolid solid) stepData formNote
         outlinesOnly) c
  = MkRes [(c, EnterParallelRegion); (c, ExitParallelRegion)] c
      (Fulfilled
         {| faces := omap (λ face, fst <$> cacheHit this face) (Solid.GetFaces solid);
            edges := omap (cacheHit this) (Solid.GetFaces solid) ≫= snd |}).
Proof.
  intros Hhits.
  destruct (loopRun_layout this k stepData formNote outlinesOnly c (Solid.GetFaces solid))
    as (st & es & Hrun & Hinv & Hlay).
  rewrite (run_faceCache_create _ _ _ _ _ _ _ _ _ Hrun).
  assert (filter (isMiss this) (entries (Solid.GetFaces solid)) = []) as Hnone.
  { apply filter_none. intros [i face] Hin.
    unfold isMiss. cbn. destruct (Hhits face) as [entry ->]; [|done].
    apply elem_of_entries. eauto. }
  destruct Hinv, Hlay. rewrite Hnone in *.
  assert (es = []) as ->.
  { destruct es as [|se es]; [done|]. apply Forall_cons in inv_accounted0 as [Hse _].
    exfalso. assert (∀ i face, (i, face) ∈ entries (Solid.GetFaces solid) →
                       cacheHit this face = None → False) as Hno.
    { intros i face Hin Hmiss. destruct (Hhits face) as [entry Hentry]; [|congruence].
      apply elem_of_entries. eauto. }
    unfold accounted in Hse. destruct se as [t []]; cbn in Hse; [done|done| | |done| ].
    - destruct Hse as (_ & _ & _ & _ & i & Hin & Hmiss & _). eauto.
    - destruct Hse as (_ & _ & _ & i & face' & n & Hin & Hmiss & _). eauto.
    - destruct Hse as (i & face' & Hin & Hch & Hlid & Hnone' & _).
      apply (Hno i face' Hin). unfold cacheHit. rewrite Hch, Hlid. done. }
  rewrite inv_facePromises0, layout_edgePromises0, inv_cachedFaces0, inv_cachedEdges0.
  unfold awaitBoth. cbn.
  rewrite (omap_entries (λ face, fst <$> cacheHit this face)),
          (omap_entries (cacheHit this)), !app_nil_r.
  by rewrite !Nat.max_0_r.
Qed.

(** X5. When the face cache can reuse every face of a solid, [create] makes
    no kernel call and awaits nothing: it enters and leaves the region at the
    tick of the call and returns, at that tick, the stored buffer of every
    face, in declared order, and the stored edges of the faces, face after
    face.  The table is left as it was. *)
Theorem face_cache_all_hits (this : FaceCacheMeshCreator.t) (k : Kernel)
    (solid : Solid.t) (stepData : StepData) (formNote : FormNote) (outlinesOnly : bool)
    (c : nat) :
  (∀ face, face ∈ Solid.GetFaces solid → is_Some (cacheHit this face)) →
  let r := run (FaceCacheMeshCreator.create this k (Item.OfSolid solid) stepData formNote
                  outlinesOnly) c in
  r = MkRes [(c, EnterParallelRegion); (c, ExitParallelRegion)] c
        (Fulfilled
           {| faces := omap (λ face, fst <$> cacheHit this face) (Solid.GetFaces solid);
              edges := omap (cacheHit this) (Solid.GetFaces solid) ≫= snd |}) ∧
  length (omap (λ face, fst <$> cacheHit this face) (Solid.GetFaces solid))
    = length (Solid.GetFaces solid) ∧
  FaceCacheMeshCreator.settled this (effs r) = this.
Proof.
  intros Hhits r.
  pose proof (faceCache_create_hits this k solid stepData formNote outlinesOnly c Hhits) as Hr.
  fold r in Hr.
  split; [done|]. split.
  - clear Hr r. induction (Solid.GetFaces solid) as [|face l IH]; [done|].
    csimpl. destruct (Hhits face) as [entry ->]; [by left|]. cbn.
    rewrite IH; [done|]. intros f Hf. apply Hhits. by right.
  - rewrite Hr. by apply settled_no_writes.
Qed.

Lemma face_cache_all_hits_witness :
  let r := run (FaceCacheMeshCreator.create primed kernelFailing (Item.OfSolid cube) sag2
                  plain true) 30 in
  (∀ face, face ∈ Solid.GetFaces cube → is_Some (cacheHit primed face)) ∧
  effs r = [(30, EnterParallelRegion); (30, ExitParallelRegion)] ∧
  clk r = 30 ∧
  FaceCacheMeshCreator.settled primed (effs r) = primed.
Proof.
  intros r.
  assert (∀ face, face ∈ Solid.GetFaces cube → is_Some (cacheHit primed face)) as Hhits.
  { intros face Hface. cbn in Hface.
    repeat (apply elem_of_cons in Hface as [->|Hface]; [by vm_compute; eauto|]).
    by apply elem_of_nil in Hface. }
  destruct (face_cache_all_hits primed kernelFailing cube sag2 plain true 30 Hhits)
    as (Hr & _ & Hsettled).
  split; [exact Hhits|]. subst r. rewrite Hr in Hsettled |- *. cbn [effs clk] in *.
  split; [reflexivity|]. split; [reflexivity|exact Hsettled].
Defined.

(** X6. An item that is not a solid goes to the basic creator, through the
    parallel creator and through the face cache alike: the call makes one
    kernel call, for the mesh of the whole item, does not enter the parallel
    region and writes nothing to the face cache.  It settles when the kernel
    task does, with the buffers and the edges of the mesh the kernel made, or
    rejected with the reason the task is rejected with. *)
Theorem create_not_a_solid (this : FaceCacheMeshCreator.t) (k : Kernel) (id : Z)
    (stepData : StepData) (formNote : FormNote) (outlinesOnly : bool) (c : nat) :
  let obj := Item.Other id in
  let task := CreateMesh_async k obj stepData formNote in
  let rp := run (ParallelMeshCreator.create k obj stepData formNote outlinesOnly) c in
  let rf := run (FaceCacheMeshCreator.create this k obj stepData formNote outlinesOnly) c in
  rf = rp ∧
  effs rp = [(c, CreateMesh obj stepData formNote)] ∧
  clk rp = c `max` at_tick task ∧
  (∀ mesh, result task = Fulfilled mesh →
     out rp = Fulfilled {| faces := Mesh.GetBuffers mesh;
                           edges := Mesh.GetEdges mesh outlinesOnly |}) ∧
  (∀ e, result task = Rejected e → out rp = Rejected e) ∧
  (∀ b, inParallelRegion b (effs rp) = b) ∧
  FaceCacheMeshCreator.settled this (effs rf) = this.
Proof.
  intros obj task rp rf. subst rp rf.
  unfold FaceCacheMeshCreator.create, ParallelMeshCreator.create, obj,
    BasicMeshCreator.create.
  run_step. fold obj. fold task.
  destruct (result task) as [mesh|e] eqn:Htask; run_step.
  - repeat split; try done.
    + by intros mesh' [= <-].
    + by apply settled_no_writes.
  - repeat split; try done.
    + by intros e' [= <-].
    + by apply settled_no_writes.
Qed.

(** ** The face cache after a first call on a solid *)

Lemma all_app_fulfilled {T} (ps qs : list (Promise.t T)) l :
  result (Promise.all (ps ++ qs)) = Fulfilled l →
  ∃ l1 l2, l = l1 ++ l2 ∧ result (Promise.all ps) = Fulfilled l1 ∧
           result (Promise.all qs) = Fulfilled l2.
Proof.
  revert l. induction ps as [|p ps IH]; intros l Hl; cbn [app] in Hl.
  - by exists [], l.
  - cbn [Promise.all] in Hl |- *.
    destruct (result p) as [a|] eqn:Hp.
    + destruct (result (Promise.all (ps ++ qs))) as [l'|] eqn:Hr; [|done].
      injection Hl as <-. destruct (IH _ eq_refl) as (l1 & l2 & -> & Hl1 & Hl2).
      rewrite Hl1. cbn [result]. by exists (a :: l1), l2.
    + destruct (result (Promise.all (ps ++ qs))); [done|].
      by destruct (_ <=? _).
Qed.

Lemma omap_Forall2 {A B} (f : A → option B) (l : list A) (l' : list B) :
  Forall2 (λ x y, f x = Some y) l l' → omap f l = l'.
Proof. induction 1 as [|x y l l' Hx _ IH]; [done|]. csimpl. by rewrite Hx, IH. Qed.

Lemma lookup_writes_NoDup (table : gmap Z (MeshBuffer * list EdgeBuffer))
    (ws : list (nat * (Z * (MeshBuffer * list EdgeBuffer)))) w :
  NoDup ws.*2.*1 → w ∈ ws →
  foldl (λ m w, <[w.2.1 := w.2.2]> m) table ws !! w.2.1 = Some w.2.2.
Proof.
  revert table. induction ws as [|w0 ws IH]; intros table Hdup Hin.
  { by apply elem_of_nil in Hin. }
  rewrite !fmap_cons in Hdup. apply NoDup_cons in Hdup as [Hfresh Hdup].
  cbn [foldl]. apply elem_of_cons in Hin as [->|Hin]; [|by apply IH].
  rewrite lookup_writes_other; [by rewrite lookup_insert_eq|].
  intros w' Hw' Heq. apply Hfresh. rewrite <-Heq.
  apply list_elem_of_fmap. exists w'.2. split; [done|].
  apply list_elem_of_fmap. by exists w'.
Qed.

Section fill.
Context (this : FaceCacheMeshCreator.t) (k : Kernel).
Context (stepData : StepData) (formNote : FormNote) (outlinesOnly : bool) (c : nat).

(** The writes of a loop none of whose tasks is rejected: one for every face
    that reports no change and has a lineage id, under that id, holding the
    buffer computed for the face and the outlines computed for its edges. *)
Lemma fill_writes (l : list (nat * Face.t)) j xs ys :
  Forall (λ x, Face.GetOwnChanged x.2 = false ∧ is_Some (lineage this x.2)) l →
  Forall2 (λ p x, result p = Fulfilled x) (faceTasks k stepData formNote c l) xs →
  result (Promise.all (numbered j l ≫= edgeTasksAt k stepData formNote outlinesOnly c))
    = Fulfilled ys →
  ∃ ws, FaceCacheMeshCreator.cacheWrites
          (numbered j l ≫= cacheFaceAt this k stepData formNote outlinesOnly c) = ws ∧
        Forall2 (λ x w, lineage this x.2 = Some w.2.1) l ws ∧
        ws.*2.*2.*1 = xs ∧ ws.*2.*2 ≫= snd = defined ys.
Proof.
  revert j xs ys. induction l as [|[i face] l IH]; intros j xs ys Hall Hxs Hys.
  - apply Forall2_nil_inv_l in Hxs as ->. cbn in Hys. injection Hys as <-.
    exists []. by split_and!.
  - apply Forall_cons in Hall as [[Hunchanged [lid Hlid]] Hall].
    unfold faceTasks in Hxs. rewrite fmap_cons in Hxs.
    apply Forall2_cons_inv_l in Hxs as (x & xs' & Hx & Hxs' & ->).
    cbn [numbered] in *. rewrite bind_cons in Hys. rewrite bind_cons.
    apply all_app_fulfilled in Hys as (ys1 & ys2 & -> & Hys1 & Hys2).
    destruct (IH _ _ _ Hall Hxs' Hys2) as (ws & Hws & Hlids & Hfst & Hsnd).
    rewrite cacheWrites_app, Hws.
    unfold cacheFaceAt at 1. cbn [fst snd] in *. unfold lineage in Hlid.
    rewrite run_cacheFace, Hlid, Hunchanged. cbn [negb andb bool_decide].
    rewrite bool_decide_true by done. cbn [result promised] in Hx |- *.
    rewrite Hx, Hys1. cbn [effs FaceCacheMeshCreator.cacheWrites omap].
    eexists. split; [reflexivity|]. split_and!.
    + constructor; [done|done].
    + cbn. by rewrite Hfst.
    + cbn. unfold defined. by rewrite omap_app, Hsnd.
Qed.

End fill.

Lemma faceCache_create_again (this : FaceCacheMeshCreator.t) (k k' : Kernel)
    (solid : Solid.t) (stepData stepData' : StepData) (formNote formNote' : FormNote)
    (outlinesOnly outlinesOnly' : bool) (c c' : nat) (m : MeshLike) :
  let r1 := run (FaceCacheMeshCreator.create this k (Item.OfSolid solid) stepData formNote
                   outlinesOnly) c in
  (∀ face, face ∈ Solid.GetFaces solid →
     Face.GetOwnChanged face = false ∧ is_Some (lineage this face) ∧
     cacheHit this face = None) →
  NoDup (omap (lineage this) (Solid.GetFaces solid)) →
  out r1 = Fulfilled m →
  run (FaceCacheMeshCreator.create (FaceCacheMeshCreator.settled this (effs r1)) k'
         (Item.OfSolid solid) stepData' formNote' outlinesOnly') c'
  = MkRes [(c', EnterParallelRegion); (c', ExitParallelRegion)] c' (Fulfilled m).
Proof.
  intros r1 Hfaces Hdup Hout.
  destruct (loopRun_layout this k stepData formNote outlinesOnly c (Solid.GetFaces solid))
    as (st & es & Hrun & Hinv & Hlay).
  subst r1. rewrite (run_faceCache_create _ _ _ _ _ _ _ _ _ Hrun) in Hout |- *.
  assert (∀ x, x ∈ entries (Solid.GetFaces solid) → x.2 ∈ Solid.GetFaces solid) as Hin.
  { intros [i face] Hx. apply elem_of_entries. eauto. }
  assert (filter (isMiss this) (entries (Solid.GetFaces solid))
          = entries (Solid.GetFaces solid)) as Hmiss.
  { apply filter_all. intros x Hx. by apply Hfaces, Hin. }
  destruct Hinv as [Hcf Hce Hfp _ _ _ _ _], Hlay as [_ Hep _ Hws]. rewrite Hmiss in *.
  rewrite omap_none in Hcf by (intros x Hx; destruct (Hfaces _ (Hin _ Hx)) as (_ & _ & ->); done).
  rewrite omap_none in Hce by (intros x Hx; by apply Hfaces, Hin).
  apply awaitBoth_fulfilled in Hout as (xs & ys & Hxs & Hys & -> & _).
  rewrite Hcf, Hce. cbn [app mbind]. rewrite Hfp in Hxs. rewrite Hep in Hys.
  apply all_fulfilled_values in Hxs.
  destruct (fill_writes this k stepData formNote outlinesOnly c
              (entries (Solid.GetFaces solid)) 0 xs ys) as (ws & Hws' & Hlids & Hfst & Hsnd);
    [|done|done|].
  { apply Forall_forall. intros x Hx. destruct (Hfaces _ (Hin _ Hx)) as (? & ? & _). done. }
  set (this' := FaceCacheMeshCreator.settled this _).
  assert (Forall2 (λ x w, cacheHit this' x.2 = Some w.2.2)
                  (entries (Solid.GetFaces solid)) ws) as Hhits.
  { assert (FaceCacheMeshCreator.faceCache this'
            = foldl (λ m w, <[w.2.1 := w.2.2]> m) (FaceCacheMeshCreator.faceCache this)
                    (merge_sort FaceCacheMeshCreator.earlier ws)) as Htable.
    { subst this'. unfold FaceCacheMeshCreator.settled.
      cbn [FaceCacheMeshCreator.faceCache]. by rewrite awaitBoth_cacheWrites, Hws, Hws'. }
    assert (NoDup (merge_sort FaceCacheMeshCreator.earlier ws).*2.*1) as Hdup'.
    { rewrite merge_sort_Permutation.
      rewrite <-(omap_entries (lineage this)) in Hdup.
      rewrite (omap_Forall2 _ _ (ws.*2.*1)) in Hdup; [done|].
      by apply Forall2_fmap_r, Forall2_fmap_r. }
    apply Forall2_same_length_lookup. split; [by eapply Forall2_length|].
    intros n x w Hx Hw.
    pose proof (Forall2_lookup_r _ _ _ _ _ Hlids Hw) as (x' & Hx' & Hlid).
    apply list_elem_of_lookup_2 in Hx as Hxin.
    assert (x' = x) as -> by congruence.
    destruct (Hfaces _ (Hin _ Hxin)) as (Hunchanged & _ & _).
    unfold cacheHit. rewrite Hunchanged.
    change (FaceCacheMeshCreator.history this') with (FaceCacheMeshCreator.history this).
    unfold lineage in Hlid. rewrite Hlid. cbn [mbind option_bind]. rewrite Htable.
    apply lookup_writes_NoDup; [done|].
    rewrite merge_sort_Permutation. by eapply list_elem_of_lookup_2. }
  rewrite faceCache_create_hits.
  - rewrite <-(omap_entries (λ face, fst <$> cacheHit this' face)),
            <-(omap_entries (cacheHit this')).
    rewrite (omap_Forall2 (λ x, cacheHit this' x.2) _ (ws.*2.*2))
      by (by apply Forall2_fmap_r, Forall2_fmap_r).
    rewrite (omap_Forall2 (λ x, fst <$> cacheHit this' x.2) _ (ws.*2.*2.*1)).
    + by rewrite Hfst, Hsnd.
    + do 3 apply Forall2_fmap_r. eapply Forall2_impl; [exact Hhits|].
      intros x w ->. done.
  - intros face [i Hface]%elem_of_entries.
    apply list_elem_of_lookup in Hface as [n Hn].
    destruct (Forall2_lookup_l _ _ _ _ _ Hhits Hn) as (w & _ & Hw). by exists w.2.2.
Qed.

(** X7. What the face cache is for.  Let a first [create] on a solid return a
    mesh, where every face reports no change, has a lineage id of its own and
    has no entry in the table yet.  Once the writes of that call have
    happened, and as long as the copier knows the same lineage ids, every
    later [create] on the solid, with whatever kernel, step data, form note
    and outline flag, makes no kernel call and returns at once the mesh the
    first call returned. *)
Theorem face_cache_second_call_same_mesh (this : FaceCacheMeshCreator.t) (k k' : Kernel)
    (solid : Solid.t) (stepData stepData' : StepData) (formNote formNote' : FormNote)
    (outlinesOnly outlinesOnly' : bool) (c c' : nat) (m : MeshLike) :
  let r1 := run (FaceCacheMeshCreator.create this k (Item.OfSolid solid) stepData formNote
                   outlinesOnly) c in
  (∀ face, face ∈ Solid.GetFaces solid →
     Face.GetOwnChanged face = false ∧ is_Some (lineage this face) ∧
     cacheHit this face = None) →
  NoDup (omap (lineage this) (Solid.GetFaces solid)) →
  out r1 = Fulfilled m →
  run (FaceCacheMeshCreator.create (FaceCacheMeshCreator.settled this (effs r1)) k'
         (Item.OfSolid solid) stepData' formNote' outlinesOnly') c'
  = MkRes [(c', EnterParallelRegion); (c', ExitParallelRegion)] c' (Fulfilled m).
Proof.
  intros r1 Hfaces Hdup Hout. by apply faceCache_create_again.
Qed.

Lemma face_cache_second_call_same_mesh_witness :
  let this := FaceCacheMeshCreator.Make ∅ cubeHistory in
  let r1 := run (FaceCacheMeshCreator.create this kernelOk (Item.OfSolid cube) sag1 plain
                   false) 0 in
  ∃ m, out r1 = Fulfilled m ∧ length (faces m) = 6 ∧
       run (FaceCacheMeshCreator.create (FaceCacheMeshCreator.settled this (effs r1))
              kernelFailing (Item.OfSolid cube) sag2 plain true) 30
       = MkRes [(30, EnterParallelRegion); (30, ExitParallelRegion)] 30 (Fulfilled m).
Proof.
  intros this r1.
  assert (∀ face, face ∈ Solid.GetFaces cube →
            Face.GetOwnChanged face = false ∧ is_Some (lineage this face) ∧
            cacheHit this face = None) as Hfaces.
  { intros face Hface. cbn in Hface.
    repeat (apply elem_of_cons in Hface as [->|Hface];
            [split; [reflexivity|]; split; [vm_compute; eauto|vm_compute; reflexivity]|]).
    by apply elem_of_nil in Hface. }
  assert (NoDup (omap (lineage this) (Solid.GetFaces cube))) as Hdup.
  { apply (bool_decide_unpack _). vm_compute. exact I. }
  destruct (out r1) as [m|] eqn:Hout; [|by vm_compute in Hout].
  exists m. split; [exact eq_refl|]. split.
  { vm_compute in Hout. injection Hout as <-. reflexivity. }
  exact (face_cache_second_call_same_mesh this kernelOk kernelFailing cube sag1 sag2
           plain plain false true 0 30 m Hfaces Hdup Hout).
Defined.

(** ** The object cache over a sequence of calls *)

Section object_cache_session.
Context {U : Type} `{MeshCreator U}.
Implicit Types this : ObjectCacheMeshCreator.t (Counting.t U).

(** A call touches no entry but that of its own pair. *)
Lemma objectCache_frame_pair this obj stepData formNote outlinesOnly key id :
  (key, id) ≠ (GetSag stepData, Item.Id obj) →
  ObjectCacheMeshCreator.cached
    (ObjectCacheMeshCreator.create this obj stepData formNote outlinesOnly).1 key id
  = ObjectCacheMeshCreator.cached this key id.
Proof.
  intros Hne.
  destruct (decide (key = GetSag stepData)) as [->|Hkey]; [|by apply objectCache_frame].
  assert (id ≠ Item.Id obj) as Hid by congruence.
  destruct (ObjectCacheMeshCreator.cached this (GetSag stepData) (Item.Id obj))
    as [memoized|] eqn:Hc.
  - by rewrite (objectCache_hit _ _ _ _ _ _ Hc).
  - rewrite (objectCache_miss _ _ _ _ _ Hc). unfold ObjectCacheMeshCreator.cached.
    cbn [fst ObjectCacheMeshCreator.objectCache]. rewrite lookup_insert_eq.
    cbn [mbind option_bind]. rewrite lookup_insert_ne by done.
    by destruct (ObjectCacheMeshCreator.objectCache this !! GetSag stepData).
Qed.

(** An entry of the table is never removed nor replaced. *)
Lemma objectCache_kept this obj stepData formNote outlinesOnly key id p :
  ObjectCacheMeshCreator.cached this key id = Some p →
  ObjectCacheMeshCreator.cached
    (ObjectCacheMeshCreator.create this obj stepData formNote outlinesOnly).1 key id = Some p.
Proof.
  intros Hp. destruct (decide ((key, id) = (GetSag stepData, Item.Id obj))) as [[= -> ->]|Hne].
  - by rewrite (objectCache_hit _ _ _ _ _ _ Hp).
  - by rewrite objectCache_frame_pair.
Qed.

Lemma createAll_session this (reqs : list Request) :
  let final := (createAll this reqs).1 in
  Forall2 (λ r p, ObjectCacheMeshCreator.cached final (requestKey r).1 (requestKey r).2
                  = Some p) reqs (createAll this reqs).2 ∧
  (∀ key id p, ObjectCacheMeshCreator.cached this key id = Some p →
               ObjectCacheMeshCreator.cached final key id = Some p) ∧
  ∃ forwarded,
    Counting.calls (ObjectCacheMeshCreator.underlying final)
      = Counting.calls (ObjectCacheMeshCreator.underlying this) ++ forwarded ∧
    sublist forwarded reqs ∧
    NoDup (requestKey <$> forwarded) ∧
    (∀ r, r ∈ forwarded →
       ObjectCacheMeshCreator.cached this (requestKey r).1 (requestKey r).2 = None) ∧
    (∀ r, r ∈ reqs →
       ObjectCacheMeshCreator.cached this (requestKey r).1 (requestKey r).2 = None →
       requestKey r ∈ requestKey <$> forwarded).
Proof.
  revert this. induction reqs as [|[[[obj stepData] formNote] outlinesOnly] reqs IH];
    intros this final.
  { split; [constructor|]. split; [done|]. exists []. rewrite app_nil_r.
    split_and!; [done|done|constructor|by intros r ?%elem_of_nil|by intros r ?%elem_of_nil]. }
  subst final. cbn [createAll fst snd].
  change (create this obj stepData formNote outlinesOnly)
    with (ObjectCacheMeshCreator.create this obj stepData formNote outlinesOnly).
  set (r1 := ObjectCacheMeshCreator.create this obj stepData formNote outlinesOnly).
  destruct (IH r1.1) as (Hps & Hkept & forwarded & Hcalls & Hsub & Hdup & Hnew & Hcover).
  set (final := (createAll r1.1 reqs).1) in *.
  assert (∀ key id p, ObjectCacheMeshCreator.cached this key id = Some p →
                      ObjectCacheMeshCreator.cached final key id = Some p) as Hkept'.
  { intros key id p Hp. apply Hkept. by apply objectCache_kept. }
  split; [|split; [done|]].
  { constructor; [|done]. apply Hkept. apply objectCache_cached_after. }
  destruct (ObjectCacheMeshCreator.cached this (GetSag stepData) (Item.Id obj))
    as [memoized|] eqn:Hc.
  - assert (r1.1 = this) as Hr1 by (subst r1; by rewrite (objectCache_hit _ _ _ _ _ _ Hc)).
    rewrite Hr1 in *. exists forwarded. split_and!; [done| |done|done|].
    + by apply sublist_cons.
    + intros r [->|Hr]%elem_of_cons Hnone; [|by apply Hcover].
      cbn in Hnone. unfold ObjectCacheMeshCreator.formAndPrecisionCacheKey in Hnone.
      congruence.
  - assert (Counting.calls (ObjectCacheMeshCreator.underlying r1.1)
            = Counting.calls (ObjectCacheMeshCreator.underlying this)
              ++ [(obj, stepData, formNote, outlinesOnly)]) as Hcalls1.
    { subst r1. rewrite (objectCache_miss _ _ _ _ _ Hc).
      cbn [fst ObjectCacheMeshCreator.underlying]. apply counting_calls. }
    assert (ObjectCacheMeshCreator.cached r1.1 (GetSag stepData) (Item.Id obj) = Some r1.2)
      as Hafter by apply objectCache_cached_after.
    exists ((obj, stepData, formNote, outlinesOnly) :: forwarded). split_and!.
    + by rewrite Hcalls, Hcalls1, <-app_assoc.
    + by apply sublist_skip.
    + rewrite fmap_cons. apply NoDup_cons. split; [|done].
      intros (r & Hkey & Hr)%list_elem_of_fmap. specialize (Hnew r Hr).
      rewrite <-Hkey in Hnew. cbn in Hnew.
      unfold ObjectCacheMeshCreator.formAndPrecisionCacheKey in Hnew. congruence.
    + intros r [->|Hr]%elem_of_cons; [exact Hc|].
      destruct (ObjectCacheMeshCreator.cached this (requestKey r).1 (requestKey r).2)
        as [p|] eqn:Hp; [|done].
      apply (objectCache_kept _ obj stepData formNote outlinesOnly) in Hp.
      fold r1 in Hp. rewrite (Hnew r Hr) in Hp. done.
    + intros r Hr Hnone. rewrite fmap_cons.
      destruct (decide (requestKey r = (GetSag stepData, Item.Id obj))) as [->|Hne];
        [by left|]. right.
      apply elem_of_cons in Hr as [->|Hr]; [done|]. apply Hcover; [done|].
      subst r1. rewrite objectCache_frame_pair; [done|]. by destruct (requestKey r).
Qed.

End object_cache_session.

(** X8. The object cache over any sequence of [create] calls made one after
    the other.  The calls that reach the underlying creator have pairwise
    different pairs (precision key, object id), none of which had an entry
    before, and every pair without an entry before is among them: one build
    per pair, whatever the number of requests.  No entry of the table is ever
    removed or replaced, and every request is answered with the promise the
    table holds under its pair at the end, so that requests with the same pair
    get the same promise. *)
Theorem object_cache_one_build_per_pair {U : Type} `{MeshCreator U}
    (this : ObjectCacheMeshCreator.t (Counting.t U)) (reqs : list Request) :
  let final := (createAll this reqs).1 in
  let promises := (createAll this reqs).2 in
  Forall2 (λ r p, ObjectCacheMeshCreator.cached final (requestKey r).1 (requestKey r).2
                  = Some p) reqs promises ∧
  (∀ i j r r' p p',
     reqs !! i = Some r → reqs !! j = Some r' → requestKey r = requestKey r' →
     promises !! i = Some p → promises !! j = Some p' → p = p') ∧
  (∀ key id p, ObjectCacheMeshCreator.cached this key id = Some p →
               ObjectCacheMeshCreator.cached final key id = Some p) ∧
  ∃ forwarded,
    Counting.calls (ObjectCacheMeshCreator.underlying final)
      = Counting.calls (ObjectCacheMeshCreator.underlying this) ++ forwarded ∧
    sublist forwarded reqs ∧
    NoDup (requestKey <$> forwarded) ∧
    (∀ r, r ∈ forwarded →
       ObjectCacheMeshCreator.cached this (requestKey r).1 (requestKey r).2 = None) ∧
    (∀ r, r ∈ reqs →
       ObjectCacheMeshCreator.cached this (requestKey r).1 (requestKey r).2 = None →
       requestKey r ∈ requestKey <$> forwarded).
Proof.
  intros final promises.
  destruct (createAll_session this reqs) as (Hps & Hkept & Hforwarded).
  fold final in Hps, Hkept, Hforwarded. fold promises in Hps.
  split; [done|]. split; [|by split].
  intros i j r r' p p' Hr Hr' Hkey Hp Hp'.
  pose proof (Forall2_lookup_lr _ _ _ _ _ _ Hps Hr Hp) as Hi.
  pose proof (Forall2_lookup_lr _ _ _ _ _ _ Hps Hr' Hp') as Hj.
  cbv beta in Hi, Hj. rewrite Hkey in Hi. congruence.
Qed.

(** ** Sessions of [DoCacheMeshCreator] *)

Lemma cacheHit_empty (history : gmap Z Z) (face : Face.t) :
  cacheHit (FaceCacheMeshCreator.Make ∅ history) face = None.
Proof.
  unfold cacheHit. destruct (Face.GetOwnChanged face); [done|].
  cbn [FaceCacheMeshCreator.history FaceCacheMeshCreator.faceCache].
  by destruct (history !! Face.Id face).
Qed.

(** X9. When [caching] is over the cache is gone, whether the callback was
    fulfilled or rejected, and whatever session was open when it started; the
    outcome of the callback is passed on.  A [create] made then goes to the
    parallel creator: it calls the kernel for every face and every edge of the
    solid, and the object still has no cache. *)
Theorem session_end_drops_cache (this : DoCacheMeshCreator.t)
    (f : DoCacheMeshCreator.t → DoCacheMeshCreator.t * outcome unit)
    (solid : Solid.t) (stepData : StepData) (formNote : FormNote) (outlinesOnly : bool) :
  let ended := (DoCacheMeshCreator.caching this f).1 in
  let r := DoCacheMeshCreator.create ended (Item.OfSolid solid) stepData formNote
             outlinesOnly in
  DoCacheMeshCreator.cache ended = None ∧
  (DoCacheMeshCreator.caching this f).2 = (f (DoCacheMeshCreator.opened this)).2 ∧
  DoCacheMeshCreator.cache r.1 = None ∧
  ∃ es, DoCacheMeshCreator.trace r.1 = DoCacheMeshCreator.trace ended ++ es ∧
        kernelCalls es
        = gridCalls stepData formNote (DoCacheMeshCreator.now ended) (Solid.GetFaces solid)
          ++ meshCalls stepData formNote (DoCacheMeshCreator.now ended)
               (Solid.GetEdges solid).
Proof.
  intros ended r. subst r ended. unfold DoCacheMeshCreator.caching.
  destruct (f (DoCacheMeshCreator.opened this)) as [this' result].
  cbn [fst snd]. split; [done|]. split; [done|].
  unfold DoCacheMeshCreator.create, DoCacheMeshCreator.closed.
  cbn [DoCacheMeshCreator.cache DoCacheMeshCreator.trace DoCacheMeshCreator.now
       DoCacheMeshCreator.kernel fst snd].
  split; [done|]. eexists. split; [done|]. apply parallel_kernelCalls.
Qed.

Lemma doCache_create_cached (this : DoCacheMeshCreator.t) creator obj stepData formNote
    outlinesOnly :
  DoCacheMeshCreator.cache this = Some creator →
  DoCacheMeshCreator.create this obj stepData formNote outlinesOnly
  = let r := ObjectCacheMeshCreator.create creator obj stepData formNote outlinesOnly in
    (DoCacheMeshCreator.Make (Some r.1) (DoCacheMeshCreator.copier_faces this)
       (DoCacheMeshCreator.kernel this)
       (Pipeline.now (ObjectCacheMeshCreator.underlying r.1))
       (Pipeline.trace (ObjectCacheMeshCreator.underlying r.1)), r.2).
Proof.
  intros Hc. unfold DoCacheMeshCreator.create. rewrite Hc.
  change (create creator obj stepData formNote outlinesOnly)
    with (ObjectCacheMeshCreator.create creator obj stepData formNote outlinesOnly).
  by destruct (ObjectCacheMeshCreator.create creator obj stepData formNote outlinesOnly).
Qed.

(** X10. A session starts with nothing cached, whatever the object held
    before: the first [create] on a solid in a session calls the kernel for
    every face of the solid and for the edges of each face, and the same
    request made again in the session gives the same promise and does
    nothing. *)
Theorem session_starts_empty (this : DoCacheMeshCreator.t)
    (solid : Solid.t) (stepData : StepData) (formNote : FormNote)
    (outlinesOnly outlinesOnly' : bool) :
  let r := DoCacheMeshCreator.create (DoCacheMeshCreator.opened this) (Item.OfSolid solid)
             stepData formNote outlinesOnly in
  (∃ es, DoCacheMeshCreator.trace r.1 = DoCacheMeshCreator.trace this ++ es ∧
         kernelCalls es
         = Solid.GetFaces solid
             ≫= λ face, faceCalls stepData formNote (DoCacheMeshCreator.now this) (0, face)) ∧
  DoCacheMeshCreator.create r.1 (Item.OfSolid solid) stepData formNote outlinesOnly'
  = (r.1, r.2).
Proof.
  intros r.
  set (fresh := ObjectCacheMeshCreator.Make ∅
                  (Pipeline.Make
                     (FaceCacheMeshCreator.Make ∅ (DoCacheMeshCreator.copier_faces this))
                     (DoCacheMeshCreator.kernel this) (DoCacheMeshCreator.now this)
                     (DoCacheMeshCreator.trace this))).
  assert (DoCacheMeshCreator.cache (DoCacheMeshCreator.opened this) = Some fresh) as Hopen
    by done.
  pose proof (doCache_create_cached _ _ (Item.OfSolid solid) stepData formNote outlinesOnly
                Hopen) as Hr.
  fold r in Hr. cbv zeta in Hr.
  pose proof (objectCache_cached_after fresh (Item.OfSolid solid) stepData formNote
                outlinesOnly) as Hafter. cbv zeta in Hafter.
  set (r1 := ObjectCacheMeshCreator.create fresh (Item.OfSolid solid) stepData formNote
               outlinesOnly) in *.
  assert (Pipeline.trace (ObjectCacheMeshCreator.underlying r1.1)
          = DoCacheMeshCreator.trace this
            ++ effs (run (FaceCacheMeshCreator.create
                            (FaceCacheMeshCreator.Make ∅ (DoCacheMeshCreator.copier_faces this))
                            (DoCacheMeshCreator.kernel this) (Item.OfSolid solid) stepData
                            formNote outlinesOnly) (DoCacheMeshCreator.now this))) as Htrace.
  { subst r1. by rewrite (objectCache_miss fresh). }
  rewrite Hr. cbn [fst snd DoCacheMeshCreator.trace]. split.
  - eexists. split; [exact Htrace|]. rewrite faceCache_kernelCalls.
    rewrite filter_all; [done|]. intros face _. apply cacheHit_empty.
  - rewrite (doCache_create_cached _ r1.1) by done. cbv zeta.
    by rewrite (objectCache_hit r1.1 _ _ _ outlinesOnly' _ Hafter).
Qed.

(** ** The value state machines *)

Lemma SFcompare_antisym (a b : number) :
  SFcompare b a = CompOpp <$> SFcompare a b.
Proof.
  destruct a as [sa|sa| |sa ma ea], b as [sb|sb| |sb mb eb]; try done;
    try (by destruct sa); try (by destruct sb); try (by destruct sa, sb).
  cbn [SFcompare fmap option_fmap option_map].
  pose proof (Pos.compare_cont_antisym ma mb Eq) as Hanti. cbn [CompOpp] in Hanti.
  change PosDef.Pos.compare_cont with Pos.compare_cont.
  destruct sa, sb; try done.
  - rewrite (Z.compare_antisym ea eb). destruct (ea ?= eb)%Z; cbn [CompOpp]; try done.
    by rewrite Hanti.
  - rewrite (Z.compare_antisym ea eb). destruct (ea ?= eb)%Z; cbn [CompOpp]; try done.
    by rewrite Hanti.
Qed.

Lemma SFltb_irrefl (a : number) : SFltb a a = false.
Proof.
  unfold SFltb. pose proof (SFcompare_antisym a a) as Hc.
  destruct (SFcompare a a) as [[]|]; done.
Qed.

Lemma SFltb_asym (a b : number) : SFltb a b = true → SFltb b a = false.
Proof.
  unfold SFltb. rewrite (SFcompare_antisym a b).
  by destruct (SFcompare a b) as [[]|].
Qed.

Lemma max_NEGATIVE_INFINITY (a : number) : Math.max a NEGATIVE_INFINITY = a.
Proof. destruct a as [[]|[]| |[] m e]; reflexivity. Qed.

Lemma max_cases (a b : number) :
  (a = S754_nan ∨ b = S754_nan) ∧ Math.max a b = S754_nan ∨
  a = S754_zero true ∧ b = S754_zero false ∧ Math.max a b = b ∨
  a ≠ S754_nan ∧ b ≠ S754_nan ∧ SFltb a b = true ∧ Math.max a b = b ∨
  a ≠ S754_nan ∧ b ≠ S754_nan ∧ SFltb a b = false ∧ Math.max a b = a.
Proof.
  destruct (decide (a = S754_nan)) as [->|Ha]; [by left; split; [left|]|].
  destruct (decide (b = S754_nan)) as [->|Hb].
  { left. split; [by right|]. by destruct a as [[]| | |]. }
  destruct (decide (a = S754_zero true ∧ b = S754_zero false)) as [[-> ->]|Hzero];
    [by right; left|].
  right. right. destruct (SFltb a b) eqn:Hlt; [left|right]; split_and!; try done.
  - destruct a as [[]| | |], b as [[]| | |]; try done; unfold Math.max; by rewrite Hlt.
  - destruct a as [[]| | |], b as [[]| | |]; try done; unfold Math.max; try (by rewrite Hlt).
    destruct Hzero. done.
Qed.

(** X11. What [current] of a [MagnitudeStateMachine] reads.  It is the value
    last stored or [min], never a number less than [min] and never one less
    than the value stored; it is NaN exactly when the value stored or [min]
    is.  With the [min] the constructor sets, negative infinity, it is the
    value stored. *)
Theorem magnitude_current_clamped (this : MagnitudeStateMachine.t) :
  let stored := AbstractValueStateMachine.currentMagnitude (MagnitudeStateMachine.super this) in
  let read := MagnitudeStateMachine.current this in
  (read = stored ∨ read = MagnitudeStateMachine.min this) ∧
  SFltb read (MagnitudeStateMachine.min this) = false ∧
  SFltb read stored = false ∧
  (read = S754_nan ↔ stored = S754_nan ∨ MagnitudeStateMachine.min this = S754_nan) ∧
  (MagnitudeStateMachine.min this = NEGATIVE_INFINITY → read = stored).
Proof.
  intros stored read. subst read. unfold MagnitudeStateMachine.current.
  change (AbstractValueStateMachine.current (MagnitudeStateMachine.super this)) with stored.
  generalize stored (MagnitudeStateMachine.min this). clear. intros a b.
  split_and!.
  - destruct (max_cases a b) as [[[->| ->] ->]|[(_ & _ & ->)|[(_ & _ & _ & ->)|(_ & _ & _ & ->)]]];
      auto.
  - destruct (max_cases a b) as [[_ ->]|[(_ & -> & ->)|[(_ & _ & _ & ->)|(_ & _ & ? & ->)]]];
      [done|done|apply SFltb_irrefl|done].
  - destruct (max_cases a b) as [[_ ->]|[(-> & -> & ->)|[(_ & _ & ? & ->)|(_ & _ & _ & ->)]]];
      [done|done|by apply SFltb_asym|apply SFltb_irrefl].
  - destruct (max_cases a b) as [[? ->]|[(-> & -> & ->)|[(? & ? & _ & ->)|(? & ? & _ & ->)]]];
      [done|split; [done|by intros [|]]|split; [done|by intros [|]]..].
  - intros ->. apply max_NEGATIVE_INFINITY.
Qed.

(** X12. Interrupting an angle gizmo undoes the moves made since the last
    commit, by releasing the pointer or by setting the value: after any
    number of moves, [onInterrupt] puts the gizmo back as it was at the commit
    and reports the value it had then. *)
Theorem angle_gizmo_interrupt_restores (this : AngleGizmo.t) (m : number)
    (angles : list number) :
  let moved (committed : AngleGizmo.t) :=
    foldl (λ gizmo angle, (AngleGizmo.onPointerMove gizmo angle).1) committed angles in
  AngleGizmo.onInterrupt (moved (AngleGizmo.onPointerUp this))
    = (AngleGizmo.onPointerUp this, AngleGizmo.value (AngleGizmo.onPointerUp this)) ∧
  AngleGizmo.onInterrupt (moved (AngleGizmo.set_value this m))
    = (AngleGizmo.set_value this m, AngleGizmo.value (AngleGizmo.set_value this m)).
Proof.
  intros moved.
  assert (∀ committed,
            let state := AngleGizmo.state committed in
            AbstractValueStateMachine.currentMagnitude (MagnitudeStateMachine.super state)
              = AbstractValueStateMachine.originalMagnitude (MagnitudeStateMachine.super state) →
            AngleGizmo.onInterrupt (moved committed)
              = (committed, AngleGizmo.value committed)) as Hrestore.
  { intros committed state Hcommitted.
    assert (MagnitudeStateMachine.revert (AngleGizmo.state (moved committed)) = state)
      as Hrevert.
    { subst moved state. cbv beta. revert Hcommitted.
      induction angles as [|angle angles IH] using rev_ind.
      - destruct committed as [[[original current] min]]. cbn. by intros ->.
      - intros Hcommitted. rewrite foldl_app. cbn [foldl]. by rewrite <-IH. }
    unfold AngleGizmo.onInterrupt, AngleGizmo.value. rewrite Hrevert.
    by destruct committed. }
  split; by apply Hrestore.
Qed.

(** X13. The moves of one drag of an angle gizmo do not add up: each reports
    the angle of the pointer added to the value of the last commit, so that a
    move makes the ones before it void.  Releasing the pointer commits the sum
    as it is stored, and the moves of the next drag are added to it. *)
Theorem angle_gizmo_drags (this : AngleGizmo.t) (a b : number) :
  let state := AngleGizmo.state this in
  let original := MagnitudeStateMachine.original state in
  AngleGizmo.onPointerMove (AngleGizmo.onPointerMove this a).1 b
    = AngleGizmo.onPointerMove this b ∧
  (AngleGizmo.onPointerMove this a).2
    = Math.max (plus a original) (MagnitudeStateMachine.min state) ∧
  (AngleGizmo.onPointerMove (AngleGizmo.onPointerUp (AngleGizmo.onPointerMove this a).1) b).2
    = Math.max (plus b (plus a original)) (MagnitudeStateMachine.min state).
Proof. by destruct this as [[[original current] min]]. Qed.

(** X14. The clamp of a [MagnitudeStateMachine] is on reading only.  A value
    less than [min] is stored as it is; it reads as [min], and [push] commits
    the value stored, not the value read: [original] is then less than
    [current]. *)
Theorem magnitude_push_commits_stored (this : MagnitudeStateMachine.t) (x : number) :
  SFltb x (MagnitudeStateMachine.min this) = true →
  let set := MagnitudeStateMachine.set_current this x in
  let pushed := MagnitudeStateMachine.push set in
  MagnitudeStateMachine.current set = MagnitudeStateMachine.min this ∧
  MagnitudeStateMachine.original pushed = x ∧
  MagnitudeStateMachine.current pushed = MagnitudeStateMachine.min this ∧
  SFltb (MagnitudeStateMachine.original pushed) (MagnitudeStateMachine.current pushed) = true.
Proof.
  intros Hlt set pushed. subst pushed set.
  destruct this as [[original current] min]. cbn [MagnitudeStateMachine.min] in *.
  assert (Math.max x min = min) as Hmax.
  { destruct (max_cases x min)
      as [[[Hx|Hmin] _]|[(_ & _ & Hmax)|[(_ & _ & _ & Hmax)|(_ & _ & Hge & _)]]].
    - subst x. discriminate Hlt.
    - subst min. destruct x; discriminate Hlt.
    - exact Hmax.
    - exact Hmax.
    - rewrite Hlt in Hge. discriminate Hge. }
  change (MagnitudeStateMachine.current
            (MagnitudeStateMachine.set_current
               (MagnitudeStateMachine.Make (AbstractValueStateMachine.Make original current)
                  min) x))
    with (Math.max x min).
  change (MagnitudeStateMachine.current
            (MagnitudeStateMachine.push
               (MagnitudeStateMachine.set_current
                  (MagnitudeStateMachine.Make
                     (AbstractValueStateMachine.Make original current) min) x)))
    with (Math.max x min).
  rewrite Hmax. done.
Qed.

Lemma magnitude_push_commits_stored_witness :
  let length := MagnitudeStateMachine.set_min (MagnitudeStateMachine.new (S754_zero false))
                  (S754_zero false) in
  let x := S754_finite true 4503599627370496 (-52) in
  SFltb x (MagnitudeStateMachine.min length) = true ∧
  MagnitudeStateMachine.current
    (MagnitudeStateMachine.push (MagnitudeStateMachine.set_current length x))
    = S754_zero false ∧
  MagnitudeStateMachine.original
    (MagnitudeStateMachine.push (MagnitudeStateMachine.set_current length x)) = x.
Proof.
  intros length x.
  assert (SFltb x (MagnitudeStateMachine.min length) = true) as Hlt by reflexivity.
  destruct (magnitude_push_commits_stored length x Hlt) as (_ & Horiginal & Hcurrent & _).
  split; [exact Hlt|]. split; [exact Hcurrent|exact Horiginal].
Defined.

(** ** Saving a document *)

Section serialize.
Import PlasticityDocument.

Lemma materialId2position_fold (keys : list Z) (table : gmap Z nat) (i : nat) (id : Z) :
  NoDup keys →
  (foldl (λ acc id, (<[id := acc.2]> acc.1, S acc.2)) (table, i) keys).1 !! id
  = match list_find (λ key, key = id) keys with
    | Some (n, _) => Some (i + n)
    | None => table !! id
    end.
Proof.
  revert table i. induction keys as [|key keys IH]; intros table i Hdup; [done|].
  apply NoDup_cons in Hdup as [Hfresh Hdup].
  cbn [foldl fst snd]. rewrite IH by done. cbn [list_find].
  destruct (decide (key = id)) as [->|Hne].
  - destruct (list_find (λ key, key = id) keys) as [[n key']|] eqn:Hfind.
    + apply list_find_Some in Hfind as (Hn & -> & _).
      destruct Hfresh. by eapply list_elem_of_lookup_2.
    + cbn. by rewrite lookup_insert_eq, Nat.add_0_r.
  - destruct (list_find (λ key, key = id) keys) as [[n key']|]; cbn.
    + f_equal. lia.
    + by rewrite lookup_insert_ne.
Qed.

Lemma materialId2position_lookup (keys : list Z) (id : Z) (pos : nat) :
  NoDup keys →
  materialId2position keys !! id = Some pos ↔ keys !! pos = Some id.
Proof.
  intros Hdup. unfold materialId2position. rewrite materialId2position_fold by done.
  destruct (list_find (λ key, key = id) keys) as [[n key]|] eqn:Hfind.
  - apply list_find_Some in Hfind as (Hn & -> & _). cbn. split.
    + by intros [= <-].
    + intros Hpos. f_equal. by eapply NoDup_lookup.
  - rewrite lookup_empty. split; [done|]. intros Hpos.
    apply list_find_None in Hfind. rewrite Forall_forall in Hfind.
    destruct (Hfind id); [|done]. by eapply list_elem_of_lookup_2.
Qed.

End serialize.

(** X15. The material index [serialize] writes for an item.  An item that is
    not automatic is written once; when its node has a material and the editor
    has a material under that id, the index written is the position of that
    material in the array of materials of the same document.  When the node
    has no material, or the editor none under its id, no index is written. *)
Theorem serialize_item_material_index (filename : string)
    (memento : PlasticityDocument.EditorMemento)
    (viewports : list PlasticityDocument.ViewportMemento) (view : PlasticityDocument.View) :
  let db := PlasticityDocument.db memento in
  let materials := PlasticityDocument.materials (PlasticityDocument.m_materials memento) in
  let json := PlasticityDocument.serialize filename memento viewports in
  let materialId :=
    PlasticityDocument.version2name db !! PlasticityDocument.simpleName view
      ≫= (PlasticityDocument.name2material (PlasticityDocument.nodes memento) !!.) in
  NoDup materials.*1 →
  PlasticityDocument.simpleName view ∉ PlasticityDocument.automatics db →
  ∃ item,
    PlasticityDocument.itemOf db (PlasticityDocument.nodes memento)
      (PlasticityDocument.materialId2position materials.*1) view = [item] ∧
    (view ∈ PlasticityDocument.geometryModel db → item ∈ PlasticityDocument.items json) ∧
    (∀ pos, PlasticityDocument.material item = Some pos ↔
            ∃ id mat, materialId = Some id ∧ materials !! pos = Some (id, mat)) ∧
    (∀ pos id mat, materialId = Some id → materials !! pos = Some (id, mat) →
       PlasticityDocument.materials_json json !! pos
       = Some (PlasticityDocument.materialOf mat)).
Proof.
  intros db materials json materialId Hdup Hauto.
  unfold PlasticityDocument.itemOf. rewrite decide_False by done. cbv zeta.
  fold materialId. eexists. split; [done|]. cbn [PlasticityDocument.material]. split_and!.
  - intros Hview. subst json. unfold PlasticityDocument.serialize.
    cbn [PlasticityDocument.items]. apply list_elem_of_bind. exists view. split; [|done].
    unfold PlasticityDocument.itemOf. rewrite decide_False by done. by left.
  - intros pos. destruct materialId as [id|]; cbn [mbind option_bind].
    + rewrite materialId2position_lookup by done. rewrite list_lookup_fmap. split.
      * destruct (materials !! pos) as [[id' mat]|]; [|done]. intros [= ->]. eauto.
      * by intros (id' & mat & [= <-] & ->).
    + split; [done|]. by intros (? & ? & ? & _).
  - intros pos id mat _ Hpos. subst json. unfold PlasticityDocument.serialize.
    cbn [PlasticityDocument.materials_json]. fold materials.
    by rewrite !list_lookup_fmap, Hpos.
Qed.

Lemma serialize_item_material_index_witness :
  let steel := {| THREE.color := THREE.MkColor (S754_zero false) (S754_zero false)
                                   (S754_zero false);
                  THREE.opacity := S754_zero false; THREE.metalness := S754_zero false;
                  THREE.roughness := S754_zero false;
                  THREE.emissive := THREE.MkColor (S754_zero false) (S754_zero false)
                                      (S754_zero false);
                  THREE.clearcoat := S754_zero false;
                  THREE.clearcoatRoughness := S754_zero false; THREE.ior := S754_zero false;
                  THREE.sheenColor := THREE.MkColor (S754_zero false) (S754_zero false)
                                        (S754_zero false);
                  THREE.sheenRoughness := S754_zero false;
                  THREE.specularIntensity := S754_zero false;
                  THREE.specularColor := THREE.MkColor (S754_zero false) (S754_zero false)
                                           (S754_zero false);
                  THREE.transmission := S754_zero false |} in
  let memento :=
    {| PlasticityDocument.db :=
         {| PlasticityDocument.geometryModel := [ {| PlasticityDocument.simpleName := 7 |} ];
            PlasticityDocument.automatics := ∅;
            PlasticityDocument.version2name := {[ 7%Z := 70%Z ]} |};
       PlasticityDocument.nodes := {| PlasticityDocument.name2material := {[ 70%Z := 42%Z ]} |};
       PlasticityDocument.m_materials :=
         {| PlasticityDocument.materials := [ (5%Z, ("brass", steel)); (42%Z, ("steel", steel)) ] |}
    |} in
  PlasticityDocument.items (PlasticityDocument.serialize "a" memento [])
  = [ {| PlasticityDocument.material := Some 1 |} ].
Proof.
  intros steel memento.
  destruct (serialize_item_material_index "a" memento []
              {| PlasticityDocument.simpleName := 7 |})
    as (item & Hitem & _ & Hpos & _).
  - apply (bool_decide_unpack _). vm_compute. exact I.
  - cbn. set_solver.
  - unfold PlasticityDocument.serialize. cbn [PlasticityDocument.items].
    cbn [PlasticityDocument.geometryModel PlasticityDocument.db memento].
    rewrite bind_one.
    etrans; [exact Hitem|]. f_equal. destruct item as [material]. f_equal.
    apply Hpos. exists 42%Z, ("steel", steel). split; reflexivity.
Defined.

(** X16. Saving the materials and loading them again.  [load] puts the
    material written at a position of the array under that position, the key
    the items of the document refer to, with its name.  The material is
    constructed from the color, opacity, metalness, roughness, clearcoat,
    index of refraction, sheen, specular and transmission values that were
    saved; the emissive color is not among them: [serialize] writes it under a
    key [load] does not read, and [load] passes [undefined]. *)
Theorem material_round_trip (filename : string) (memento : PlasticityDocument.EditorMemento)
    (viewports : list PlasticityDocument.ViewportMemento)
    (pos : nat) (id : Z) (name : string) (material : THREE.MeshPhysicalMaterial) :
  let json := PlasticityDocument.serialize filename memento viewports in
  PlasticityDocument.materials (PlasticityDocument.m_materials memento) !! pos
    = Some (id, (name, material)) →
  PlasticityDocument.loadMaterials json !! pos
  = Some (pos,
          (name,
           {| THREE.p_color := THREE.color material;
              THREE.p_opacity := THREE.opacity material;
              THREE.p_metalness := THREE.metalness material;
              THREE.p_roughness := THREE.roughness material;
              THREE.p_clearcoat := Some (THREE.clearcoat material);
              THREE.p_clearcoatRoughness := Some (THREE.clearcoatRoughness material);
              THREE.p_ior := Some (THREE.ior material);
              THREE.p_sheenColor := Some (THREE.sheenColor material);
              THREE.p_sheenRoughness := Some (THREE.sheenRoughness material);
              THREE.p_specularIntensity := Some (THREE.specularIntensity material);
              THREE.p_specularColor := Some (THREE.specularColor material);
              THREE.p_transmission := Some (THREE.transmission material);
              THREE.p_emissive := None |})) ∧
  length (PlasticityDocument.loadMaterials json)
  = length (PlasticityDocument.materials (PlasticityDocument.m_materials memento)).
Proof.
  intros json Hpos. subst json.
  unfold PlasticityDocument.loadMaterials, PlasticityDocument.serialize.
  cbn [PlasticityDocument.materials_json]. split.
  - unfold entries. rewrite list_lookup_imap, !list_lookup_fmap, Hpos. cbn. do 3 f_equal.
    unfold PlasticityDocument.loadMaterial. cbn.
    by destruct material as [[] ? ? ? ? ? ? ? [] ? ? [] ?].
  - unfold entries. by rewrite length_imap, !length_fmap.
Qed.

Lemma material_round_trip_witness :
  let black := THREE.MkColor (S754_zero false) (S754_zero false) (S754_zero false) in
  let glow := THREE.MkColor (S754_infinity false) (S754_zero false) (S754_zero false) in
  let lamp := {| THREE.color := black; THREE.opacity := S754_zero false;
                 THREE.metalness := S754_zero false; THREE.roughness := S754_zero false;
                 THREE.emissive := glow; THREE.clearcoat := S754_zero false;
                 THREE.clearcoatRoughness := S754_zero false; THREE.ior := S754_zero false;
                 THREE.sheenColor := black; THREE.sheenRoughness := S754_zero false;
                 THREE.specularIntensity := S754_zero false; THREE.specularColor := black;
                 THREE.transmission := S754_zero false |} in
  let memento :=
    {| PlasticityDocument.db :=
         {| PlasticityDocument.geometryModel := []; PlasticityDocument.automatics := ∅;
            PlasticityDocument.version2name := ∅ |};
       PlasticityDocument.nodes := {| PlasticityDocument.name2material := ∅ |};
       PlasticityDocument.m_materials :=
         {| PlasticityDocument.materials := [ (42%Z, ("lamp", lamp)) ] |} |} in
  ∃ params,
    PlasticityDocument.loadMaterials (PlasticityDocument.serialize "a" memento [])
    = [ (0, ("lamp", params)) ] ∧
    THREE.p_emissive params = None ∧ THREE.p_color params = black.
Proof.
  intros black glow lamp memento.
  destruct (material_round_trip "a" memento [] 0 42 "lamp" lamp eq_refl) as [Hpos Hlen].
  destruct (PlasticityDocument.loadMaterials _) as [|entry [|]]; try discriminate Hlen.
  cbn [lookup list_lookup] in Hpos. injection Hpos as ->.
  eexists. split; [reflexivity|]. split; reflexivity.
Defined.

(** ** A session that changes the precision *)

(** X17. In a session, the precision is no part of what the faces are cached
    under.  Let a solid whose faces report no change and have lineage ids of
    their own be meshed, first thing in a session, and the mesh be returned.
    With the lineage ids of the copier as they were, a second request for the
    solid with another sag passes the object cache
    and is answered by the face cache: it makes no kernel call, only enters
    and leaves the region, and is fulfilled with the mesh computed for the
    first sag. *)
Theorem session_reuses_faces_across_precision (k : Kernel) (history : gmap Z Z) (now : nat)
    (solid : Solid.t) (stepData stepData' : StepData) (formNote formNote' : FormNote)
    (outlinesOnly outlinesOnly' : bool) (m : MeshLike) :
  let this := Pipeline.caching k history now in
  let r1 := ObjectCacheMeshCreator.create this (Item.OfSolid solid) stepData formNote
              outlinesOnly in
  let r2 := ObjectCacheMeshCreator.create r1.1 (Item.OfSolid solid) stepData' formNote'
              outlinesOnly' in
  GetSag stepData' ≠ GetSag stepData →
  (∀ face, face ∈ Solid.GetFaces solid →
     Face.GetOwnChanged face = false ∧ is_Some (history !! Face.Id face)) →
  NoDup (omap (λ face, history !! Face.Id face) (Solid.GetFaces solid)) →
  result r1.2 = Fulfilled m →
  result r2.2 = Fulfilled m ∧
  ∃ tick, Pipeline.trace (ObjectCacheMeshCreator.underlying r2.1)
          = Pipeline.trace (ObjectCacheMeshCreator.underlying r1.1)
            ++ [(tick, EnterParallelRegion); (tick, ExitParallelRegion)].
Proof.
  intros this r1 r2 Hsag Hfaces Hdup Hm.
  set (empty := FaceCacheMeshCreator.Make ∅ history).
  set (rr1 := run (FaceCacheMeshCreator.create empty k (Item.OfSolid solid) stepData formNote
                     outlinesOnly) now).
  assert (r1 = (ObjectCacheMeshCreator.Make
                  (<[GetSag stepData := <[Solid.Id solid := Settles (clk rr1) (out rr1)]> ∅]> ∅)
                  (Pipeline.Make (FaceCacheMeshCreator.settled empty (effs rr1)) k
                     (Pipeline.lastTick (clk rr1) (effs rr1)) ([] ++ effs rr1)),
                Settles (clk rr1) (out rr1))) as Hr1.
  { subst r1. by rewrite (objectCache_miss this). }
  rewrite Hr1 in Hm. cbn [snd result] in Hm.
  assert (ObjectCacheMeshCreator.cached r1.1 (GetSag stepData') (Item.Id (Item.OfSolid solid))
          = None) as Hmiss.
  { subst r1. by rewrite objectCache_frame. }
  subst r2. rewrite (objectCache_miss r1.1 _ _ _ _ Hmiss). cbv zeta. cbn [fst snd].
  rewrite Hr1. cbn [fst ObjectCacheMeshCreator.underlying ObjectCacheMeshCreator.objectCache].
  unfold create, Pipeline.faceCaching.
  cbn [fst snd Pipeline.creator Pipeline.kernel Pipeline.now Pipeline.trace result].
  rewrite (faceCache_create_again empty k k solid stepData stepData' formNote formNote'
             outlinesOnly outlinesOnly' now _ m); [| |done|done].
  - cbn [out effs]. split; [done|]. by eexists.
  - intros face Hface. destruct (Hfaces face Hface) as [? ?].
    split_and!; [done|done|apply cacheHit_empty].
Qed.

Lemma session_reuses_faces_across_precision_witness :
  let this := Pipeline.caching kernelOk cubeHistory 0 in
  let r1 := ObjectCacheMeshCreator.create this (Item.OfSolid cube) sag1 plain false in
  let r2 := ObjectCacheMeshCreator.create r1.1 (Item.OfSolid cube) sag2 plain false in
  ∃ m, result r1.2 = Fulfilled m ∧ result r2.2 = Fulfilled m.
Proof.
  intros this r1 r2.
  assert (∀ face, face ∈ Solid.GetFaces cube →
            Face.GetOwnChanged face = false ∧ is_Some (cubeHistory !! Face.Id face))
    as Hfaces.
  { intros face Hface. cbn in Hface.
    repeat (apply elem_of_cons in Hface as [->|Hface];
            [split; [reflexivity|vm_compute; eauto]|]).
    by apply elem_of_nil in Hface. }
  assert (NoDup (omap (λ face, cubeHistory !! Face.Id face) (Solid.GetFaces cube))) as Hdup.
  { apply (bool_decide_unpack _). vm_compute. exact I. }
  assert (GetSag sag2 ≠ GetSag sag1) as Hsag by discriminate.
  destruct (result r1.2) as [m|] eqn:Hm; [|by vm_compute in Hm].
  exists m. split; [reflexivity|].
  exact (proj1 (session_reuses_faces_across_precision kernelOk cubeHistory 0 cube sag1 sag2
                  plain plain false false m Hsag Hfaces Hdup Hm)).
Defined.

(** ** Which failure a call reports *)

Lemma awaitBoth_faces_rejected {A B R} (c : nat) (issued : list stamped)
    (fps : list (Promise.t A)) (eps : list (Promise.t B)) (finish : list A → list B → R)
    p e :
  p ∈ fps → result p = Rejected e →
  ∃ p' e', p' ∈ fps ∧ result p' = Rejected e' ∧ at_tick p' ≤ at_tick p ∧
           awaitBoth c issued fps eps finish = MkRes issued (c `max` at_tick p') (Rejected e').
Proof.
  intros Hp Hrej. destruct (all_rejected_first _ _ _ Hp Hrej) as (e' & Hall & Hle).
  destruct (all_rejected_reason _ _ Hall) as (p' & Hp' & Hrej' & Htick).
  exists p', e'. split_and!; [done|done|lia|].
  unfold awaitBoth. by rewrite Hall, Htick.
Qed.

Lemma faceTasks_rejected (k : Kernel) (stepData : StepData) (formNote : FormNote)
    (c : nat) (l : list (nat * Face.t)) {B R} (issued : list stamped)
    (eps : list (Promise.t B)) (finish : list MeshBuffer → list B → R) i face e :
  (i, face) ∈ l →
  result (CalculateGrid_async k face stepData (Quad formNote) (Fair formNote)) = Rejected e →
  ∃ face' e',
    face' ∈ l.*2 ∧
    result (CalculateGrid_async k face' stepData (Quad formNote) (Fair formNote))
      = Rejected e' ∧
    c `max` at_tick (CalculateGrid_async k face' stepData (Quad formNote) (Fair formNote))
      ≤ c `max` at_tick (CalculateGrid_async k face stepData (Quad formNote) (Fair formNote)) ∧
    awaitBoth c issued (faceTasks k stepData formNote c l) eps finish
    = MkRes issued
        (c `max` at_tick (CalculateGrid_async k face' stepData (Quad formNote) (Fair formNote)))
        (Rejected e').
Proof.
  intros Hin Hrej.
  destruct (awaitBoth_faces_rejected c issued (faceTasks k stepData formNote c l) eps finish
              (promised (ParallelMeshCreator.calculateFace k face stepData formNote i) c) e)
    as (p' & e' & Hp' & Hrej' & Hle & Hrun).
  { apply elem_of_faceTasks. eauto. }
  { by apply out_calculateFace_rejected. }
  apply elem_of_faceTasks in Hp' as (i' & face' & Hin' & ->).
  apply out_calculateFace_rejected in Hrej'.
  unfold promised in Hle, Hrun. cbn [at_tick] in Hle, Hrun.
  rewrite !clk_calculateFace in Hle. rewrite clk_calculateFace in Hrun.
  exists face', e'. split_and!; [|done|done|].
  - apply list_elem_of_fmap. by exists (i', face').
  - rewrite Hrun. f_equal. lia.
Qed.

(** X18. A failure of a face goes before a failure of an edge.  [create]
    awaits the faces first: when the grid of a face it computes is rejected,
    the call is rejected with the reason of the grid rejected first among the
    faces, at the tick that grid is rejected or at the tick of the call if
    that is later, whatever the tasks of the edges do and whenever they
    settle. *)
Theorem face_failure_reported_first (this : FaceCacheMeshCreator.t) (k : Kernel)
    (solid : Solid.t) (stepData : StepData) (formNote : FormNote) (outlinesOnly : bool)
    (c : nat) (face : Face.t) (e : Reason) :
  let grid face := CalculateGrid_async k face stepData (Quad formNote) (Fair formNote) in
  let rp := run (ParallelMeshCreator.create k (Item.OfSolid solid) stepData formNote
                   outlinesOnly) c in
  let rf := run (FaceCacheMeshCreator.create this k (Item.OfSolid solid) stepData formNote
                   outlinesOnly) c in
  face ∈ Solid.GetFaces solid →
  result (grid face) = Rejected e →
  (∃ face' e', face' ∈ Solid.GetFaces solid ∧ result (grid face') = Rejected e' ∧
               c `max` at_tick (grid face') ≤ c `max` at_tick (grid face) ∧
               out rp = Rejected e' ∧ clk rp = c `max` at_tick (grid face')) ∧
  (cacheHit this face = None →
   ∃ face' e', face' ∈ Solid.GetFaces solid ∧ result (grid face') = Rejected e' ∧
               c `max` at_tick (grid face') ≤ c `max` at_tick (grid face) ∧
               out rf = Rejected e' ∧ clk rf = c `max` at_tick (grid face')).
Proof.
  intros grid rp rf [i Hface]%elem_of_entries Hrej. split.
  - subst rp. rewrite run_parallel_create.
    match goal with |- context [awaitBoth c ?issued (faceTasks _ _ _ _ ?l) ?eps ?finish] =>
      destruct (faceTasks_rejected k stepData formNote c l issued eps finish i face e
                  Hface Hrej) as (face' & e' & Hface' & Hrej' & Hle & ->)
    end.
    rewrite entries_snd in Hface'. exists face', e'. by split_and!.
  - intros Hmiss. subst rf.
    destruct (loopRun_loopInv this k stepData formNote outlinesOnly c (Solid.GetFaces solid))
      as (st & es & Hrun & [_ _ Hfps _ _ _ _ _]).
    rewrite (run_faceCache_create _ _ _ _ _ _ _ _ _ Hrun), Hfps.
    assert ((i, face) ∈ filter (isMiss this) (entries (Solid.GetFaces solid))) as Hin'.
    { apply list_elem_of_filter. split; [exact Hmiss|exact Hface]. }
    match goal with |- context [awaitBoth c ?issued (faceTasks _ _ _ _ ?l) ?eps ?finish] =>
      destruct (faceTasks_rejected k stepData formNote c l issued eps finish i face e
                  Hin' Hrej) as (face' & e' & Hface' & Hrej' & Hle & ->)
    end.
    exists face', e'. split_and!; try done.
    apply list_elem_of_fmap in Hface' as ([i' face''] & -> & [_ Hin]%list_elem_of_filter).
    apply elem_of_entries. eauto.
Qed.

Lemma face_failure_reported_first_witness :
  let rf := run (FaceCacheMeshCreator.create (FaceCacheMeshCreator.Make ∅ cubeHistory)
                   kernelFailing (Item.OfSolid cube) sag1 plain false) 0 in
  out rf = Rejected "CalculateGrid failed" ∧ clk rf = 3.
Proof.
  intros rf.
  destruct (face_failure_reported_first (FaceCacheMeshCreator.Make ∅ cubeHistory) kernelFailing
              cube sag1 plain false 0 (cubeFace 3 false [0; 9; 4; 8]%Z)
              "CalculateGrid failed") as [_ Hrf].
  - apply (list_elem_of_lookup_2 _ 2). reflexivity.
  - reflexivity.
  - destruct (Hrf (cacheHit_empty _ _)) as (face' & e' & Hface' & Hrej' & _ & Hout & Hclk).
    fold rf in Hout, Hclk. rewrite Hout, Hclk. clear Hout Hclk Hrf rf.
    cbn in Hface'.
    repeat (apply elem_of_cons in Hface' as [->|Hface'];
            [first [discriminate Hrej'|by injection Hrej' as <-]|]).
    by apply elem_of_nil in Hface'.
Defined.

(** ** What the face cache returns *)

Section face_cache_result.
Context (this : FaceCacheMeshCreator.t) (k : Kernel).
Context (stepData : StepData) (formNote : FormNote) (outlinesOnly : bool) (c : nat).

Lemma faceTasks_buffers (l : list (nat * Face.t)) xs :
  Forall2 (λ p a, result p = Fulfilled a) (faceTasks k stepData formNote c l) xs →
  Forall2 (λ face mb,
             ∃ bufs, result (CalculateGrid_async k face stepData (Quad formNote)
                               (Fair formNote)) = Fulfilled bufs ∧
                     mb_index mb = gb_index bufs ∧ mb_position mb = gb_position bufs ∧
                     mb_normal mb = gb_normal bufs ∧
                     mb_model mb = Some face ∧
                     (grid_stepData <$> mb_grid mb) = Some stepData)
          l.*2 xs.
Proof.
  revert xs. induction l as [|[i face] l IH]; intros xs.
  - intros ->%Forall2_nil_inv_l. constructor.
  - intros (mb & xs' & Hmb & Hrest & ->)%Forall2_cons_inv_l.
    rewrite fmap_cons. constructor; [|by apply IH].
    apply out_calculateFace_fulfilled in Hmb as (? & ? & ? & bufs & ? & ? & ? & ?).
    exists bufs. auto 10.
Qed.

Lemma faceEdgeTasks_edgeTasks j (l : list CurveEdge) :
  faceEdgeTasks k stepData formNote outlinesOnly c j l
  = edgeTasks k stepData formNote outlinesOnly c (imap (λ n edge, (j + n, edge)) l).
Proof.
  unfold faceEdgeTasks, edgeTasks, entries. rewrite !fmap_imap. by apply imap_ext.
Qed.

Lemma numbered_edges_fulfilled (l : list (nat * Face.t)) j ys :
  Forall2 (λ p v, result p = Fulfilled v)
          (numbered j l ≫= edgeTasksAt k stepData formNote outlinesOnly c) ys →
  defined ys = omap (firstOutline k stepData formNote outlinesOnly)
                    (imap (λ n edge, (j + n, edge)) (l.*2 ≫= Face.GetEdges)).
Proof.
  revert j ys. induction l as [|[i face] l IH]; intros j ys.
  - by intros ->%Forall2_nil_inv_l.
  - cbn [numbered]. rewrite bind_cons, fmap_cons, bind_cons.
    intros (ys1 & ys2 & Hys1 & Hys2 & ->)%Forall2_app_inv_l.
    unfold edgeTasksAt at 1 in Hys1. cbn [fst snd] in Hys1, Hys2.
    rewrite faceEdgeTasks_edgeTasks in Hys1. apply edgeTasks_fulfilled in Hys1.
    apply IH in Hys2. unfold defined in *.
    rewrite omap_app, imap_app, omap_app, Hys1, Hys2. f_equal. f_equal.
    apply imap_ext. intros n edge _. cbn. f_equal. lia.
Qed.

Lemma filter_isMiss_snd (l : list (nat * Face.t)) :
  (filter (isMiss this) l).*2 = filter (λ face, cacheHit this face = None) l.*2.
Proof.
  induction l as [|[i face] l IH]; [done|]. rewrite fmap_cons.
  destruct (decide (cacheHit this face = None)) as [Hmiss|Hhit].
  - rewrite !filter_cons_True by done. by rewrite fmap_cons, IH.
  - by rewrite !filter_cons_False.
Qed.

End face_cache_result.

(** X19. What the face cache returns for a solid when it returns.  The faces
    are the stored buffers of the faces it reuses followed by one buffer for
    every other face, holding what the kernel computed for that face.  The
    edges are the stored edges of the faces it reuses followed, for the edges
    of the other faces, face after face, by the first outline of every edge
    whose mesh has one, numbered by the position of the edge in that walk: an
    edge on two computed faces comes twice, under two numbers. *)
Theorem face_cache_create_result (this : FaceCacheMeshCreator.t) (k : Kernel)
    (solid : Solid.t) (stepData : StepData) (formNote : FormNote) (outlinesOnly : bool)
    (c : nat) (m : MeshLike) :
  let misses := filter (λ face, cacheHit this face = None) (Solid.GetFaces solid) in
  out (run (FaceCacheMeshCreator.create this k (Item.OfSolid solid) stepData formNote
              outlinesOnly) c) = Fulfilled m →
  (∃ computed,
     faces m = omap (λ face, fst <$> cacheHit this face) (Solid.GetFaces solid) ++ computed ∧
     Forall2 (λ face mb,
                ∃ bufs, result (CalculateGrid_async k face stepData (Quad formNote)
                                  (Fair formNote)) = Fulfilled bufs ∧
                        mb_index mb = gb_index bufs ∧ mb_position mb = gb_position bufs ∧
                        mb_normal mb = gb_normal bufs ∧
                        mb_model mb = Some face ∧
                        (grid_stepData <$> mb_grid mb) = Some stepData)
             misses computed) ∧
  edges m = (omap (cacheHit this) (Solid.GetFaces solid) ≫= snd)
            ++ omap (firstOutline k stepData formNote outlinesOnly)
                    (entries (misses ≫= Face.GetEdges)).
Proof.
  intros misses Hout.
  destruct (loopRun_layout this k stepData formNote outlinesOnly c (Solid.GetFaces solid))
    as (st & es & Hrun & [Hcf Hce Hfp _ _ _ _ _] & [_ Hep _ _]).
  rewrite (run_faceCache_create _ _ _ _ _ _ _ _ _ Hrun) in Hout.
  apply awaitBoth_fulfilled in Hout as (xs & ys & Hxs & Hys & -> & _). cbn [faces edges].
  rewrite Hfp in Hxs. rewrite Hep in Hys.
  apply all_fulfilled_values in Hxs, Hys.
  apply faceTasks_buffers in Hxs. apply numbered_edges_fulfilled in Hys.
  rewrite filter_isMiss_snd, entries_snd in Hxs, Hys. fold misses in Hxs, Hys.
  rewrite Hcf, Hce, (omap_entries (λ face, fst <$> cacheHit this face)),
    (omap_entries (cacheHit this)).
  split; [by exists xs|]. by rewrite Hys.
Qed.

Lemma face_cache_create_result_witness :
  ∃ m, out (run (FaceCacheMeshCreator.create (FaceCacheMeshCreator.Make ∅ cubeHistory)
                   kernelOk (Item.OfSolid cube) sag1 plain false) 0) = Fulfilled m ∧
       length (edges m) = 24 ∧ eb_i <$> edges m = seq 0 24.
Proof.
  destruct (out (run (FaceCacheMeshCreator.create (FaceCacheMeshCreator.Make ∅ cubeHistory)
                        kernelOk (Item.OfSolid cube) sag1 plain false) 0))
    as [m|] eqn:Hout; [|by vm_compute in Hout].
  exists m. split; [reflexivity|].
  destruct (face_cache_create_result _ _ _ _ _ _ _ m Hout) as [_ Hedges].
  rewrite Hedges. clear Hout Hedges. split; vm_compute; reflexivity.
Defined.

(** X20. With nothing to reuse the face cache computes the faces the parallel
    creator computes: when no face of the solid is a cache hit and both
    creators return a mesh for the call, the faces they return are equal.  The
    edges need not be: the parallel creator walks the edges of the solid, the
    face cache the edges of every face. *)
Theorem face_cache_faces_agree_with_parallel (this : FaceCacheMeshCreator.t) (k : Kernel)
    (solid : Solid.t) (stepData : StepData) (formNote : FormNote) (outlinesOnly : bool)
    (c : nat) (mp mf : MeshLike) :
  (∀ face, face ∈ Solid.GetFaces solid → cacheHit this face = None) →
  out (run (ParallelMeshCreator.create k (Item.OfSolid solid) stepData formNote
              outlinesOnly) c) = Fulfilled mp →
  out (run (FaceCacheMeshCreator.create this k (Item.OfSolid solid) stepData formNote
              outlinesOnly) c) = Fulfilled mf →
  faces mf = faces mp.
Proof.
  intros Hmiss Hp Hf.
  destruct (loopRun_loopInv this k stepData formNote outlinesOnly c (Solid.GetFaces solid))
    as (st & es & Hrun & [Hcf _ Hfp _ _ _ _ _]).
  rewrite (run_faceCache_create _ _ _ _ _ _ _ _ _ Hrun) in Hf.
  rewrite run_parallel_create in Hp.
  apply awaitBoth_fulfilled in Hp as (xs & ys & Hxs & _ & -> & _).
  apply awaitBoth_fulfilled in Hf as (xs' & ys' & Hxs' & _ & -> & _).
  cbn [faces]. rewrite Hcf, Hfp in *.
  assert (∀ x, x ∈ entries (Solid.GetFaces solid) → cacheHit this x.2 = None) as Hmiss'.
  { intros [i face] Hx. apply Hmiss, elem_of_entries. eauto. }
  rewrite filter_all in Hxs' by done. rewrite omap_none; [|by intros x ->%Hmiss'].
  cbn [app]. congruence.
Qed.

Lemma face_cache_faces_agree_with_parallel_witness :
  ∃ mp mf,
    out (run (ParallelMeshCreator.create kernelOk (Item.OfSolid cube) sag1 plain false) 0)
      = Fulfilled mp ∧
    out (run (FaceCacheMeshCreator.create (FaceCacheMeshCreator.Make ∅ cubeHistory) kernelOk
                (Item.OfSolid cube) sag1 plain false) 0) = Fulfilled mf ∧
    faces mf = faces mp ∧ length (edges mp) = 12 ∧ length (edges mf) = 24.
Proof.
  destruct (out (run (ParallelMeshCreator.create kernelOk (Item.OfSolid cube) sag1 plain
                        false) 0)) as [mp|] eqn:Hp; [|by vm_compute in Hp].
  destruct (out (run (FaceCacheMeshCreator.create (FaceCacheMeshCreator.Make ∅ cubeHistory)
                        kernelOk (Item.OfSolid cube) sag1 plain false) 0))
    as [mf|] eqn:Hf; [|by vm_compute in Hf].
  exists mp, mf. split; [reflexivity|]. split; [reflexivity|]. split.
  - apply (face_cache_faces_agree_with_parallel (FaceCacheMeshCreator.Make ∅ cubeHistory)
             kernelOk cube sag1 plain false 0 mp mf); [|exact Hp|exact Hf].
    intros face _. apply cacheHit_empty.
  - vm_compute in Hp, Hf. injection Hp as <-. injection Hf as <-. split; reflexivity.
Defined.
